(** * Starlink platform API: access control, telemetry client, decoding,
      statistics and registration

    A shallow embedding of the core of the platform backend
    ([src/starlink_api/src]) and the properties its specification states
    about it.

    - [Auth]: [utils/auth.py], the decorators [token_required],
      [admin_required] and [permission_required] over the Role /
      Permission / RolePermission / UserRole tables; [role_required] of
      [utils/auth_middleware.py]; the permission list of
      [utils/init_db.py].
    - [Starlink]: [utils/starlink_api.py], the [StarlinkAPI] client with
      its cached bearer token, [_ensure_token], [get_telemetry],
      [process_telemetry_data] and the three per-stream getters.
    - [Wire]: [process_telemetry_data] and the stream filters once
      more, on an arbitrary JSON body, with the exceptions of Python.
    - [TelemetryRoutes]: [routes/telemetry.py], the views
      [sync_telemetry], [get_usage_stats], [get_performance_stats] and
      the two listings; [pagination_response] of [utils/responses.py].
    - [AuthRoutes]: [routes/auth.py], the views [register], [login] and
      [change_password].

    The definitions come first, the lemmas and theorems after them:
    first the properties the specification claims, then further
    properties read off the code. *)

From Stdlib Require Import ZArith QArith Lia.
From stdpp Require Import base decidable option list strings gmap sorting.

Local Open Scope string_scope.
Local Open Scope list_scope.
Local Open Scope Z_scope.

(** ** Access control ([utils/auth.py]) *)

Module Auth.

(** Rows of the four tables of [models/user.py]; every key is a
    [String(36)] column. *)
Record Role := mkRole { role_id : string; role_name : string }.

Record Permission := mkPermission {
  permission_id : string;
  permission_name : string;
  resource : string;
  action : string
}.

Record RolePermission := mkRolePermission {
  rp_role_id : string;
  rp_permission_id : string
}.

Record UserRole := mkUserRole {
  ur_user_id : string;
  ur_role_id : string;
  ur_organization_id : string
}.

Record Db := mkDb {
  roles : list Role;
  permissions : list Permission;
  role_permissions : list RolePermission;
  user_roles : list UserRole
}.

(** The queries the decorator sends, in the order it sends them. *)
Inductive query :=
| QUserRoles (user_id : string)
| QRoleGet (rid : string)
| QPermission (res act : string)
| QRolePermission (rid pid : string).

(** What the decorated view does: call the wrapped handler, or answer
    [jsonify({'message': m}), status]. *)
Inductive response :=
| Invoke
| Reject (message : string) (status : Z).

(** [UserRole.query.filter_by(user_id=user_id).all()] *)
Definition UserRole_filter_by (db : Db) (user_id : string) : list UserRole :=
  filter (λ ur, ur_user_id ur = user_id) (user_roles db).

(** [Role.query.get(role_id)] *)
Definition Role_get (db : Db) (rid : string) : option Role :=
  List.find (λ r, bool_decide (role_id r = rid)) (roles db).

(** [Permission.query.filter_by(resource=resource, action=action).first()] *)
Definition Permission_first (db : Db) (res act : string) : option Permission :=
  List.find (λ p, bool_decide (resource p = res) && bool_decide (action p = act))
            (permissions db).

(** [RolePermission.query.filter_by(role_id=..., permission_id=...).first()] *)
Definition RolePermission_first (db : Db) (rid pid : string)
  : option RolePermission :=
  List.find (λ rp, bool_decide (rp_role_id rp = rid)
                   && bool_decide (rp_permission_id rp = pid))
            (role_permissions db).

(** [role and role.name == 'Super Admin'] *)
Definition is_super_admin (o : option Role) : bool :=
  match o with
  | Some r => String.eqb (role_name r) "Super Admin"
  | None => false
  end.

(** First loop of [decorated]: stops at the first Super Admin role. *)
Fixpoint super_admin_loop (db : Db) (urs : list UserRole) : bool * list query :=
  match urs with
  | [] => (false, [])
  | ur :: rest =>
      if is_super_admin (Role_get db (ur_role_id ur))
      then (true, [QRoleGet (ur_role_id ur)])
      else let '(b, t) := super_admin_loop db rest in
           (b, QRoleGet (ur_role_id ur) :: t)
  end.

(** Second loop: stops at the first role linked to the permission. *)
Fixpoint grant_loop (db : Db) (pid : string) (urs : list UserRole)
  : bool * list query :=
  match urs with
  | [] => (false, [])
  | ur :: rest =>
      match RolePermission_first db (ur_role_id ur) pid with
      | Some _ => (true, [QRolePermission (ur_role_id ur) pid])
      | None => let '(b, t) := grant_loop db pid rest in
                (b, QRolePermission (ur_role_id ur) pid :: t)
      end
  end.

(** [permission_required(resource, action)(f)]. [identity] is what
    [verify_jwt_in_request(); get_jwt_identity()] produce: [None] when
    they raise.  The result pairs the response with the queries made.
    The queries themselves do not fail here, and what the handler does
    once invoked is not part of the decision. *)
Definition permission_required (res act : string)
           (identity : option string) (db : Db) : response * list query :=
  match identity with
  | None => (Reject "Token is invalid or expired" 401, [])
  | Some user_id =>
      let urs := UserRole_filter_by db user_id in
      let '(admin, t1) := super_admin_loop db urs in
      if admin then (Invoke, QUserRoles user_id :: t1)
      else
        match Permission_first db res act with
        | None =>
            (Reject "Permission not found" 403,
             QUserRoles user_id :: t1 ++ [QPermission res act])
        | Some permission =>
            let '(ok, t2) := grant_loop db (permission_id permission) urs in
            (if ok then Invoke else Reject "Permission denied" 403,
             QUserRoles user_id :: t1 ++ QPermission res act :: t2)
        end
  end.

(** The decision alone. *)
Definition authorize (res act : string) (identity : option string) (db : Db)
  : response :=
  fst (permission_required res act identity db).

(** A query that touches the Permission catalog or its edges. *)
Definition is_permission_query (q : query) : bool :=
  match q with
  | QPermission _ _ | QRolePermission _ _ => true
  | _ => false
  end.

(** The user holds a UserRole row whose role is named "Super Admin". *)
Definition holds_super_admin (db : Db) (user_id : string) : Prop :=
  ∃ ur, ur ∈ user_roles db ∧ ur_user_id ur = user_id
        ∧ is_super_admin (Role_get db (ur_role_id ur)) = true.

(** Some role of the user is linked to permission [pid]. *)
Definition role_grants (db : Db) (user_id pid : string) : Prop :=
  ∃ ur rp, ur ∈ user_roles db ∧ ur_user_id ur = user_id
           ∧ rp ∈ role_permissions db
           ∧ rp_role_id rp = ur_role_id ur ∧ rp_permission_id rp = pid.

(** The table constraint [uq_resource_action] of [Permission]. *)
Definition uq_resource_action (db : Db) : Prop :=
  ∀ p q, p ∈ permissions db → q ∈ permissions db →
         resource p = resource q → action p = action q → p = q.

(** Two states hold the same (user, role) pairs in UserRole. *)
Definition same_user_role_pairs (db1 db2 : Db) : Prop :=
  ∀ u r,
    (∃ ur, ur ∈ user_roles db1 ∧ ur_user_id ur = u ∧ ur_role_id ur = r)
    ↔ (∃ ur, ur ∈ user_roles db2 ∧ ur_user_id ur = u ∧ ur_role_id ur = r).

(** A small catalog: alice is Super Admin, bob a Viewer who may read
    devices, carol holds a role without any permission. *)
Definition demo_db : Db :=
  {| roles := [mkRole "r1" "Super Admin"; mkRole "r2" "Viewer";
               mkRole "r3" "Client"];
     permissions := [mkPermission "p1" "device:read" "device" "read";
                     mkPermission "p2" "device:update" "device" "update"];
     role_permissions := [mkRolePermission "r2" "p1"];
     user_roles := [mkUserRole "alice" "r1" "orgA";
                    mkUserRole "bob" "r2" "orgA";
                    mkUserRole "carol" "r3" "orgB"] |}.

(** The same assignments, moved to other organizations. *)
Definition demo_db_moved : Db :=
  {| roles := roles demo_db;
     permissions := permissions demo_db;
     role_permissions := role_permissions demo_db;
     user_roles := [mkUserRole "bob" "r2" "orgB";
                    mkUserRole "alice" "r1" "orgC";
                    mkUserRole "carol" "r3" "orgA";
                    mkUserRole "bob" "r2" "orgC"] |}.

(** *** The other decorators of [utils/auth.py] *)

(** [token_required(f)] *)
Definition token_required (identity : option string) : response :=
  match identity with
  | Some _ => Invoke
  | None => Reject "Token is invalid or expired" 401
  end.

(** [admin_required(f)]: the first loop of [permission_required], and a
    403 when it finds no Super Admin role. *)
Definition admin_required (identity : option string) (db : Db)
  : response * list query :=
  match identity with
  | None => (Reject "Token is invalid or expired" 401, [])
  | Some user_id =>
      let '(admin, t) := super_admin_loop db (UserRole_filter_by db user_id) in
      (if admin then Invoke else Reject "Admin privileges required" 403,
       QUserRoles user_id :: t)
  end.

(** *** [utils/auth_middleware.py] *)

(** [db.session.query(Role).join(UserRole)
      .filter(UserRole.user_id == user_id).all()]:
    a role comes once for every UserRole row of the user that names
    it. *)
Definition roles_of_user (db : Db) (user_id : string) : list Role :=
  r ← roles db;
  ur ← List.filter (λ ur, bool_decide (ur_role_id ur = role_id r)
                          && bool_decide (ur_user_id ur = user_id))
                   (user_roles db);
  [r].

(** [role_required(role_name)(fn)] *)
Definition role_required (name : string) (identity : option string) (db : Db)
  : response :=
  match identity with
  | None => Reject "Authentication error" 401
  | Some user_id =>
      if negb (existsb (λ role, String.eqb (role_name role) name)
                       (roles_of_user db user_id))
      then Reject "Insufficient permissions" 403
      else Invoke
  end.

(** *** The catalog of [utils/init_db.py] *)

(** The [permissions] list of [init_roles_and_permissions]. *)
Definition seed_permissions : list (string * string) :=
  [("user", "create"); ("user", "read"); ("user", "update"); ("user", "delete");
   ("organization", "create"); ("organization", "read");
   ("organization", "update"); ("organization", "delete");
   ("device", "create"); ("device", "read"); ("device", "update");
   ("device", "delete");
   ("telemetry", "read"); ("telemetry", "sync");
   ("support", "create"); ("support", "read"); ("support", "update");
   ("support", "delete");
   ("notification", "create"); ("notification", "read");
   ("notification", "update"); ("notification", "delete")].

(** The Permission table holds pairs of the seed list only. *)
Definition seeded_catalog (db : Db) : Prop :=
  ∀ p, p ∈ permissions db → (resource p, action p) ∈ seed_permissions.

(** One state lies inside another: same roles and permissions, and
    every edge of the first is an edge of the second. *)
Definition grants_included (db1 db2 : Db) : Prop :=
  roles db1 = roles db2
  ∧ permissions db1 = permissions db2
  ∧ role_permissions db1 ⊆ role_permissions db2
  ∧ user_roles db1 ⊆ user_roles db2.

End Auth.

(** ** The vendor client ([utils/starlink_api.py]) *)

Module Starlink.

(** *** Wire format of the telemetry endpoint *)

(** A cell of a telemetry row.  Numbers are carried along and never
    computed with. *)
Inductive value :=
| VNull
| VBool (b : bool)
| VNum (n : Z)
| VStr (s : string).

#[export] Instance value_eq_dec : EqDecision value.
Proof. solve_decision. Defined.

(** A decoded row: a Python [dict] from column name to cell. *)
Abbreviation record := (gmap string value).

(** The object under the ['data'] key, for the bodies of the wire
    format: a table of lists of column names and a list of rows of
    cells.  Both keys are read with [.get] and may be missing.  [Wire]
    has the decoder on every JSON body, with the exceptions it raises on
    the others; on the bodies of this format the two agree. *)
Record batch := mkBatch {
  columnNamesByDeviceType : option (gmap string (list string));
  values : option (list (list value))
}.

(** The JSON body of a telemetry response. *)
Record payload := mkPayload {
  data : option batch;
  metadata : option (gmap string value)
}.

(** What [process_telemetry_data] returns:
    [{'data': processed_data, 'metadata': metadata}]. *)
Record processed := mkProcessed {
  processed_data : list record;
  processed_metadata : gmap string value
}.

(** Python truthiness of a cell, of a token and of a response body. *)
Definition value_truthy (v : value) : bool :=
  match v with
  | VNull => false
  | VBool b => b
  | VNum n => negb (n =? 0)
  | VStr s => negb (String.eqb s "")
  end.

Definition token_truthy (t : option string) : bool :=
  match t with
  | Some s => negb (String.eqb s "")
  | None => false
  end.

Definition payload_truthy (p : option payload) : bool :=
  match p with
  | Some p => bool_decide (is_Some (data p)) || bool_decide (is_Some (metadata p))
  | None => false
  end.

(** *** The upstream and the client state *)

(** Calls the vendor sees, oldest first. *)
Inductive event :=
| TokenExchange
| TelemetryPost (bearer : option string) (account_number : value)
                (batch_size max_linger_ms : Z).

(** Outcome of [requests.post] on the telemetry endpoint: the call
    raises, or answers with a status and a body ([None] when
    [response.json()] raises). *)
Inductive http_result :=
| TransportError
| Http (status : Z) (body : option payload).

(** The world outside the client: the answers the token endpoint and the
    telemetry endpoint will give, in order (an exhausted list answers
    with a failure), the readings of [time.time()] in seconds, and what
    has been called so far. *)
Record World := mkWorld {
  token_answers : list (option string);
  telemetry_answers : list http_result;
  clock : nat → Z;
  time_reads : nat;
  log : list event
}.

(** [self.access_token] and [self.token_expiry]; [__init__] sets
    [None] and [0]. *)
Record StarlinkAPI := mkStarlinkAPI {
  access_token : option string;
  token_expiry : Z
}.

Definition StarlinkAPI_init : StarlinkAPI :=
  {| access_token := None; token_expiry := 0 |}.

(** [time.time()] *)
Definition time_time (w : World) : Z * World :=
  (clock w (time_reads w),
   {| token_answers := token_answers w;
      telemetry_answers := telemetry_answers w;
      clock := clock w;
      time_reads := S (time_reads w);
      log := log w |}).

(** [get_starlink_access_token()] of [utils/auth.py]: the token of the
    answer, [None] when the request fails or carries none. *)
Definition get_starlink_access_token (w : World) : option string * World :=
  (mjoin (head (token_answers w)),
   {| token_answers := tail (token_answers w);
      telemetry_answers := telemetry_answers w;
      clock := clock w;
      time_reads := time_reads w;
      log := log w ++ [TokenExchange] |}).

(** [requests.post(f"{self.base_url}/telemetry/stream/v1/telemetry", ...)] *)
Definition post_telemetry (bearer : option string) (account_number : value)
           (batch_size max_linger_ms : Z) (w : World) : http_result * World :=
  (default TransportError (head (telemetry_answers w)),
   {| token_answers := token_answers w;
      telemetry_answers := tail (telemetry_answers w);
      clock := clock w;
      time_reads := time_reads w;
      log := log w ++ [TelemetryPost bearer account_number
                                     batch_size max_linger_ms] |}).

(** [_ensure_token]: [false] in the first component stands for the
    raised [Exception("Failed to get Starlink access token")]. *)
Definition _ensure_token (self : StarlinkAPI) (w : World)
  : bool * StarlinkAPI * World :=
  let '(current_time, w1) := time_time w in
  if negb (token_truthy (access_token self))
     || (token_expiry self <=? current_time)
  then
    let '(tok, w2) := get_starlink_access_token w1 in
    if token_truthy tok
    then (true,
          {| access_token := tok; token_expiry := current_time + 14 * 60 |},
          w2)
    else (false,
          {| access_token := tok; token_expiry := token_expiry self |},
          w2)
  else (true, self, w1).

(** [response.raise_for_status()] raises on 4xx and 5xx. *)
Definition raises_for_status (status : Z) : bool :=
  (400 <=? status) && (status <? 600).

(** [get_telemetry].  The method calls itself on every 401; [depth] is
    the number of nested frames the interpreter still allows, and at
    [0] the [RecursionError] is caught by [except Exception], which
    returns [None]. *)
Fixpoint get_telemetry (depth : nat) (self : StarlinkAPI) (w : World)
         (account_number : value) (batch_size max_linger_ms : Z)
  : option payload * StarlinkAPI * World :=
  match depth with
  | O => (None, self, w)
  | S depth' =>
      let '(ok, self1, w1) := _ensure_token self w in
      if negb ok then (None, self1, w1)
      else
        let '(response, w2) :=
          post_telemetry (access_token self1) account_number
                         batch_size max_linger_ms w1 in
        match response with
        | TransportError => (None, self1, w2)
        | Http status body =>
            if status =? 401 then
              get_telemetry depth'
                            {| access_token := None; token_expiry := 0 |}
                            w2 account_number batch_size max_linger_ms
            else if raises_for_status status then (None, self1, w2)
            else (body, self1, w2)
        end
  end.

(** *** Decoding *)

(** [column_names_by_device_type.get(device_type, [])]: the keys of a
    JSON object are strings, so only a string cell can hit one. *)
Definition lookup_column_names (names : gmap string (list string))
           (device_type : value) : list string :=
  match device_type with
  | VStr s => default [] (names !! s)
  | _ => []
  end.

(** [for i, column_name in enumerate(column_names):
       row_dict[column_name] = row[i]]
    run on lists of equal length. *)
Fixpoint fill_row_dict (row_dict : record) (column_names : list string)
         (row : list value) : record :=
  match column_names, row with
  | column_name :: names', cell :: row' =>
      fill_row_dict (<[column_name := cell]> row_dict) names' row'
  | _, _ => row_dict
  end.

(** The body of the row loop: [None] for [continue], [Some row_dict]
    for [processed_data.append(row_dict)]. *)
Definition process_row (names : gmap string (list string)) (row : list value)
  : option record :=
  match row with
  | [] => None
  | device_type :: _ =>
      if (length row <? 2)%nat then None
      else
        let column_names := lookup_column_names names device_type in
        match column_names with
        | [] => None
        | _ :: _ =>
            if negb (length column_names =? length row)%nat then None
            else Some (fill_row_dict ∅ column_names row)
        end
  end.

(** [process_telemetry_data] *)
Definition process_telemetry_data (telemetry_data : option payload)
  : option processed :=
  if negb (payload_truthy telemetry_data) then None
  else
    match telemetry_data with
    | None => None
    | Some td =>
        match data td with
        | None => None
        | Some d =>
            let names := default ∅ (columnNamesByDeviceType d) in
            let rows := default [] (values d) in
            Some {| processed_data := omap (process_row names) rows;
                    processed_metadata := default ∅ (metadata td) |}
        end
    end.

(** [row.get('DeviceType') == tag] *)
Definition has_device_type (tag : string) (row : record) : bool :=
  bool_decide (row !! "DeviceType" = Some (VStr tag)).

(** What each per-stream getter does with the result of the fetch. *)
Definition stream_of (tag : string) (telemetry_data : option payload)
  : list record :=
  if negb (payload_truthy telemetry_data) then []
  else
    match process_telemetry_data telemetry_data with
    | None => []
    | Some p => List.filter (has_device_type tag) (processed_data p)
    end.

(** [get_user_terminal_telemetry], [get_router_telemetry] and
    [get_ip_allocations]: each one fetches a batch of its own, with the
    default [batch_size=1000, max_linger_ms=15000]. *)
Definition get_stream (tag : string) (depth : nat) (self : StarlinkAPI)
           (w : World) (account_number : value)
  : list record * StarlinkAPI * World :=
  let '(telemetry_data, self1, w1) :=
    get_telemetry depth self w account_number 1000 15000 in
  (stream_of tag telemetry_data, self1, w1).

Definition get_user_terminal_telemetry := get_stream "u".
Definition get_router_telemetry := get_stream "r".
Definition get_ip_allocations := get_stream "i".

(** The three streams of one batch. *)
Record streams := mkStreams {
  userTerminalRows : list record;
  routerRows : list record;
  ipAllocationRows : list record
}.

Definition decode (telemetry_data : option payload) : streams :=
  {| userTerminalRows := stream_of "u" telemetry_data;
     routerRows := stream_of "r" telemetry_data;
     ipAllocationRows := stream_of "i" telemetry_data |}.

(** *** Counting calls *)

Definition is_token_exchange (e : event) : bool :=
  match e with TokenExchange => true | _ => false end.

Definition is_telemetry_post (e : event) : bool :=
  match e with TelemetryPost _ _ _ _ => true | _ => false end.

Definition token_exchanges (l : list event) : nat :=
  length (List.filter is_token_exchange l).

Definition telemetry_posts (l : list event) : nat :=
  length (List.filter is_telemetry_post l).

(** A world at rest: nothing called yet, the given answers queued. *)
Definition world_of (tokens : list (option string))
           (answers : list http_result) (clock : nat → Z) : World :=
  {| token_answers := tokens; telemetry_answers := answers;
     clock := clock; time_reads := 0; log := [] |}.

(** An upstream that rejects the bearer token [n] times and then
    serves [body], handing out the token [tok] at every exchange. *)
Definition rejecting_world (n : nat) (tok : string) (body : option payload)
           (clock : nat → Z) : World :=
  world_of (replicate (S n) (Some tok))
           (replicate n (Http 401 None) ++ [Http 200 body]) clock.

(** *** Decoding as the specification words it *)

(** A row of the batch [d] filed under the stream [tag]: it has at
    least two cells, its first cell is the discriminator [tag], the
    column list of that device type exists and is as long as the row,
    and the record pairs the column at each index with the cell at that
    index. *)
Definition spec_row (names : gmap string (list string)) (tag : string)
           (row : list value) : option record :=
  if (length row <? 2)%nat then None
  else
    match head row with
    | Some (VStr s) =>
        if bool_decide (s = tag) then
          match names !! s with
          | Some column_names =>
              if (length column_names =? length row)%nat
              then Some (list_to_map (zip column_names row))
              else None
          | None => None
          end
        else None
    | _ => None
    end.

Definition spec_stream (tag : string) (d : batch) : list record :=
  omap (spec_row (default ∅ (columnNamesByDeviceType d)) tag)
       (default [] (values d)).

Definition decode_spec (d : batch) : streams :=
  {| userTerminalRows := spec_stream "u" d;
     routerRows := spec_stream "r" d;
     ipAllocationRows := spec_stream "i" d |}.

(** Every batch is decoded by discriminator. *)
Definition files_by_discriminator : Prop :=
  ∀ td d, data td = Some d → decode (Some td) = decode_spec d.

(** The column lists of a batch all start with the ["DeviceType"]
    column and name no column twice. *)
Definition device_type_first (d : batch) : Prop :=
  ∀ s column_names,
    default ∅ (columnNamesByDeviceType d) !! s = Some column_names →
    column_names = [] ∨ (head column_names = Some "DeviceType"
                         ∧ NoDup column_names).

(** The batch of the decoding example: one good row, one short row,
    one row of an unknown device type. *)
Definition example_batch : batch :=
  {| columnNamesByDeviceType := Some {[ "u" := ["DeviceType"; "X"; "Y"] ]};
     values := Some [[VStr "u"; VNum 1; VNum 2];
                     [VStr "u"; VNum 1];
                     [VStr "z"; VNum 1; VNum 2]] |}.

(** A batch whose user-terminal columns carry the device type in
    second place. *)
Definition swapped_batch : batch :=
  {| columnNamesByDeviceType := Some {[ "u" := ["Id"; "DeviceType"] ]};
     values := Some [[VStr "u"; VStr "r"]] |}.

(** A call that needs a bearer token carries a non-empty one. *)
Definition bearer_ok (e : event) : bool :=
  match e with
  | TokenExchange => true
  | TelemetryPost bearer _ _ _ => token_truthy bearer
  end.

End Starlink.

(** ** Decoding an arbitrary body ([utils/starlink_api.py]) *)

Module Wire.

(** What [response.json()] returns.  An object lists the items of the
    [dict] in their order, a key once.  Numbers are carried along, and
    only told from zero and from each other: an integer stands for a
    number, one with a fraction included. *)
#[warnings="-register-all"] Inductive json :=
| JNull
| JBool (b : bool)
| JNum (n : Z)
| JStr (s : string)
| JArr (elems : list json)
| JObj (items : list (string * json)).

(** A Python expression returns a value or raises. *)
Inductive outcome (A : Type) :=
| Raised
| Returned (a : A).

Arguments Raised {A}.
Arguments Returned {A} a.

(** [bool(j)] *)
Definition truthy (j : json) : bool :=
  match j with
  | JNull => false
  | JBool b => b
  | JNum n => negb (n =? 0)
  | JStr s => negb (String.eqb s "")
  | JArr elems => negb (length elems =? 0)%nat
  | JObj items => negb (length items =? 0)%nat
  end.

(** The keys of a [dict]: what hashes, up to [==].  [True] is the key
    [1] and [False] the key [0]; a list and a [dict] do not hash. *)
Inductive key :=
| KNone
| KInt (n : Z)
| KStr (s : string).

#[export] Instance key_eq_dec : EqDecision key.
Proof. solve_decision. Defined.

#[export] Instance key_countable : Countable key.
Proof.
  refine (inj_countable'
            (λ k, match k with
                  | KNone => inl ()
                  | KInt n => inr (inl n)
                  | KStr s => inr (inr s)
                  end)
            (λ x, match x with
                  | inl _ => KNone
                  | inr (inl n) => KInt n
                  | inr (inr s) => KStr s
                  end) _).
  by intros [].
Defined.

Definition dict_key (j : json) : option key :=
  match j with
  | JNull => Some KNone
  | JBool b => Some (KInt (if b then 1 else 0))
  | JNum n => Some (KInt n)
  | JStr s => Some (KStr s)
  | JArr _ => None
  | JObj _ => None
  end.

(** A decoded row: the [dict] [row_dict]. *)
Abbreviation record := (gmap key json).

(** The characters of a [str], each a [str] of length one. *)
Fixpoint characters (s : string) : list json :=
  match s with
  | EmptyString => []
  | String a s' => JStr (String a EmptyString) :: characters s'
  end.

(** [for x in j]: the elements of a list, the keys of a [dict], the
    characters of a [str]; [None] where Python raises [TypeError]. *)
Definition elements (j : json) : option (list json) :=
  match j with
  | JArr elems => Some elems
  | JObj items => Some ((λ kv, JStr (fst kv)) <$> items)
  | JStr s => Some (characters s)
  | _ => None
  end.

(** [len(j)], [None] where Python raises [TypeError]. *)
Definition len (j : json) : option nat :=
  match j with
  | JArr elems => Some (length elems)
  | JObj items => Some (length items)
  | JStr s => Some (String.length s)
  | _ => None
  end.

(** [j[i]] for an index [i]: [None] where Python raises, as it does on
    a [dict], whose keys are strings. *)
Definition subscript (j : json) (i : nat) : option json :=
  match j with
  | JArr elems => elems !! i
  | JStr s => characters s !! i
  | _ => None
  end.

(** The value under a key of a [dict]. *)
Definition item (items : list (string * json)) (k : string) : option json :=
  snd <$> List.find (λ kv, String.eqb (fst kv) k) items.

(** [d.get(k, dflt)]: [AttributeError] when [d] is no [dict],
    [TypeError] when [k] does not hash. *)
Definition dict_get (d k dflt : json) : outcome json :=
  match d with
  | JObj items =>
      match dict_key k with
      | None => Raised
      | Some (KStr s) => Returned (default dflt (item items s))
      | Some _ => Returned dflt
      end
  | _ => Raised
  end.

Definition is_text (s : string) (j : json) : bool :=
  match j with
  | JStr t => String.eqb t s
  | _ => false
  end.

(** [s in j] for a [str] [s]: a key of a [dict], an element of a list,
    a substring of a [str]; [TypeError] otherwise. *)
Definition contains (j : json) (s : string) : outcome bool :=
  match j with
  | JObj items => Returned (bool_decide (is_Some (item items s)))
  | JArr elems => Returned (existsb (is_text s) elems)
  | JStr t => Returned (bool_decide (is_Some (String.index 0 s t)))
  | _ => Raised
  end.

(** What [process_telemetry_data] returns:
    [{'data': processed_data, 'metadata': metadata}]. *)
Record processed := mkProcessed {
  processed_data : list record;
  processed_metadata : json
}.

(** [for i, column_name in enumerate(column_names):
       row_dict[column_name] = row[i]]
    from the index [i] on. *)
Fixpoint fill_row_dict (row_dict : record) (column_names : list json)
         (row : json) (i : nat) : outcome record :=
  match column_names with
  | [] => Returned row_dict
  | column_name :: names' =>
      match subscript row i, dict_key column_name with
      | Some cell, Some k =>
          fill_row_dict (<[k := cell]> row_dict) names' row (S i)
      | _, _ => Raised
      end
  end.

(** The body of the row loop: [Returned None] for [continue],
    [Returned (Some row_dict)] for [processed_data.append(row_dict)]. *)
Definition process_row (column_names_by_device_type row : json)
  : outcome (option record) :=
  if negb (truthy row) then Returned None
  else
    match len row with
    | None => Raised
    | Some n =>
        if (n <? 2)%nat then Returned None
        else
          match subscript row 0 with
          | None => Raised
          | Some device_type =>
              match dict_get column_names_by_device_type device_type
                             (JArr []) with
              | Raised => Raised
              | Returned column_names =>
                  if negb (truthy column_names) then Returned None
                  else
                    match len column_names with
                    | None => Raised
                    | Some m =>
                        if negb (m =? n)%nat then Returned None
                        else
                          match fill_row_dict
                                  ∅ (default [] (elements column_names))
                                  row 0 with
                          | Raised => Raised
                          | Returned row_dict => Returned (Some row_dict)
                          end
                    end
              end
          end
    end.

(** The row loop: the first row that raises ends it. *)
Fixpoint process_rows (column_names_by_device_type : json) (rows : list json)
  : outcome (list record) :=
  match rows with
  | [] => Returned []
  | row :: rows' =>
      match process_row column_names_by_device_type row with
      | Raised => Raised
      | Returned kept =>
          match process_rows column_names_by_device_type rows' with
          | Raised => Raised
          | Returned processed_data =>
              Returned (match kept with
                        | Some row_dict => row_dict :: processed_data
                        | None => processed_data
                        end)
          end
      end
  end.

(** [process_telemetry_data] *)
Definition process_telemetry_data (telemetry_data : json)
  : outcome (option processed) :=
  if negb (truthy telemetry_data) then Returned None
  else
    match contains telemetry_data "data" with
    | Raised => Raised
    | Returned false => Returned None
    | Returned true =>
        match telemetry_data with
        | JObj items =>
            match item items "data" with
            | Some (JObj data) =>
                let metadata := default (JObj []) (item items "metadata") in
                let column_names_by_device_type :=
                  default (JObj []) (item data "columnNamesByDeviceType") in
                let values := default (JArr []) (item data "values") in
                match elements values with
                | None => Raised
                | Some rows =>
                    match process_rows column_names_by_device_type rows with
                    | Raised => Raised
                    | Returned processed_data =>
                        Returned (Some {| processed_data := processed_data;
                                          processed_metadata := metadata |})
                    end
                end
            | _ => Raised
            end
        | _ => Raised
        end
    end.

(** [row.get('DeviceType') == tag] *)
Definition has_device_type (tag : string) (row : record) : bool :=
  match row !! KStr "DeviceType" with
  | Some cell => is_text tag cell
  | None => false
  end.

(** What each per-stream getter does with the result of the fetch,
    [None] when [get_telemetry] returned [None]. *)
Definition stream_of (tag : string) (telemetry_data : option json)
  : outcome (list record) :=
  match telemetry_data with
  | None => Returned []
  | Some body =>
      if negb (truthy body) then Returned []
      else
        match process_telemetry_data body with
        | Raised => Raised
        | Returned None => Returned []
        | Returned (Some p) =>
            Returned (List.filter (has_device_type tag) (processed_data p))
        end
  end.

(** The three streams of one batch. *)
Record streams := mkStreams {
  userTerminalRows : list record;
  routerRows : list record;
  ipAllocationRows : list record
}.

Definition decode (telemetry_data : option json) : outcome streams :=
  match stream_of "u" telemetry_data, stream_of "r" telemetry_data,
        stream_of "i" telemetry_data with
  | Returned u, Returned r, Returned i =>
      Returned {| userTerminalRows := u; routerRows := r;
                  ipAllocationRows := i |}
  | _, _, _ => Raised
  end.

(** What the loop appends for a row, and what a getter keeps of it. *)
Definition record_of_row (column_names_by_device_type row : json)
  : option record :=
  match process_row column_names_by_device_type row with
  | Returned appended => appended
  | Raised => None
  end.

Definition filed_record (column_names_by_device_type : json) (tag : string)
           (row : json) : option record :=
  match record_of_row column_names_by_device_type row with
  | Some rec => if has_device_type tag rec then Some rec else None
  | None => None
  end.

(** *** Decoding in words *)

(** The object under ['data'], the column table, the value under
    ['values'] and the rows of a body. *)
Definition body_data (body : json) : option json :=
  match body with
  | JObj items => item items "data"
  | _ => None
  end.

Definition body_columns (body : json) : json :=
  match body_data body with
  | Some (JObj data) => default (JObj []) (item data "columnNamesByDeviceType")
  | _ => JObj []
  end.

Definition body_values (body : json) : json :=
  match body_data body with
  | Some (JObj data) => default (JArr []) (item data "values")
  | _ => JArr []
  end.

Definition body_rows (body : json) : list json :=
  default [] (elements (body_values body)).

(** The column names of a row: the elements of what the column table
    holds for the first element of the row, of the empty list when it
    holds nothing for it. *)
Definition columns_of (column_names_by_device_type row : json)
  : option (list json) :=
  match subscript row 0 with
  | Some device_type =>
      match dict_get column_names_by_device_type device_type (JArr []) with
      | Returned column_names => elements column_names
      | Raised => None
      end
  | None => None
  end.

(** [rec] pairs the names with the elements of the row by index: a key
    holds the element at the last index that names it. *)
Definition paired (names : list json) (row : json) (rec : record) : Prop :=
  ∀ k v,
    rec !! k = Some v
    ↔ ∃ i c, names !! i = Some c ∧ dict_key c = Some k
             ∧ subscript row i = Some v
             ∧ ∀ j c', (i < j)%nat → names !! j = Some c' →
                       dict_key c' ≠ Some k.

(** The row is kept as [rec]: it has two elements or more, its column
    list has as many names, every name hashes, and [rec] pairs them. *)
Definition kept (column_names_by_device_type row : json) (rec : record)
  : Prop :=
  ∃ n names,
    len row = Some n ∧ (2 ≤ n)%nat
    ∧ columns_of column_names_by_device_type row = Some names
    ∧ length names = n
    ∧ (∀ c, c ∈ names → is_Some (dict_key c))
    ∧ paired names row rec.

(** The row makes the loop raise: it is truthy and has no length (a
    number, [True]); or it has two elements or more and is a [dict], or
    the column table is no [dict], or its first element does not hash,
    or the column list found is truthy and has no length, or has the
    length of the row and holds a name that does not hash. *)
Definition raising_row (column_names_by_device_type row : json) : Prop :=
  truthy row = true
  ∧ (len row = None
     ∨ ∃ n, len row = Some n ∧ (2 ≤ n)%nat
            ∧ (subscript row 0 = None
               ∨ ∃ device_type,
                   subscript row 0 = Some device_type
                   ∧ (dict_get column_names_by_device_type device_type
                               (JArr []) = Raised
                      ∨ ∃ column_names,
                          dict_get column_names_by_device_type device_type
                                   (JArr []) = Returned column_names
                          ∧ truthy column_names = true
                          ∧ (len column_names = None
                             ∨ (len column_names = Some n
                                ∧ ∃ c, c ∈ default [] (elements column_names)
                                       ∧ dict_key c = None))))).

(** The body makes decoding raise: it is truthy and is a number or
    [True], a list that holds ['data'], a [str] that contains ['data'],
    or a [dict] whose ['data'] is no [dict], or whose ['values'] cannot
    be iterated (null, a boolean, a number), or one of whose rows makes
    the loop raise. *)
Definition raising_body (body : json) : Prop :=
  truthy body = true
  ∧ ((∃ n, body = JNum n)
     ∨ (∃ b, body = JBool b)
     ∨ (∃ elems, body = JArr elems ∧ JStr "data" ∈ elems)
     ∨ (∃ s, body = JStr s ∧ is_Some (String.index 0 "data" s))
     ∨ ∃ data, body_data body = Some data
               ∧ ((∀ items, data ≠ JObj items)
                  ∨ elements (body_values body) = None
                  ∨ ∃ row, row ∈ body_rows body
                           ∧ raising_row (body_columns body) row)).


(** *** Decoding as the specification words it *)




(** *** Bodies *)

Definition batch_body (column_names_by_device_type values : json) : json :=
  JObj [("data", JObj [("columnNamesByDeviceType", column_names_by_device_type);
                       ("values", values)])].

(** The body of the decoding example: one good row, one short row, one
    row of an unknown device type. *)
Definition example_body : json :=
  batch_body (JObj [("u", JArr [JStr "DeviceType"; JStr "X"; JStr "Y"])])
             (JArr [JArr [JStr "u"; JNum 1; JNum 2];
                    JArr [JStr "u"; JNum 1];
                    JArr [JStr "z"; JNum 1; JNum 2]]).




(** *** The bodies of the wire format *)

(** The bodies [Starlink.payload] describes, as JSON. *)
Definition json_of_value (v : Starlink.value) : json :=
  match v with
  | Starlink.VNull => JNull
  | Starlink.VBool b => JBool b
  | Starlink.VNum n => JNum n
  | Starlink.VStr s => JStr s
  end.

Definition json_of_row (row : list Starlink.value) : json :=
  JArr (json_of_value <$> row).

Definition json_of_names (column_names : list string) : json :=
  JArr (JStr <$> column_names).

Definition json_of_columns (names : gmap string (list string)) : json :=
  JObj (map_to_list (json_of_names <$> names)).

Definition json_of_batch (d : Starlink.batch) : json :=
  JObj (match Starlink.columnNamesByDeviceType d with
        | Some names => [("columnNamesByDeviceType", json_of_columns names)]
        | None => []
        end
        ++ match Starlink.values d with
           | Some rows => [("values", JArr (json_of_row <$> rows))]
           | None => []
           end).

Definition json_of_payload (td : Starlink.payload) : json :=
  JObj (match Starlink.data td with
        | Some d => [("data", json_of_batch d)]
        | None => []
        end
        ++ match Starlink.metadata td with
           | Some m => [("metadata", JObj (map_to_list (json_of_value <$> m)))]
           | None => []
           end).

#[export] Instance KStr_inj : Inj (=) (=) KStr.
Proof. by intros ?? [= ->]. Qed.

Definition record_of (r : Starlink.record) : record :=
  kmap KStr (json_of_value <$> r).

Definition streams_of (s : Starlink.streams) : streams :=
  {| userTerminalRows := record_of <$> Starlink.userTerminalRows s;
     routerRows := record_of <$> Starlink.routerRows s;
     ipAllocationRows := record_of <$> Starlink.ipAllocationRows s |}.

End Wire.

(** ** Telemetry routes ([routes/telemetry.py]) *)

Module TelemetryRoutes.
Import Starlink.

(** Rows of [models/device.py] and [models/telemetry.py], with the
    columns the handlers read.  [DateTime] values are microseconds;
    [Float] columns are exact rationals. *)
Record Device := mkDevice {
  dev_id : string;
  dev_organization_id : string
}.

Record RouterTelemetry := mkRouterTelemetry {
  rt_time : Z;
  rt_device_id : string;
  wan_tx_bytes : option Z;
  wan_rx_bytes : option Z
}.

Record UserTerminalTelemetry := mkUserTerminalTelemetry {
  ut_time : Z;
  ut_device_id : string;
  downlink_throughput : option Q;
  uplink_throughput : option Q;
  ping_latency_ms_avg : option Q;
  ping_drop_rate_avg : option Q;
  obstruction_percent_time : option Q;
  signal_quality : option Q
}.

Record IpAllocation := mkIpAllocation {
  ip_device_id : string;
  ipv4 : option string
}.

Record Stores := mkStores {
  devices : list Device;
  user_terminal_telemetry : list UserTerminalTelemetry;
  router_telemetry : list RouterTelemetry;
  ip_allocations : list IpAllocation
}.

(** *** [sync_telemetry] *)

Inductive sync_response :=
| SyncError (message : string) (status : Z)
| SyncOk (user_terminal_count router_count ip_allocation_count : nat).

(** The [if / elif / elif] of the counting loop, on one row. *)
Definition count_row (counts : nat * nat * nat) (row : record)
  : nat * nat * nat :=
  let '(u, r, i) := counts in
  let device_type := row !! "DeviceType" in
  if bool_decide (device_type = Some (VStr "u")) then (S u, r, i)
  else if bool_decide (device_type = Some (VStr "r")) then (u, S r, i)
  else if bool_decide (device_type = Some (VStr "i")) then (u, r, S i)
  else (u, r, i).

(** The view function.  [request_json] is [request.json] ([None] when
    the body is not an object, on which [data.get] raises); the stores
    and the world are threaded through the call. *)
Definition sync_telemetry (depth : nat)
           (request_json : option (gmap string value))
           (st : Stores) (w : World) : sync_response * Stores * World :=
  match request_json with
  | None =>
      (SyncError "An error occurred while syncing telemetry data" 500, st, w)
  | Some data =>
      match data !! "account_number" with
      | None => (SyncError "Account number is required" 400, st, w)
      | Some account_number =>
          if negb (value_truthy account_number)
          then (SyncError "Account number is required" 400, st, w)
          else
            let starlink_api := StarlinkAPI_init in
            let '(telemetry_data, _, w1) :=
              get_telemetry depth starlink_api w account_number 1000 15000 in
            if negb (payload_truthy telemetry_data)
            then (SyncError "Failed to get telemetry data from Starlink API" 500,
                  st, w1)
            else
              match process_telemetry_data telemetry_data with
              | None =>
                  (SyncError "Failed to process telemetry data" 500, st, w1)
              | Some processed_data =>
                  let '(u, r, i) :=
                    foldl count_row (0, 0, 0)%nat
                          (Starlink.processed_data processed_data) in
                  (SyncOk u r i, st, w1)
              end
      end
  end.

(** *** [get_usage_stats] and [get_performance_stats] *)

(** [request.args]: each key is present with a string or missing. *)
Record stats_args := mkStatsArgs {
  arg_device_id : option string;
  arg_organization_id : option string;
  arg_period : option string
}.

Definition str_truthy (s : option string) : bool :=
  match s with
  | Some s => negb (String.eqb s "")
  | None => false
  end.

Inductive stats_response (A : Type) :=
| StatsError (message : string) (status : Z)
| StatsOk (period : string) (start_time end_time : Z) (stats : A).
Arguments StatsError {A} message status.
Arguments StatsOk {A} period start_time end_time stats.

Definition stats_status {A} (r : stats_response A) : Z :=
  match r with
  | StatsError _ status => status
  | StatsOk _ _ _ _ => 200
  end.

(** [timedelta(days=d)] *)
Definition timedelta_days (d : Z) : Z := d * 86400 * 1000000.

(** The trailing window of a period: [None] is the invalid period. *)
Definition start_of_period (period : string) (end_time : Z) : option Z :=
  if String.eqb period "day" then Some (end_time - timedelta_days 1)
  else if String.eqb period "week" then Some (end_time - timedelta_days 7)
  else if String.eqb period "month" then Some (end_time - timedelta_days 30)
  else None.

(** [query.join(Device).filter(Device.organization_id == organization_id)]:
    a row is paired with every device whose primary key its foreign key
    names, and the pairs of other organizations are filtered out. *)
Definition join_device {R} (device_id_of : R → string) (ds : list Device)
           (organization_id : string) (rows : list R) : list R :=
  r ← rows;
  d ← List.filter (λ d, bool_decide (dev_id d = device_id_of r)
                        && bool_decide (dev_organization_id d = organization_id))
                  ds;
  [r].

(** The rows a statistics query aggregates: the two optional filters,
    then [time.between(start_time, end_time)]. *)
Definition scoped_rows {R} (device_id_of : R → string) (time_of : R → Z)
           (ds : list Device) (args : stats_args)
           (start_time end_time : Z) (rows : list R) : list R :=
  let q1 :=
    if str_truthy (arg_device_id args)
    then List.filter (λ r, bool_decide (Some (device_id_of r) = arg_device_id args))
                     rows
    else rows in
  let q2 :=
    if str_truthy (arg_organization_id args)
    then join_device device_id_of ds (default "" (arg_organization_id args)) q1
    else q1 in
  List.filter (λ r, (start_time <=? time_of r) && (time_of r <=? end_time)) q2.

(** SQL [SUM] and [AVG] skip NULL and are NULL over no value. *)
Definition sql_sum {R} (col : R → option Z) (rows : list R) : option Z :=
  match omap col rows with
  | [] => None
  | v :: vs => Some (foldl Z.add v vs)
  end.

Definition sql_avg {R} (col : R → option Q) (rows : list R) : option Q :=
  match omap col rows with
  | [] => None
  | v :: vs => Some (Qdiv (foldl Qplus v vs)
                          (inject_Z (Z.of_nat (length (v :: vs)))))
  end.

Record usage := mkUsage {
  upload_bytes : Z;
  download_bytes : Z;
  total_bytes : Z
}.

(** The figures of the usage answer over the rows of the query:
    [result.total_tx_bytes or 0] and so on. *)
Definition usage_over (rows : list RouterTelemetry) : usage :=
  let total_tx_bytes := default 0 (sql_sum wan_tx_bytes rows) in
  let total_rx_bytes := default 0 (sql_sum wan_rx_bytes rows) in
  {| upload_bytes := total_tx_bytes;
     download_bytes := total_rx_bytes;
     total_bytes := total_tx_bytes + total_rx_bytes |}.

(** [get_usage_stats]; [now] is [datetime.utcnow()].  The gigabyte
    fields of the answer are floats derived from the three byte counts
    and are left out. *)
Definition get_usage_stats (args : stats_args) (now : Z) (st : Stores)
  : stats_response usage :=
  let period := default "day" (arg_period args) in
  if negb (str_truthy (arg_device_id args))
     && negb (str_truthy (arg_organization_id args))
  then StatsError "Either device_id or organization_id is required" 400
  else
    let end_time := now in
    match start_of_period period end_time with
    | None => StatsError "Invalid period. Use day, week, or month" 400
    | Some start_time =>
        StatsOk period start_time end_time
                (usage_over
                   (scoped_rows rt_device_id rt_time (devices st) args
                                start_time end_time (router_telemetry st)))
    end.

Record performance := mkPerformance {
  avg_downlink_throughput : Q;
  avg_uplink_throughput : Q;
  avg_ping_latency : Q;
  avg_ping_drop_rate : Q;
  avg_obstruction_percent : Q;
  avg_signal_quality : Q
}.

(** The figures of the performance answer over the rows of the query:
    [result.avg_... or 0], before [round(_, 2)] and [round(_, 4)], which
    act on floats. *)
Definition performance_over (rows : list UserTerminalTelemetry) : performance :=
  let avg col := default (0 : Q) (sql_avg col rows) in
  {| avg_downlink_throughput := avg downlink_throughput;
     avg_uplink_throughput := avg uplink_throughput;
     avg_ping_latency := avg ping_latency_ms_avg;
     avg_ping_drop_rate := avg ping_drop_rate_avg;
     avg_obstruction_percent := avg obstruction_percent_time;
     avg_signal_quality := avg signal_quality |}.

(** [get_performance_stats] *)
Definition get_performance_stats (args : stats_args) (now : Z) (st : Stores)
  : stats_response performance :=
  let period := default "day" (arg_period args) in
  if negb (str_truthy (arg_device_id args))
     && negb (str_truthy (arg_organization_id args))
  then StatsError "Either device_id or organization_id is required" 400
  else
    let end_time := now in
    match start_of_period period end_time with
    | None => StatsError "Invalid period. Use day, week, or month" 400
    | Some start_time =>
        StatsOk period start_time end_time
                (performance_over
                   (scoped_rows ut_device_id ut_time (devices st) args
                                start_time end_time
                                (user_terminal_telemetry st)))
    end.

(** The rows of the devices of one organization inside a window, each
    one once: what an organization-scoped aggregate is to range over. *)
Definition organization_rows {R} (device_id_of : R → string) (time_of : R → Z)
           (ds : list Device) (organization_id : string)
           (start_time end_time : Z) (rows : list R) : list R :=
  List.filter
    (λ r, existsb (λ d, bool_decide (dev_id d = device_id_of r)
                        && bool_decide (dev_organization_id d = organization_id))
                  ds
          && ((start_time <=? time_of r) && (time_of r <=? end_time)))
    rows.

(** A request that names both a device and an organization is turned
    down by both handlers. *)
Definition rejects_both_scopes : Prop :=
  ∀ args now st,
    str_truthy (arg_device_id args) = true →
    str_truthy (arg_organization_id args) = true →
    stats_status (get_usage_stats args now st) ≠ 200
    ∧ stats_status (get_performance_stats args now st) ≠ 200.

(** Two devices of two organizations with a few samples each. *)
Definition demo_stores : Stores :=
  {| devices := [mkDevice "d1" "o1"; mkDevice "d2" "o1"; mkDevice "d3" "o2"];
     user_terminal_telemetry :=
       [mkUserTerminalTelemetry 1000 "d1" (Some (100 # 1)) (Some (10 # 1))
                                (Some (40 # 1)) (Some (1 # 100)) None
                                (Some (9 # 10));
        mkUserTerminalTelemetry 2000 "d3" (Some (50 # 1)) None
                                (Some (60 # 1)) None None None];
     router_telemetry :=
       [mkRouterTelemetry 1000 "d1" (Some 10) (Some 100);
        mkRouterTelemetry 2000 "d2" (Some 20) None;
        mkRouterTelemetry 3000 "d3" (Some 40) (Some 400)];
     ip_allocations := [] |}.

(** A request scoped both ways, and one scoped to an organization. *)
Definition both_scopes_args : stats_args :=
  {| arg_device_id := Some "d1";
     arg_organization_id := Some "o1";
     arg_period := None |}.

Definition organization_args : stats_args :=
  {| arg_device_id := None;
     arg_organization_id := Some "o1";
     arg_period := Some "week" |}.

(** The rows left by the device filter, when a device is named. *)
Definition device_rows {R} (device_id_of : R → string)
           (device_id : option string) (rows : list R) : list R :=
  if str_truthy device_id
  then List.filter (λ r, bool_decide (Some (device_id_of r) = device_id)) rows
  else rows.

(** A sync request and a world whose upstream serves the example
    batch. *)
Definition sync_request : gmap string value :=
  {[ "account_number" := VStr "ACC-1" ]}.

Definition example_world : World :=
  world_of [Some "tok"]
           [Http 200 (Some (mkPayload (Some example_batch) None))]
           (λ _, 0).

(** *** The view behind its decorators *)

Inductive view_response :=
| Denied (message : string) (status : Z)
| Handled (r : sync_response).

(** [sync_telemetry] as routed: behind
    [permission_required('telemetry', 'create')], for the identity the
    JWT layer hands over. *)
Definition sync_telemetry_view (depth : nat) (identity : option string)
           (db : Auth.Db) (request_json : option (gmap string value))
           (st : Stores) (w : World) : view_response * Stores * World :=
  match Auth.authorize "telemetry" "create" identity db with
  | Auth.Invoke =>
      let '(r, st1, w1) := sync_telemetry depth request_json st w in
      (Handled r, st1, w1)
  | Auth.Reject message status => (Denied message status, st, w)
  end.

(** The sum of a column over rows, a NULL counting for zero. *)
Definition sum_or_zero {R} (col : R → option Z) (rows : list R) : Z :=
  foldr (λ r acc, default 0 (col r) + acc) 0 rows.

(** The same request for another period. *)
Definition with_period (args : stats_args) (period : string) : stats_args :=
  {| arg_device_id := arg_device_id args;
     arg_organization_id := arg_organization_id args;
     arg_period := Some period |}.

(** The byte counters of the router telemetry are not negative. *)
Definition counters_nonnegative (st : Stores) : Prop :=
  ∀ r, r ∈ router_telemetry st →
       0 ≤ default 0 (wan_tx_bytes r) ∧ 0 ≤ default 0 (wan_rx_bytes r).

(** One router sampled ten days, seven days and half a day before the
    tenth day. *)
Definition ten_days_stores : Stores :=
  {| devices := [mkDevice "d1" "o1"];
     user_terminal_telemetry := [];
     router_telemetry :=
       [mkRouterTelemetry 0 "d1" (Some 5) (Some 50);
        mkRouterTelemetry (timedelta_days 3) "d1" (Some 7) None;
        mkRouterTelemetry (timedelta_days 10 - 43200000000) "d1"
                          (Some 1) (Some 10)];
     ip_allocations := [] |}.

(** *** The listing views: [get_user_terminal_telemetry] and
    [get_router_telemetry] of [routes/telemetry.py] *)

(** [request.args] of a listing.  [list_limit] is what
    [request.args.get('limit', 100, type=int)] converts: [None] when
    the key is missing or is no integer, which yields the default. *)
Record list_args := mkListArgs {
  list_device_id : option string;
  list_organization_id : option string;
  list_start_time : option string;
  list_end_time : option string;
  list_limit : option Z
}.

Inductive list_response (R : Type) :=
| ListError (message : string) (status : Z)
| ListOk (rows : list R).
Arguments ListError {R} message status.
Arguments ListOk {R} rows.

(** [order_by(time.desc())]: a row comes before the rows that are not
    younger. *)
Definition newer_first {R} (time_of : R → Z) (r1 r2 : R) : Prop :=
  time_of r2 ≤ time_of r1.

#[export] Instance newer_first_dec {R} (time_of : R → Z) (r1 r2 : R) :
  Decision (newer_first time_of r1 r2).
Proof. unfold newer_first. apply _. Defined.

(** The filters of a listing given the parsed bounds; a bound that is
    not given does not filter. *)
Definition listed_rows {R} (device_id_of : R → string) (time_of : R → Z)
           (ds : list Device) (args : list_args)
           (start_datetime end_datetime : option Z) (rows : list R) : list R :=
  let q1 :=
    if str_truthy (list_device_id args)
    then List.filter (λ r, bool_decide (Some (device_id_of r)
                                        = list_device_id args)) rows
    else rows in
  let q2 :=
    if str_truthy (list_organization_id args)
    then join_device device_id_of ds
                     (default "" (list_organization_id args)) q1
    else q1 in
  let q3 :=
    match start_datetime with
    | Some t => List.filter (λ r, t <=? time_of r) q2
    | None => q2
    end in
  match end_datetime with
  | Some t => List.filter (λ r, time_of r <=? t) q3
  | None => q3
  end.

(** The body shared by the two listing views.  [fromisoformat] is
    [datetime.fromisoformat], [None] for its [ValueError]; [failure] is
    the message of the view's [except Exception] branch, which a
    negative [LIMIT] reaches (the database is PostgreSQL). *)
Definition list_telemetry {R} (device_id_of : R → string) (time_of : R → Z)
           (failure : string) (fromisoformat : string → option Z)
           (args : list_args) (ds : list Device) (rows : list R)
  : list_response R :=
  let limit := Z.min (default 100 (list_limit args)) 1000 in
  let start := if str_truthy (list_start_time args)
               then Some (fromisoformat (default "" (list_start_time args)))
               else None in
  let stop := if str_truthy (list_end_time args)
              then Some (fromisoformat (default "" (list_end_time args)))
              else None in
  match start with
  | Some None =>
      ListError
        "Invalid start_time format. Use ISO format (YYYY-MM-DDTHH:MM:SS)" 400
  | _ =>
      match stop with
      | Some None =>
          ListError
            "Invalid end_time format. Use ISO format (YYYY-MM-DDTHH:MM:SS)" 400
      | _ =>
          if limit <? 0 then ListError failure 500
          else
            ListOk
              (take (Z.to_nat limit)
                    (merge_sort (newer_first time_of)
                       (listed_rows device_id_of time_of ds args
                                    (mjoin start) (mjoin stop) rows)))
      end
  end.

Definition get_user_terminal_telemetry_view
           (fromisoformat : string → option Z) (args : list_args) (st : Stores)
  : list_response UserTerminalTelemetry :=
  list_telemetry ut_device_id ut_time
                 "An error occurred while getting user terminal telemetry"
                 fromisoformat args (devices st) (user_terminal_telemetry st).


(** *** [pagination_response] of [utils/responses.py] *)

Record pagination := mkPagination {
  pg_page : Z;
  pg_per_page : Z;
  pg_total : Z;
  pg_pages : Z
}.

(** The ['pagination'] object of the answer; [None] stands for the
    [ZeroDivisionError] of [per_page = 0].  [//] is floor division. *)
Definition pagination_response (page per_page total : Z) : option pagination :=
  if per_page =? 0 then None
  else Some {| pg_page := page; pg_per_page := per_page; pg_total := total;
               pg_pages := (total + per_page - 1) `div` per_page |}.

End TelemetryRoutes.

(** ** Registration ([routes/auth.py]) *)

Module AuthRoutes.

Record User := mkUser {
  user_id : string;
  email : string;
  password_hash : string;
  first_name : string;
  last_name : string;
  phone : string
}.

(** An object added to [db.session] and not yet committed.  A
    [UserRole] built without [organization_id] holds NULL there. *)
Inductive pending_row :=
| PendingUser (u : User)
| PendingUserRole (user_id role_id : string) (organization_id : option string).

(** The committed tables and the open session. *)
Record Database := mkDatabase {
  users : list User;
  roles : list Auth.Role;
  user_roles : list Auth.UserRole;
  pending : list pending_row
}.

(** [db.session.add(obj)] *)
Definition session_add (obj : pending_row) (db : Database) : Database :=
  {| users := users db; roles := roles db; user_roles := user_roles db;
     pending := pending db ++ [obj] |}.

(** [db.session.rollback()] *)
Definition session_rollback (db : Database) : Database :=
  {| users := users db; roles := roles db; user_roles := user_roles db;
     pending := [] |}.

(** Constraints of [models/user.py] the flush checks: [users.email] is
    unique, and [user_roles.organization_id] is a primary-key column,
    hence NOT NULL. *)
Definition violates (db : Database) (obj : pending_row) : bool :=
  match obj with
  | PendingUser u => existsb (λ v, String.eqb (email v) (email u)) (users db)
  | PendingUserRole _ _ None => true
  | PendingUserRole _ _ (Some _) => false
  end.

(** Writes one flushed object to its table. *)
Definition store_row (db : Database) (obj : pending_row) : Database :=
  match obj with
  | PendingUser u =>
      {| users := users db ++ [u]; roles := roles db;
         user_roles := user_roles db; pending := pending db |}
  | PendingUserRole uid rid org =>
      {| users := users db; roles := roles db;
         user_roles := user_roles db
                       ++ [Auth.mkUserRole uid rid (default "" org)];
         pending := pending db |}
  end.

(** [db.session.commit()]: [false] stands for the raised exception, on
    a storage [fault] or a violated constraint; nothing is written
    then.  On success the pending objects are durable. *)
Definition session_commit (fault : bool) (db : Database) : bool * Database :=
  if fault || existsb (violates db) (pending db) then (false, db)
  else (true,
        session_rollback (foldl store_row db (pending db))).

(** [data] after [register_schema.load(request.json)]; the optional
    keys are read with [data.get(key, '')]. *)
Record registration := mkRegistration {
  reg_email : string;
  reg_password : string;
  reg_first_name : option string;
  reg_last_name : option string;
  reg_phone : option string
}.




(** What the view depends on and the module does not define:
    - [register_schema] is imported from [schemas/user.py], which
      declares no such schema: [schema_load] is the outcome of
      [register_schema.load(request.json)], [None] for
      [ValidationError];
    - [ctor_accepts] tells whether the call
      [User(email=..., password_hash=..., ...)] returns an object; with
      the [User] of [models/user.py] it is
      [binds User_init_parameters register_keywords];
    - [generate_password_hash] of werkzeug and the [uuid4] default of
      the [id] column;
    - [fault_1], [fault_2]: storage faults of the two commits. *)
Record Env := mkEnv {
  schema_load : option registration;
  ctor_accepts : bool;
  generate_password_hash : string → string;
  uuid4 : string;
  fault_1 : bool;
  fault_2 : bool
}.

Inductive register_response :=
| RegisterError (message : string) (status : Z)
| RegisterCreated.

(** The [except Exception] handler. *)
Definition register_failed (db : Database) : register_response * Database :=
  (RegisterError "An error occurred during registration" 500,
   session_rollback db).

(** [register] *)
Definition register (env : Env) (db : Database)
  : register_response * Database :=
  match schema_load env with
  | None => (RegisterError "Validation error" 400, db)
  | Some data =>
      match List.find (λ u, String.eqb (email u) (reg_email data)) (users db) with
      | Some existing_user => (RegisterError "Email already registered" 409, db)
      | None =>
          if negb (ctor_accepts env) then register_failed db
          else
            let new_user :=
              {| user_id := uuid4 env;
                 email := reg_email data;
                 password_hash := generate_password_hash env (reg_password data);
                 first_name := default "" (reg_first_name data);
                 last_name := default "" (reg_last_name data);
                 phone := default "" (reg_phone data) |} in
            let db1 := session_add (PendingUser new_user) db in
            let '(ok1, db2) := session_commit (fault_1 env) db1 in
            if negb ok1 then register_failed db2
            else
              match List.find (λ r, String.eqb (Auth.role_name r) "Client")
                              (roles db2) with
              | Some client_role =>
                  let db3 :=
                    session_add (PendingUserRole (user_id new_user)
                                                 (Auth.role_id client_role) None)
                                db2 in
                  let '(ok2, db4) := session_commit (fault_2 env) db3 in
                  if negb ok2 then register_failed db4
                  else (RegisterCreated, db4)
              | None => (RegisterCreated, db2)
              end
      end
  end.

(** The write is all-or-nothing: an answer other than 201 leaves the
    committed tables as they were. *)
Definition all_or_nothing (env : Env) (db : Database) : Prop :=
  fst (register env db) ≠ RegisterCreated →
  users (snd (register env db)) = users db
  ∧ user_roles (snd (register env db)) = user_roles db.

(** The row [register] builds for a registration. *)
Definition new_user_of (env : Env) (data : registration) : User :=
  {| user_id := uuid4 env;
     email := reg_email data;
     password_hash := generate_password_hash env (reg_password data);
     first_name := default "" (reg_first_name data);
     last_name := default "" (reg_last_name data);
     phone := default "" (reg_phone data) |}.

(** A seeded database without users, and a valid registration met by no
    storage fault. *)
Definition seeded_database : Database :=
  {| users := [];
     roles := [Auth.mkRole "r1" "Super Admin"; Auth.mkRole "r7" "Client"];
     user_roles := [];
     pending := [] |}.

Definition ada_registration : registration :=
  {| reg_email := "ada@example.org";
     reg_password := "correct horse";
     reg_first_name := Some "Ada";
     reg_last_name := None;
     reg_phone := None |}.

Definition quiet_env : Env :=
  {| schema_load := Some ada_registration;
     ctor_accepts := true;
     generate_password_hash := λ p, String.append "hash:" p;
     uuid4 := "u-0001";
     fault_1 := false;
     fault_2 := false |}.


(** *** [login] *)

(** A row of [users] as [login] reads it: the columns of [User], the
    column [is_active] and the relationship [roles], which holds the
    UserRole rows of the user. *)
Record Account := mkAccount {
  account_user : User;
  account_is_active : bool;
  account_roles : list Auth.UserRole
}.

(** What [login] takes from outside: the outcome of
    [login_schema.load(request.json)] ([None] for [ValidationError],
    else e-mail and password), [check_password_hash] of werkzeug, the
    two token makers of flask_jwt_extended and the storage fault of the
    commit.  [check_password_hash] answers [None] when it raises, as
    werkzeug does on a stored hash whose method it does not know (the
    bcrypt hashes that [User.set_password] writes are such). *)
Record LoginEnv := mkLoginEnv {
  login_load : option (string * string);
  check_password_hash : string → string → option bool;
  create_access_token : string → string;
  create_refresh_token : string → string;
  login_fault : bool
}.

Inductive login_response :=
| LoginError (message : string) (status : Z)
| LoginOk (user : User) (role_names : list string)
          (access_token refresh_token : string).

(** [login].  [user.last_login_at] is no column of [User], so the
    commit has nothing of the user to write.  [user.roles] holds
    UserRole objects, which have no [name]: the comprehension
    [[role.name for role in user.roles]] raises on the first of them,
    and the [except Exception] branch answers 500, as it does when
    the password check raises. *)
Definition login (env : LoginEnv) (accounts : list Account) : login_response :=
  match login_load env with
  | None => LoginError "Validation error" 400
  | Some (address, password) =>
      match List.find (λ a, String.eqb (email (account_user a)) address)
                      accounts with
      | None => LoginError "Invalid email or password" 401
      | Some a =>
          let user := account_user a in
          match check_password_hash env (password_hash user) password with
          | None => LoginError "An error occurred during login" 500
          | Some checked =>
              if negb checked
              then LoginError "Invalid email or password" 401
              else if negb (account_is_active a)
              then LoginError "Account is disabled" 403
              else
                let access_token := create_access_token env (user_id user) in
                let refresh_token :=
                  create_refresh_token env (user_id user) in
                if login_fault env
                then LoginError "An error occurred during login" 500
                else
                  match account_roles a with
                  | [] => LoginOk user [] access_token refresh_token
                  | _ :: _ => LoginError "An error occurred during login" 500
                  end
          end
      end
  end.

(** *** [change_password] *)

Inductive plain_response :=
| Answer (message : string) (status : Z).

(** [UPDATE users SET password_hash = ... WHERE id = ...] *)
Definition set_password_hash (id hash : string) (db : Database) : Database :=
  {| users := (λ u, if String.eqb (user_id u) id
                    then {| user_id := user_id u; email := email u;
                            password_hash := hash;
                            first_name := first_name u;
                            last_name := last_name u; phone := phone u |}
                    else u) <$> users db;
     roles := roles db; user_roles := user_roles db; pending := pending db |}.

(** [change_password] for the identity [id] of the token.  [request]
    is [request.json] read with [data.get]: [None] when the body is no
    object, else the values under ['current_password'] and
    ['new_password'].  [check] is [check_password_hash], [None] when it
    raises; [hash] is [generate_password_hash]; [fault] is the storage
    fault of the commit.  [len] is the number of characters. *)
Definition change_password (check : string → option string → option bool)
           (hash : string → string) (fault : bool) (id : string)
           (request : option (option string * option string))
           (db : Database) : plain_response * Database :=
  let failed := (Answer "An error occurred while changing password" 500,
                 session_rollback db) in
  match List.find (λ u, String.eqb (user_id u) id) (users db) with
  | None => (Answer "User not found" 404, db)
  | Some user =>
      match request with
      | None => failed
      | Some (current_password, new_password) =>
          match check (password_hash user) current_password with
          | None => failed
          | Some false => (Answer "Current password is incorrect" 400, db)
          | Some true =>
              match new_password with
              | None =>
                  (Answer "New password must be at least 8 characters long" 400,
                   db)
              | Some new =>
                  if String.eqb new "" || (String.length new <? 8)%nat
                  then (Answer "New password must be at least 8 characters long"
                               400, db)
                  else
                    let '(ok, db1) :=
                      session_commit fault (set_password_hash id (hash new) db) in
                    if ok then (Answer "Password changed successfully" 200, db1)
                    else failed
              end
          end
      end
  end.

(** Two accounts, one of them disabled, and an attempt on the first. *)
Definition demo_accounts : list Account :=
  [mkAccount (mkUser "u-1" "ada@example.org" "hash:correct horse"
                     "Ada" "" "") true [];
   mkAccount (mkUser "u-2" "bob@example.org" "hash:tr0ub4dor" "Bob" "" "")
             false []].


Definition demo_login_env (address password : string) : LoginEnv :=
  {| login_load := Some (address, password);
     check_password_hash :=
       λ h p, if String.prefix "hash:" h
              then Some (String.eqb h (String.append "hash:" p))
              else None;
     create_access_token := λ id, String.append "access:" id;
     create_refresh_token := λ id, String.append "refresh:" id;
     login_fault := false |}.

Definition demo_users_database : Database :=
  {| users := account_user <$> demo_accounts;
     roles := roles seeded_database;
     user_roles := [];
     pending := [] |}.

End AuthRoutes.

(** * Properties *)

(** ** Access control *)

Section AuthFacts.
Import Auth.

Lemma super_admin_loop_fst db urs :
  fst (super_admin_loop db urs)
  = existsb (λ ur, is_super_admin (Role_get db (ur_role_id ur))) urs.
Proof.
  induction urs as [|ur rest IH]; simpl; [done|].
  destruct (is_super_admin _); [done|].
  destruct (super_admin_loop db rest); simpl in *. done.
Qed.

Lemma super_admin_loop_trace db urs q :
  q ∈ snd (super_admin_loop db urs) → is_permission_query q = false.
Proof.
  induction urs as [|ur rest IH]; simpl.
  - intros H. by apply elem_of_nil in H.
  - destruct (is_super_admin _); simpl.
    + intros H. apply list_elem_of_singleton in H. by subst.
    + destruct (super_admin_loop db rest) as [b t]; simpl in *.
      intros [->|H]%elem_of_cons; [done|auto].
Qed.

Lemma grant_loop_fst db pid urs :
  fst (grant_loop db pid urs)
  = existsb (λ ur, bool_decide
                     (is_Some (RolePermission_first db (ur_role_id ur) pid)))
            urs.
Proof.
  induction urs as [|ur rest IH]; simpl; [done|].
  destruct (RolePermission_first db (ur_role_id ur) pid); simpl; [done|].
  destruct (grant_loop db pid rest); simpl in *. done.
Qed.

(** The decision, without the trace. *)
Lemma authorize_unfold res act user_id db :
  authorize res act (Some user_id) db
  = let urs := UserRole_filter_by db user_id in
    if fst (super_admin_loop db urs) then Invoke
    else match Permission_first db res act with
         | None => Reject "Permission not found" 403
         | Some p => if fst (grant_loop db (permission_id p) urs)
                     then Invoke else Reject "Permission denied" 403
         end.
Proof.
  unfold authorize, permission_required. simpl.
  destruct (super_admin_loop db (UserRole_filter_by db user_id)) as [[] t1];
    simpl; [done|].
  destruct (Permission_first db res act) as [p|]; [|done].
  destruct (grant_loop db (permission_id p) _) as [[] t2]; done.
Qed.

Lemma super_admin_loop_true db user_id :
  fst (super_admin_loop db (UserRole_filter_by db user_id)) = true
  ↔ holds_super_admin db user_id.
Proof.
  rewrite super_admin_loop_fst, existsb_exists. unfold holds_super_admin.
  split.
  - intros (ur & Hin & Hsa). exists ur.
    apply list_elem_of_In in Hin.
    apply list_elem_of_filter in Hin as [? ?]. naive_solver.
  - intros (ur & Hin & Hu & Hsa). exists ur. split; [|done].
    apply list_elem_of_In, list_elem_of_filter. done.
Qed.

Lemma RolePermission_first_Some db rid pid :
  is_Some (RolePermission_first db rid pid)
  ↔ ∃ rp, rp ∈ role_permissions db ∧ rp_role_id rp = rid
          ∧ rp_permission_id rp = pid.
Proof.
  unfold RolePermission_first. split.
  - intros [rp Hrp]. apply find_some in Hrp as [Hin Hb].
    apply andb_prop in Hb as [?%bool_decide_eq_true ?%bool_decide_eq_true].
    exists rp. by rewrite list_elem_of_In.
  - intros (rp & Hin & Hr & Hp).
    destruct (List.find _ _) eqn:E; [by eexists|].
    apply list_elem_of_In in Hin.
    pose proof (find_none _ _ E _ Hin) as Hb. simpl in Hb.
    rewrite !bool_decide_eq_true_2 in Hb by done. done.
Qed.

Lemma grant_loop_true db user_id pid :
  fst (grant_loop db pid (UserRole_filter_by db user_id)) = true
  ↔ role_grants db user_id pid.
Proof.
  rewrite grant_loop_fst, existsb_exists. unfold role_grants. split.
  - intros (ur & Hin & Hb). apply bool_decide_eq_true in Hb.
    apply RolePermission_first_Some in Hb as (rp & ? & ? & ?).
    apply list_elem_of_In in Hin.
    apply list_elem_of_filter in Hin as [? ?]. naive_solver.
  - intros (ur & rp & Hin & Hu & Hrp & Hr & Hp). exists ur. split.
    + apply list_elem_of_In, list_elem_of_filter. done.
    + apply bool_decide_eq_true, RolePermission_first_Some. eauto.
Qed.

Lemma Permission_first_None db res act :
  Permission_first db res act = None
  ↔ ∀ p, p ∈ permissions db → ¬ (resource p = res ∧ action p = act).
Proof.
  unfold Permission_first. split.
  - intros E p Hin [Hr Ha]. apply list_elem_of_In in Hin.
    pose proof (find_none _ _ E _ Hin) as Hb. simpl in Hb.
    rewrite !bool_decide_eq_true_2 in Hb by done. done.
  - intros H. destruct (List.find _ _) as [p|] eqn:E; [|done].
    apply find_some in E as [Hin Hb].
    apply andb_prop in Hb as [?%bool_decide_eq_true ?%bool_decide_eq_true].
    exfalso. apply (H p); [by apply list_elem_of_In|done].
Qed.

Lemma Permission_first_unique db p :
  uq_resource_action db → p ∈ permissions db →
  Permission_first db (resource p) (action p) = Some p.
Proof.
  intros Huq Hin. unfold Permission_first.
  destruct (List.find _ _) as [q|] eqn:E.
  - apply find_some in E as [Hq Hb].
    apply andb_prop in Hb as [?%bool_decide_eq_true ?%bool_decide_eq_true].
    f_equal. apply Huq; [by apply list_elem_of_In|done..].
  - apply list_elem_of_In in Hin.
    pose proof (find_none _ _ E _ Hin) as Hb. simpl in Hb.
    rewrite !bool_decide_eq_true_2 in Hb by done. done.
Qed.

End AuthFacts.

Section AuthClaims.
Import Auth.

(** C1. A user holding a UserRole whose role is named "Super Admin" is
    let through for every (resource, action), whatever the Permission
    catalog holds (also when it has no matching row), and the decorator
    sends no query to the Permission or RolePermission tables on the
    way. *)
Theorem super_admin_bypass res act user_id db :
  holds_super_admin db user_id →
  authorize res act (Some user_id) db = Invoke
  ∧ ∀ q, q ∈ snd (permission_required res act (Some user_id) db) →
         is_permission_query q = false.
Proof.
  intros Hsa%super_admin_loop_true. split.
  - rewrite authorize_unfold. simpl. by rewrite Hsa.
  - unfold permission_required.
    pose proof (super_admin_loop_trace db (UserRole_filter_by db user_id)) as Ht.
    destruct (super_admin_loop db (UserRole_filter_by db user_id)) as [b t1].
    simpl in *. subst b. simpl.
    intros q [->|Hq]%elem_of_cons; [done|auto].
Qed.

Lemma super_admin_bypass_witness :
  authorize "billing" "purge" (Some "alice") demo_db = Invoke
  ∧ ∀ q, q ∈ snd (permission_required "billing" "purge" (Some "alice") demo_db) →
         is_permission_query q = false.
Proof.
  apply super_admin_bypass.
  exists (mkUserRole "alice" "r1" "orgA").
  split; [apply list_elem_of_In; simpl; auto | split; reflexivity].
Defined.

(** C4. The decision does not depend on the organization column: two
    states with the same Role, Permission and RolePermission rows and the
    same set of (user, role) pairs in UserRole give the same answer to
    every request. *)
Theorem authorize_organization_independent res act identity db1 db2 :
  roles db1 = roles db2 →
  permissions db1 = permissions db2 →
  role_permissions db1 = role_permissions db2 →
  same_user_role_pairs db1 db2 →
  authorize res act identity db1 = authorize res act identity db2.
Proof.
  intros Hr Hp Hrp Hur. destruct identity as [user_id|]; [|done].
  assert (Hsa : holds_super_admin db1 user_id ↔ holds_super_admin db2 user_id).
  { unfold holds_super_admin, Role_get. rewrite Hr. split.
    - intros (ur & Hin & Hu & Hs).
      destruct (proj1 (Hur user_id (ur_role_id ur))) as (ur' & ? & ? & Hid);
        [eauto|]. exists ur'. by rewrite Hid.
    - intros (ur & Hin & Hu & Hs).
      destruct (proj2 (Hur user_id (ur_role_id ur))) as (ur' & ? & ? & Hid);
        [eauto|]. exists ur'. by rewrite Hid. }
  assert (Hg : ∀ pid, role_grants db1 user_id pid ↔ role_grants db2 user_id pid).
  { intros pid. unfold role_grants. rewrite Hrp. split.
    - intros (ur & rp & Hin & Hu & Hin' & Hrid & Hpid).
      destruct (proj1 (Hur user_id (ur_role_id ur))) as (ur' & ? & ? & Hid);
        [eauto|]. exists ur', rp. by rewrite Hid.
    - intros (ur & rp & Hin & Hu & Hin' & Hrid & Hpid).
      destruct (proj2 (Hur user_id (ur_role_id ur))) as (ur' & ? & ? & Hid);
        [eauto|]. exists ur', rp. by rewrite Hid. }
  rewrite !authorize_unfold. simpl.
  assert (E1 : fst (super_admin_loop db1 (UserRole_filter_by db1 user_id))
               = fst (super_admin_loop db2 (UserRole_filter_by db2 user_id))).
  { apply Bool.eq_iff_eq_true. by rewrite !super_admin_loop_true. }
  rewrite E1. unfold Permission_first. rewrite Hp.
  destruct (fst (super_admin_loop db2 _)); [done|].
  destruct (List.find _ (permissions db2)) as [p|]; [|done].
  assert (E2 : fst (grant_loop db1 (permission_id p) (UserRole_filter_by db1 user_id))
               = fst (grant_loop db2 (permission_id p) (UserRole_filter_by db2 user_id))).
  { apply Bool.eq_iff_eq_true. by rewrite !grant_loop_true. }
  by rewrite E2.
Qed.

Lemma demo_same_user_role_pairs : same_user_role_pairs demo_db demo_db_moved.
Proof.
  intros u r. split; intros (ur & Hin & Hu & Hr);
    apply list_elem_of_In in Hin; simpl in Hin;
    repeat (destruct Hin as [<-|Hin]); try done; simpl in *; subst;
    first
      [ exists (mkUserRole "alice" "r1" "orgA");
        split; [apply list_elem_of_In; simpl; tauto | done]
      | exists (mkUserRole "bob" "r2" "orgA");
        split; [apply list_elem_of_In; simpl; tauto | done]
      | exists (mkUserRole "carol" "r3" "orgB");
        split; [apply list_elem_of_In; simpl; tauto | done]
      | exists (mkUserRole "alice" "r1" "orgC");
        split; [apply list_elem_of_In; simpl; tauto | done]
      | exists (mkUserRole "bob" "r2" "orgB");
        split; [apply list_elem_of_In; simpl; tauto | done]
      | exists (mkUserRole "carol" "r3" "orgA");
        split; [apply list_elem_of_In; simpl; tauto | done] ].
Qed.

Lemma authorize_organization_independent_witness :
  authorize "device" "read" (Some "bob") demo_db
  = authorize "device" "read" (Some "bob") demo_db_moved.
Proof.
  apply authorize_organization_independent;
    [reflexivity | reflexivity | reflexivity | apply demo_same_user_role_pairs].
Defined.

(** C5. For a user without a Super Admin role, a (resource, action)
    pair that has no row in the Permission catalog is denied with
    status 403 and the message of the configuration error, "Permission
    not found", which is not the message of the ordinary denial. *)
Theorem permission_not_found_denied res act user_id db :
  ¬ holds_super_admin db user_id →
  (∀ p, p ∈ permissions db → ¬ (resource p = res ∧ action p = act)) →
  authorize res act (Some user_id) db = Reject "Permission not found" 403
  ∧ authorize res act (Some user_id) db ≠ Reject "Permission denied" 403.
Proof.
  intros Hsa Hnone. rewrite authorize_unfold. simpl.
  destruct (fst (super_admin_loop db _)) eqn:E.
  - by apply super_admin_loop_true in E.
  - apply Permission_first_None in Hnone. rewrite Hnone. done.
Qed.

Lemma demo_carol_not_super_admin : ¬ holds_super_admin demo_db "carol".
Proof. intros H%super_admin_loop_true. vm_compute in H. done. Qed.

Lemma permission_not_found_denied_witness :
  authorize "ticket" "close" (Some "carol") demo_db
  = Reject "Permission not found" 403
  ∧ authorize "ticket" "close" (Some "carol") demo_db
    ≠ Reject "Permission denied" 403.
Proof.
  apply permission_not_found_denied.
  - apply demo_carol_not_super_admin.
  - apply Permission_first_None. reflexivity.
Defined.

(** C6. For a user without a Super Admin role and a registered
    Permission [p]: when some role of the user is linked to [p] by a
    RolePermission row the handler is invoked; when none is, the answer
    is the ordinary denial, 403 "Permission denied". *)
Theorem permission_decided_by_role_edges user_id db p :
  ¬ holds_super_admin db user_id →
  uq_resource_action db →
  p ∈ permissions db →
  (role_grants db user_id (permission_id p) →
   authorize (resource p) (action p) (Some user_id) db = Invoke)
  ∧ (¬ role_grants db user_id (permission_id p) →
     authorize (resource p) (action p) (Some user_id) db
     = Reject "Permission denied" 403).
Proof.
  intros Hsa Huq Hin. rewrite authorize_unfold. simpl.
  destruct (fst (super_admin_loop db _)) eqn:E.
  { by apply super_admin_loop_true in E. }
  rewrite (Permission_first_unique db p Huq Hin).
  destruct (fst (grant_loop db (permission_id p) _)) eqn:G.
  - apply grant_loop_true in G. split; [done|]. by intros [].
  - split; [|done]. intros Hg%grant_loop_true. congruence.
Qed.

Lemma demo_uq_resource_action : uq_resource_action demo_db.
Proof.
  intros p q Hp Hq. apply list_elem_of_In in Hp, Hq. simpl in Hp, Hq.
  repeat (destruct Hp as [<-|Hp]); try done;
    repeat (destruct Hq as [<-|Hq]); try done.
Qed.

Lemma demo_bob_not_super_admin : ¬ holds_super_admin demo_db "bob".
Proof. intros H%super_admin_loop_true. vm_compute in H. done. Qed.

Lemma permission_decided_by_role_edges_witness :
  authorize "device" "read" (Some "bob") demo_db = Invoke
  ∧ authorize "device" "read" (Some "carol") demo_db
    = Reject "Permission denied" 403.
Proof.
  split.
  - apply (permission_decided_by_role_edges
             "bob" demo_db (mkPermission "p1" "device:read" "device" "read")).
    + apply demo_bob_not_super_admin.
    + apply demo_uq_resource_action.
    + apply list_elem_of_In. simpl. auto.
    + apply grant_loop_true. reflexivity.
  - apply (permission_decided_by_role_edges
             "carol" demo_db (mkPermission "p1" "device:read" "device" "read")).
    + apply demo_carol_not_super_admin.
    + apply demo_uq_resource_action.
    + apply list_elem_of_In. simpl. auto.
    + intros H%grant_loop_true. vm_compute in H. done.
Defined.

End AuthClaims.

(** ** The token cache and the retry on 401 *)

Section ClientFacts.
Import Starlink.

Lemma token_truthy_Some tok : tok ≠ "" → token_truthy (Some tok) = true.
Proof. intros H. simpl. by apply negb_true_iff, String.eqb_neq. Qed.

(** A stale or missing token is exchanged, once. *)
Lemma ensure_token_refresh self w :
  token_truthy (access_token self) = false
  ∨ token_expiry self ≤ clock w (time_reads w) →
  _ensure_token self w
  = let t := clock w (time_reads w) in
    let '(tok, w2) := get_starlink_access_token (snd (time_time w)) in
    if token_truthy tok
    then (true, {| access_token := tok; token_expiry := t + 14 * 60 |}, w2)
    else (false, {| access_token := tok; token_expiry := token_expiry self |}, w2).
Proof.
  intros H. unfold _ensure_token. simpl.
  replace (negb (token_truthy (access_token self))
           || (token_expiry self <=? clock w (time_reads w))) with true; [done|].
  symmetry. apply orb_true_iff. destruct H as [->|H]; [by left|right]. lia.
Qed.

(** A live token is kept: no call goes out. *)
Lemma ensure_token_cached self w :
  token_truthy (access_token self) = true →
  clock w (time_reads w) < token_expiry self →
  _ensure_token self w = (true, self, snd (time_time w)).
Proof.
  intros Ht Hlt. unfold _ensure_token. simpl. rewrite Ht. simpl.
  replace (token_expiry self <=? clock w (time_reads w)) with false; [done|].
  symmetry. lia.
Qed.

Lemma ensure_token_log self w :
  log w `prefix_of` log (snd (_ensure_token self w)).
Proof.
  unfold _ensure_token. simpl.
  destruct (negb _ || _); simpl; [|done].
  destruct (token_truthy _); simpl; by apply prefix_app_r.
Qed.

(** The log only grows during a fetch. *)
Lemma get_telemetry_log depth self w account_number batch_size max_linger_ms :
  log w `prefix_of`
  log (snd (get_telemetry depth self w account_number batch_size max_linger_ms)).
Proof.
  revert self w. induction depth as [|depth IH]; intros self w; simpl; [done|].
  pose proof (ensure_token_log self w) as H1.
  destruct (_ensure_token self w) as [[ok self1] w1]. simpl in H1.
  destruct ok; simpl; [|done].
  assert (H2 : log w `prefix_of` log w1 ++ [TelemetryPost (access_token self1)
                          account_number batch_size max_linger_ms])
    by by apply prefix_app_r.
  destruct (default TransportError (head (telemetry_answers w1)))
    as [|status body]; simpl; [done|].
  destruct (status =? 401).
  - etrans; [exact H2|]. apply IH.
  - destruct (raises_for_status status); done.
Qed.

(** What a fetch does once the token check has passed with [self1]
    in world [w1]. *)
Lemma get_telemetry_step depth self w account_number batch_size max_linger_ms
      self1 w1 :
  _ensure_token self w = (true, self1, w1) →
  get_telemetry (S depth) self w account_number batch_size max_linger_ms
  = let '(response, w2) :=
      post_telemetry (access_token self1) account_number
                     batch_size max_linger_ms w1 in
    match response with
    | TransportError => (None, self1, w2)
    | Http status body =>
        if status =? 401 then
          get_telemetry depth {| access_token := None; token_expiry := 0 |}
                        w2 account_number batch_size max_linger_ms
        else if raises_for_status status then (None, self1, w2)
        else (body, self1, w2)
    end.
Proof. intros E. simpl. rewrite E. done. Qed.

Lemma get_telemetry_no_token depth self w account_number batch_size
      max_linger_ms self1 w1 :
  _ensure_token self w = (false, self1, w1) →
  get_telemetry (S depth) self w account_number batch_size max_linger_ms
  = (None, self1, w1).
Proof. intros E. simpl. rewrite E. done. Qed.

Lemma token_exchanges_app l1 l2 :
  token_exchanges (l1 ++ l2) = (token_exchanges l1 + token_exchanges l2)%nat.
Proof. unfold token_exchanges. by rewrite List.filter_app, length_app. Qed.

Lemma telemetry_posts_app l1 l2 :
  telemetry_posts (l1 ++ l2) = (telemetry_posts l1 + telemetry_posts l2)%nat.
Proof. unfold telemetry_posts. by rewrite List.filter_app, length_app. Qed.

(** Against an upstream that answers 401 [n] times and then 200, a
    fetch that starts without a token goes on until the 200. *)
Lemma get_telemetry_rejected n tok body :
  tok ≠ "" →
  ∀ depth self w account bs ml,
    (n < depth)%nat →
    token_truthy (access_token self) = false →
    token_answers w = replicate (S n) (Some tok) →
    telemetry_answers w = replicate n (Http 401 None) ++ [Http 200 body] →
    let fetch := get_telemetry depth self w account bs ml in
    fst (fst fetch) = body
    ∧ telemetry_posts (log (snd fetch)) = (telemetry_posts (log w) + S n)%nat
    ∧ token_exchanges (log (snd fetch)) = (token_exchanges (log w) + S n)%nat.
Proof.
  intros Hne. induction n as [|n IH];
    intros depth self w account bs ml Hd Hself Htoks Hans fetch;
    (destruct depth as [|depth]; [lia|]);
    pose proof (ensure_token_refresh self w (or_introl Hself)) as E;
    unfold get_starlink_access_token in E; simpl in E;
    rewrite Htoks in E; simpl in E;
    rewrite (proj2 (String.eqb_neq tok "") Hne) in E; simpl in E;
    assert (Hs : fetch = get_telemetry (S depth) self w account bs ml) by done;
    clearbody fetch;
    rewrite (get_telemetry_step depth self w account bs ml _ _ E) in Hs;
    simpl in Hs; rewrite Hans in Hs; simpl in Hs.
  - rewrite Hs. simpl.
    rewrite telemetry_posts_app, token_exchanges_app.
    rewrite telemetry_posts_app, token_exchanges_app. simpl.
    split; [done|]. split; unfold telemetry_posts, token_exchanges; simpl; lia.
  - rewrite Hs.
    match goal with
    | |- context [get_telemetry depth ?s ?w' account bs ml] =>
        destruct (IH depth s w' account bs ml) as (H1 & H2 & H3);
          [lia | done | done | done |]
    end.
    split; [exact H1|]. rewrite H2, H3. simpl.
    rewrite !telemetry_posts_app, !token_exchanges_app.
    unfold telemetry_posts, token_exchanges; simpl. lia.
Qed.

(** Two fetches on one client, 839 seconds apart and 840 seconds
    apart. *)
Example two_fetches_within_14_minutes :
  let w := world_of [Some "tok-1"; Some "tok-2"]
                    [Http 200 None; Http 200 None]
                    (λ n, match n with O => 1000 | _ => 1000 + 839 end) in
  let '(_, self1, w1) := get_telemetry 10 StarlinkAPI_init w (VStr "A") 1000 15000 in
  log (snd (get_telemetry 10 self1 w1 (VStr "A") 1000 15000))
  = [TokenExchange;
     TelemetryPost (Some "tok-1") (VStr "A") 1000 15000;
     TelemetryPost (Some "tok-1") (VStr "A") 1000 15000].
Proof. vm_compute. reflexivity. Qed.

Example two_fetches_14_minutes_apart :
  let w := world_of [Some "tok-1"; Some "tok-2"]
                    [Http 200 None; Http 200 None]
                    (λ n, match n with O => 1000 | _ => 1000 + 840 end) in
  let '(_, self1, w1) := get_telemetry 10 StarlinkAPI_init w (VStr "A") 1000 15000 in
  log (snd (get_telemetry 10 self1 w1 (VStr "A") 1000 15000))
  = [TokenExchange;
     TelemetryPost (Some "tok-1") (VStr "A") 1000 15000;
     TokenExchange;
     TelemetryPost (Some "tok-2") (VStr "A") 1000 15000].
Proof. vm_compute. reflexivity. Qed.

(** One 401 and then a 200; two 401s and then a 200; nothing but
    401s, down to the last frame. *)
Example one_rejection_log :
  log (snd (get_telemetry 1000 StarlinkAPI_init
                          (rejecting_world 1 "tok" None (λ _, 0))
                          (VStr "A") 1000 15000))
  = [TokenExchange; TelemetryPost (Some "tok") (VStr "A") 1000 15000;
     TokenExchange; TelemetryPost (Some "tok") (VStr "A") 1000 15000].
Proof. vm_compute. reflexivity. Qed.

Example two_rejections_log :
  log (snd (get_telemetry 1000 StarlinkAPI_init
                          (rejecting_world 2 "tok" None (λ _, 0))
                          (VStr "A") 1000 15000))
  = [TokenExchange; TelemetryPost (Some "tok") (VStr "A") 1000 15000;
     TokenExchange; TelemetryPost (Some "tok") (VStr "A") 1000 15000;
     TokenExchange; TelemetryPost (Some "tok") (VStr "A") 1000 15000].
Proof. vm_compute. reflexivity. Qed.

Example rejected_to_the_last_frame :
  let fetch := get_telemetry 5 StarlinkAPI_init
                 (world_of (replicate 9 (Some "tok"))
                           (replicate 9 (Http 401 None)) (λ _, 0))
                 (VStr "A") 1000 15000 in
  fst (fst fetch) = None ∧ telemetry_posts (log (snd fetch)) = 5%nat.
Proof. vm_compute. split; reflexivity. Qed.

End ClientFacts.

Section ClientClaims.
Import Starlink.

(** C7. The token cache.  When [_ensure_token] acquires a token at a
    clock reading [t], the client holds it with expiry [t + 14 * 60]
    seconds and one token exchange has gone out.  From that state, a
    fetch at a reading before the expiry sends its telemetry request
    with the cached token and no token exchange before it (and none at
    all, the state unchanged, unless the answer is a 401); a fetch at or
    after the expiry performs one token exchange, and the telemetry
    request follows it with the new token. *)
Theorem token_cache_state_machine self w tok :
  let t := clock w (time_reads w) in
  token_truthy (access_token self) = false ∨ token_expiry self ≤ t →
  head (token_answers w) = Some (Some tok) →
  tok ≠ "" →
  ∃ self1 w1,
    _ensure_token self w = (true, self1, w1)
    ∧ access_token self1 = Some tok
    ∧ token_expiry self1 = t + 14 * 60
    ∧ log w1 = log w ++ [TokenExchange]
    ∧ ∀ w' depth account bs ml,
        let t' := clock w' (time_reads w') in
        let fetch := get_telemetry (S depth) self1 w' account bs ml in
        (t' < t + 14 * 60 →
         _ensure_token self1 w' = (true, self1, snd (time_time w'))
         ∧ log w' ++ [TelemetryPost (Some tok) account bs ml]
           `prefix_of` log (snd fetch)
         ∧ ((∀ body, head (telemetry_answers w') ≠ Some (Http 401 body)) →
            log (snd fetch) = log w' ++ [TelemetryPost (Some tok) account bs ml]
            ∧ snd (fst fetch) = self1))
        ∧ (t + 14 * 60 ≤ t' →
           log (snd (_ensure_token self1 w')) = log w' ++ [TokenExchange]
           ∧ (∀ tok', head (token_answers w') = Some (Some tok') → tok' ≠ "" →
              log w' ++ [TokenExchange; TelemetryPost (Some tok') account bs ml]
              `prefix_of` log (snd fetch))
           ∧ (token_truthy (mjoin (head (token_answers w'))) = false →
              fst (fst fetch) = None
              ∧ log (snd fetch) = log w' ++ [TokenExchange])).
Proof.
  intros t Hstale Htok Hne.
  pose proof (ensure_token_refresh self w Hstale) as E.
  unfold get_starlink_access_token in E. simpl in E.
  rewrite Htok in E. simpl in E.
  rewrite (proj2 (String.eqb_neq tok "") Hne) in E. simpl in E.
  eexists _, _. split; [exact E|].
  split; [done|]. split; [done|]. split; [done|].
  intros w' depth account bs ml t' fetch.
  set (self1 := {| access_token := Some tok; token_expiry := _ |}) in *.
  assert (Hs : fetch = get_telemetry (S depth) self1 w' account bs ml) by done.
  clearbody fetch.
  split.
  - intros Hlt.
    assert (Ec : _ensure_token self1 w' = (true, self1, snd (time_time w'))).
    { apply ensure_token_cached; [by apply token_truthy_Some | done]. }
    split; [done|].
    rewrite (get_telemetry_step depth self1 w' account bs ml _ _ Ec) in Hs.
    simpl in Hs.
    destruct (default TransportError (head (telemetry_answers w')))
      as [|status body] eqn:Ea.
    + rewrite Hs. simpl. split; [done|]. done.
    + destruct (status =? 401) eqn:E401.
      * split.
        -- rewrite Hs. etrans; [|apply get_telemetry_log]. done.
        -- intros Hno. exfalso. apply Z.eqb_eq in E401. subst status.
           destruct (head (telemetry_answers w')) as [a|] eqn:Eh;
             simpl in Ea; [|done]. subst a. by eapply Hno.
      * rewrite Hs. destruct (raises_for_status status); simpl; done.
  - intros Hge.
    pose proof (ensure_token_refresh self1 w') as E'.
    unfold get_starlink_access_token in E'. simpl in E'.
    specialize (E' (or_intror Hge)).
    split; [rewrite E'; destruct (token_truthy (mjoin _)); reflexivity|].
    split.
    + intros tok' Htok' Hne'. rewrite Htok' in E'. simpl in E'.
      rewrite (proj2 (String.eqb_neq tok' "") Hne') in E'. simpl in E'.
      rewrite (get_telemetry_step depth self1 w' account bs ml _ _ E') in Hs.
      simpl in Hs. rewrite <- (assoc_L (++)) in Hs. simpl in Hs. rewrite Hs.
      destruct (default TransportError (head (telemetry_answers w')))
        as [|status body]; [done|].
      destruct (status =? 401).
      * etrans; [|apply get_telemetry_log]. done.
      * destruct (raises_for_status status); done.
    + intros Hf. rewrite Hf in E'.
      rewrite (get_telemetry_no_token depth self1 w' account bs ml _ _ E') in Hs.
      by rewrite Hs.
Qed.

Lemma token_cache_state_machine_witness :
  ∃ self1 w1,
    _ensure_token StarlinkAPI_init
                  (world_of [Some "tok-1"] [] (λ _, 1000)) = (true, self1, w1)
    ∧ access_token self1 = Some "tok-1"
    ∧ token_expiry self1 = 1000 + 14 * 60
    ∧ log w1 = [TokenExchange].
Proof.
  destruct (token_cache_state_machine
              StarlinkAPI_init (world_of [Some "tok-1"] [] (λ _, 1000)) "tok-1")
    as (self1 & w1 & H1 & H2 & H3 & H4 & _);
    [left; reflexivity | reflexivity | discriminate |].
  exists self1, w1. repeat split; assumption.
Defined.

(** C2, as the code has it.  [get_telemetry] clears the token and calls
    itself on every 401: against an upstream that rejects the token [n]
    times and then answers 200, a fetch of depth above [n] returns the
    body of the 200 after [n + 1] telemetry requests and [n + 1] token
    exchanges.  For [n = 2] that is a third attempt after two
    consecutive 401s, where the specification ends the call in error
    after the second. *)
Theorem get_telemetry_retries_every_401 n depth tok body clock account bs ml :
  tok ≠ "" →
  (n < depth)%nat →
  let fetch := get_telemetry depth StarlinkAPI_init
                             (rejecting_world n tok body clock) account bs ml in
  fst (fst fetch) = body
  ∧ telemetry_posts (log (snd fetch)) = S n
  ∧ token_exchanges (log (snd fetch)) = S n.
Proof.
  intros Hne Hd.
  apply (get_telemetry_rejected n tok body Hne depth StarlinkAPI_init
           (rejecting_world n tok body clock) account bs ml Hd);
    reflexivity.
Qed.

Lemma get_telemetry_retries_every_401_witness :
  let fetch := get_telemetry 1000 StarlinkAPI_init
                 (rejecting_world 2 "tok" (Some (mkPayload None (Some ∅)))
                                  (λ _, 0))
                 (VStr "ACC-1") 1000 15000 in
  fst (fst fetch) = Some (mkPayload None (Some ∅))
  ∧ telemetry_posts (log (snd fetch)) = 3%nat
  ∧ token_exchanges (log (snd fetch)) = 3%nat.
Proof.
  apply (get_telemetry_retries_every_401 2 1000 "tok"); [discriminate | lia].
Defined.

End ClientClaims.

(** ** Decoding *)

Section DecodeFacts.
Import Starlink.

Example decode_example_batch :
  decode (Some (mkPayload (Some example_batch) None))
  = {| userTerminalRows :=
         [ {[ "DeviceType" := VStr "u"; "X" := VNum 1; "Y" := VNum 2 ]} ];
       routerRows := [];
       ipAllocationRows := [] |}.
Proof. vm_compute. reflexivity. Qed.

Example decode_swapped_batch :
  decode (Some (mkPayload (Some swapped_batch) None))
  = {| userTerminalRows := [];
       routerRows := [ {[ "Id" := VStr "u"; "DeviceType" := VStr "r" ]} ];
       ipAllocationRows := [] |}.
Proof. vm_compute. reflexivity. Qed.

Example decode_spec_swapped_batch :
  decode_spec swapped_batch
  = {| userTerminalRows := [ {[ "Id" := VStr "u"; "DeviceType" := VStr "r" ]} ];
       routerRows := [];
       ipAllocationRows := [] |}.
Proof. vm_compute. reflexivity. Qed.

Lemma filter_omap {A B} (f : B → bool) (g : A → option B) (l : list A) :
  List.filter f (omap g l)
  = omap (λ x, match g x with
               | Some y => if f y then Some y else None
               | None => None
               end) l.
Proof.
  induction l as [|x l IH]; simpl; [done|].
  destruct (g x) as [y|]; simpl; [|exact IH].
  destruct (f y); [f_equal|]; exact IH.
Qed.

Lemma omap_ext_in {A B} (f g : A → option B) (l : list A) :
  (∀ x, x ∈ l → f x = g x) → omap f l = omap g l.
Proof.
  induction l as [|x l IH]; intros H; simpl; [done|].
  rewrite (H x) by left.
  destruct (g x); [f_equal|]; apply IH; intros y Hy; apply H; by right.
Qed.

(** Without a repeated column the loop builds the positional pairing. *)
Lemma fill_row_dict_zip (column_names : list string) :
  ∀ (row : list value) (row_dict : record),
    NoDup column_names →
    fill_row_dict row_dict column_names row
    = list_to_map (zip column_names row) ∪ row_dict.
Proof.
  induction column_names as [|c cs IH]; intros row row_dict Hnd; simpl.
  - by rewrite (left_id_L ∅ (∪)).
  - destruct row as [|v row]; simpl.
    + by rewrite (left_id_L ∅ (∪)).
    + apply NoDup_cons in Hnd as [Hc Hnd]. rewrite IH by done.
      rewrite <- insert_union_l. symmetry. apply insert_union_r.
      apply not_elem_of_list_to_map_1. intros Hin. apply Hc.
      apply list_elem_of_fmap in Hin as ([c' v'] & -> & Hin).
      by apply elem_of_zip_l in Hin.
Qed.

(** With a repeated column the later cell stays. *)
Lemma fill_row_dict_lookup_notin (column_names : list string) c :
  ∀ (row : list value) (row_dict : record),
    c ∉ column_names →
    fill_row_dict row_dict column_names row !! c = row_dict !! c.
Proof.
  induction column_names as [|c' cs IH]; intros row row_dict Hc; simpl; [done|].
  destruct row as [|v row]; [done|].
  apply not_elem_of_cons in Hc as [Hne Hc].
  rewrite IH by done. by apply lookup_insert_ne.
Qed.

(** The fate of one row: it is kept exactly when it has two cells or
    more and its device type has a column list as long as the row. *)
Lemma process_row_Some names row rec :
  process_row names row = Some rec
  ↔ ∃ device_type column_names,
      head row = Some device_type
      ∧ (2 ≤ length row)%nat
      ∧ lookup_column_names names device_type = column_names
      ∧ length column_names = length row
      ∧ rec = fill_row_dict ∅ column_names row.
Proof.
  unfold process_row. destruct row as [|device_type rest]; simpl.
  { split; [done|]. by intros (? & ? & ? & _). }
  destruct (Nat.ltb_spec (S (length rest)) 2) as [Hlt|Hge].
  { split; [done|]. intros (? & ? & _ & ? & _). lia. }
  destruct (lookup_column_names names device_type) as [|c cs] eqn:E.
  { split; [done|]. intros (dt & ? & [= <-] & _ & <- & Hl & _).
    rewrite E in Hl. simpl in Hl. lia. }
  destruct (Nat.eqb_spec (length (c :: cs)) (S (length rest))) as [Heq|Hne];
    simpl.
  - split.
    + intros [= <-]. exists device_type, (c :: cs). by rewrite E.
    + intros (dt & ? & [= <-] & _ & <- & _ & ->). by rewrite E.
  - split; [done|]. intros (dt & ? & [= <-] & _ & <- & Hl & _).
    rewrite E in Hl. done.
Qed.

(** With the device type in the first column and no column named
    twice, a row is filed by its discriminator. *)
Lemma row_by_discriminator (names : gmap string (list string)) tag row :
  (∀ s column_names, names !! s = Some column_names →
     column_names = []
     ∨ (head column_names = Some "DeviceType" ∧ NoDup column_names)) →
  match process_row names row with
  | Some rec => if has_device_type tag rec then Some rec else None
  | None => None
  end = spec_row names tag row.
Proof.
  intros Hok. unfold process_row, spec_row.
  destruct row as [|device_type rest]; [done|].
  destruct (length (device_type :: rest) <? 2)%nat; [done|].
  cbn [head]. destruct device_type as [| |?|s]; try done.
  cbn [lookup_column_names].
  destruct (names !! s) as [column_names|] eqn:E; cbn [from_option id].
  2:{ by destruct (bool_decide (s = tag)). }
  destruct column_names as [|c cs].
  { destruct (bool_decide (s = tag)); [|done].
    destruct (Nat.eqb_spec (length (@nil string)) (length (VStr s :: rest)));
      [done|done]. }
  destruct (Nat.eqb_spec (length (c :: cs)) (length (VStr s :: rest)))
    as [Hlen|Hlen]; cbn [negb].
  2:{ by destruct (bool_decide (s = tag)). }
  destruct (Hok _ _ E) as [|[Hhd Hnd]]; [done|].
  cbn in Hhd. injection Hhd as ->.
  rewrite fill_row_dict_zip by done. rewrite (right_id_L ∅ (∪)).
  unfold has_device_type. cbn [zip zip_with list_to_map foldr curry fst snd].
  set (m := list_to_map (zip cs rest)).
  change (list_to_map (zip_with pair cs rest)) with m.
  rewrite lookup_insert_eq.
  destruct (decide (s = tag)) as [->|Hne].
  - rewrite !bool_decide_eq_true_2 by done. done.
  - rewrite !bool_decide_eq_false_2; [done|done|congruence].
Qed.

Lemma stream_of_unfold tag td d :
  data td = Some d →
  stream_of tag (Some td)
  = List.filter (has_device_type tag)
                (omap (process_row (default ∅ (columnNamesByDeviceType d)))
                      (default [] (values d))).
Proof.
  intros Hd. unfold stream_of, process_telemetry_data, payload_truthy.
  rewrite Hd. rewrite bool_decide_eq_true_2 by by eexists. done.
Qed.

End DecodeFacts.

Section DecodeClaims.
Import Starlink.

(** The stream of a row is chosen by the cell paired with the column
    named "DeviceType", not by the first cell.  In [swapped_batch] the
    row ["u"; "r"] lands in the router stream. *)
Lemma files_by_discriminator_fails : ¬ files_by_discriminator.
Proof.
  intros H.
  specialize (H (mkPayload (Some swapped_batch) None) swapped_batch eq_refl).
  apply (f_equal userTerminalRows) in H. vm_compute in H. discriminate H.
Qed.

(** Bodies of the wire format with a ['data'] object.  A row with fewer
    than two cells, or whose device type has no column list of the row's
    length, is dropped; every other row becomes the record the loop
    fills.  A stream holds the kept records whose "DeviceType" field is
    its tag.  When every column list starts with "DeviceType" and names
    no column twice, that is filing by discriminator as the
    specification words it.  When every row is dropped the three
    streams are empty. *)
Lemma typed_decode_by_field td d :
  data td = Some d →
  let names := default ∅ (columnNamesByDeviceType d) in
  let rows := default [] (values d) in
  process_telemetry_data (Some td)
  = Some {| processed_data := omap (process_row names) rows;
            processed_metadata := default ∅ (metadata td) |}
  ∧ (∀ row, row ∈ rows →
       (length row < 2)%nat
       ∨ length (lookup_column_names names (default VNull (head row)))
         ≠ length row →
       process_row names row = None)
  ∧ (∀ row, row ∈ rows →
       (2 ≤ length row)%nat →
       length (lookup_column_names names (default VNull (head row)))
       = length row →
       process_row names row
       = Some (fill_row_dict ∅ (lookup_column_names names
                                   (default VNull (head row))) row))
  ∧ (∀ tag rec,
       rec ∈ stream_of tag (Some td)
       ↔ ∃ row, row ∈ rows ∧ process_row names row = Some rec
                ∧ rec !! "DeviceType" = Some (VStr tag))
  ∧ (device_type_first d → decode (Some td) = decode_spec d)
  ∧ ((∀ row, row ∈ rows → process_row names row = None) →
     decode (Some td) = mkStreams [] [] []).
Proof.
  intros Hd names rows.
  split.
  { unfold process_telemetry_data, payload_truthy. rewrite Hd.
    rewrite bool_decide_eq_true_2 by by eexists. done. }
  split.
  { intros row _ Hbad. destruct (process_row names row) as [rec|] eqn:E; [|done].
    apply process_row_Some in E as (dt & cols & Hh & Hl & Hc & Hlen & _).
    rewrite Hh in Hbad. simpl in Hbad. rewrite Hc in Hbad.
    destruct Hbad; [lia|done]. }
  split.
  { intros row _ H2 Hlen. apply process_row_Some.
    destruct row as [|device_type rest]; [simpl in H2; lia|].
    exists device_type, (lookup_column_names names device_type). done. }
  split.
  { intros tag rec. rewrite (stream_of_unfold tag td d Hd).
    fold names rows. rewrite list_elem_of_In, filter_In.
    rewrite <- list_elem_of_In, list_elem_of_omap. unfold has_device_type.
    rewrite bool_decide_eq_true.
    split; [intros [(row & ? & ?) ?] | intros (row & ? & ? & ?)]; eauto. }
  split.
  { intros Hok. unfold decode, decode_spec, spec_stream.
    rewrite !(stream_of_unfold _ td d Hd), !filter_omap.
    f_equal; apply omap_ext_in; intros row _;
      apply row_by_discriminator, Hok. }
  intros Hnone. unfold decode.
  rewrite !(stream_of_unfold _ td d Hd). fold names rows.
  replace (omap (process_row names) rows) with (@nil record); [done|].
  symmetry. clear -Hnone. induction rows as [|row rows' IH]; [done|].
  simpl. rewrite (Hnone row) by left. apply IH. intros r Hr. apply Hnone. by right.
Qed.

Lemma example_batch_device_type_first : device_type_first example_batch.
Proof.
  intros s cols H. simpl in H.
  apply lookup_singleton_Some in H as [_ <-].
  right. split; [done|]. by apply (bool_decide_unpack _).
Qed.

Lemma typed_decode_example_batch :
  decode (Some (mkPayload (Some example_batch) None))
  = decode_spec example_batch.
Proof.
  apply (typed_decode_by_field
           (mkPayload (Some example_batch) None) example_batch eq_refl).
  apply example_batch_device_type_first.
Qed.

End DecodeClaims.

(** ** Decoding an arbitrary body *)

Section WireFacts.
Import Wire.

Lemma length_characters s : length (characters s) = String.length s.
Proof. induction s as [|a s IH]; simpl; [done|]. by rewrite IH. Qed.

Lemma characters_dict_key s c : c ∈ characters s → is_Some (dict_key c).
Proof.
  induction s as [|a s IH]; simpl; [by intros ?%elem_of_nil|].
  intros [->|H]%elem_of_cons; [by eexists|by apply IH].
Qed.

Lemma len_elements j n :
  len j = Some n → ∃ names, elements j = Some names ∧ length names = n.
Proof.
  destruct j; simpl; intros [= <-]; eexists; (split; [done|]).
  - apply length_characters.
  - done.
  - apply length_fmap.
Qed.


(** An index below the length of a row that has a first element is in
    range. *)
Lemma subscript_in_range row n device_type i :
  len row = Some n → subscript row 0 = Some device_type → (i < n)%nat →
  is_Some (subscript row i).
Proof.
  destruct row; simpl; try done.
  - intros [= <-] _ Hi. apply lookup_lt_is_Some. by rewrite length_characters.
  - intros [= <-] _ Hi. by apply lookup_lt_is_Some.
Qed.

Lemma fill_row_dict_returns names :
  ∀ row_dict row i,
    (∀ c, c ∈ names → is_Some (dict_key c)) →
    (∀ j, (j < length names)%nat → is_Some (subscript row (i + j))) →
    ∃ rec, fill_row_dict row_dict names row i = Returned rec.
Proof.
  induction names as [|c names IH]; intros rd row i Hk Hs; simpl; [by eexists|].
  destruct (Hs 0%nat) as [cell Hcell]; [simpl; lia|].
  rewrite Nat.add_0_r in Hcell. rewrite Hcell.
  destruct (Hk c) as [k Hkc]; [by left|]. rewrite Hkc.
  apply IH.
  - intros c' Hc'. apply Hk. by right.
  - intros j Hj. replace (S i + j)%nat with (i + S j)%nat by lia.
    apply Hs. simpl. lia.
Qed.

Lemma fill_row_dict_raises names :
  ∀ row_dict row i c,
    c ∈ names → dict_key c = None →
    fill_row_dict row_dict names row i = Raised.
Proof.
  induction names as [|c' names IH]; intros rd row i c Hin Hc; simpl;
    [by apply elem_of_nil in Hin|].
  apply elem_of_cons in Hin as [<-|Hin].
  - rewrite Hc. by destruct (subscript row i).
  - destruct (subscript row i); [|done]. destruct (dict_key c'); [|done].
    by apply (IH _ _ _ c).
Qed.







Lemma process_row_raises column_names_by_device_type row :
  process_row column_names_by_device_type row = Raised
  ↔ raising_row column_names_by_device_type row.
Proof.
  unfold process_row, raising_row.
  destruct (truthy row); simpl; [|by split; [|intros [? _]]].
  destruct (len row) as [n|] eqn:Hn.
  2:{ split; [intros _; split; [done|by left]|done]. }
  destruct (Nat.ltb_spec n 2) as [Hlt|Hn2].
  { split; [done|]. intros [_ [|(n' & [= <-] & ? & _)]]; [done|lia]. }
  destruct (subscript row 0) as [device_type|] eqn:H0.
  2:{ split; [|done]. intros _. split; [done|]. right. exists n. auto. }
  destruct (dict_get _ device_type _) as [|column_names] eqn:Hg.
  { split; [|done]. intros _. split; [done|]. right. exists n.
    split; [done|]. split; [done|]. right. exists device_type. auto. }
  destruct (truthy column_names) eqn:Ht; simpl.
  2:{ split; [done|].
      intros [_ [?|(n' & ? & _ & [?|(dt & ? & [?|(cns & ? & ? & _)])])]];
        congruence. }
  destruct (len column_names) as [m|] eqn:Hm.
  2:{ split; [|done]. intros _. split; [done|]. right. exists n.
      split; [done|]. split; [done|]. right. exists device_type.
      split; [done|]. right. exists column_names. auto. }
  destruct (Nat.eqb_spec m n) as [->|Hne]; simpl.
  2:{ split; [done|].
      intros [_ [?|(n' & ? & _ & [?|(dt & ? & [?|(cns & ? & _ & [?|[? _]])])])]];
        congruence. }
  destruct (len_elements _ _ Hm) as (names & Hel & Hlen). rewrite Hel. simpl.
  destruct (fill_row_dict ∅ names row 0) as [|rec] eqn:Hf.
  - split; [|done]. intros _. split; [done|]. right. exists n.
    split; [done|]. split; [done|]. right. exists device_type.
    split; [done|]. right. exists column_names. split; [done|].
    split; [done|]. right. split; [done|].
    destruct (decide (Forall (λ c, is_Some (dict_key c)) names)) as [Hall|Hnot].
    + rewrite Forall_forall in Hall.
      destruct (fill_row_dict_returns names ∅ row 0) as [rec Hr];
        [exact Hall| |congruence].
      intros j Hj. simpl.
      apply (subscript_in_range row n device_type); [done..|lia].
    + apply not_Forall_Exists in Hnot; [|apply _].
      apply Exists_exists in Hnot as (c & Hc & Hk).
      exists c. split; [by rewrite Hel|]. by apply eq_None_not_Some.
  - split; [done|].
    intros [_ [?|(n' & ? & _ & [?|(dt & ? & [?|(cns & ? & _ & [?|[_ (c & Hc & Hk)]])])])]];
      try congruence.
    assert (cns = column_names) as -> by congruence.
    rewrite Hel in Hc. simpl in Hc.
    by rewrite (fill_row_dict_raises names ∅ row 0 c Hc Hk) in Hf.
Qed.

Lemma process_rows_raises column_names_by_device_type rows :
  process_rows column_names_by_device_type rows = Raised
  ↔ ∃ row, row ∈ rows ∧ raising_row column_names_by_device_type row.
Proof.
  induction rows as [|row rows IH]; simpl.
  { split; [done|]. by intros (? & ?%elem_of_nil & _). }
  destruct (process_row _ row) as [|k] eqn:Hr.
  - split; [|done]. intros _. exists row. split; [by left|].
    by apply process_row_raises.
  - destruct (process_rows _ rows) as [|recs].
    + split; [|done]. intros _. destruct IH as [IH _].
      destruct (IH eq_refl) as (r & ? & ?). exists r. split; [by right|done].
    + split; [done|]. intros (r & [->|Hin]%elem_of_cons & Hraise).
      * apply process_row_raises in Hraise. congruence.
      * destruct IH as [_ IH]. discriminate IH. eauto.
Qed.

Lemma process_rows_returns column_names_by_device_type rows processed_data :
  process_rows column_names_by_device_type rows = Returned processed_data →
  processed_data = omap (record_of_row column_names_by_device_type) rows.
Proof.
  revert processed_data.
  induction rows as [|row rows IH]; intros recs; [by intros [= <-]|].
  change (omap (record_of_row column_names_by_device_type) (row :: rows))
    with (match record_of_row column_names_by_device_type row with
          | Some rec =>
              rec :: omap (record_of_row column_names_by_device_type) rows
          | None => omap (record_of_row column_names_by_device_type) rows
          end).
  cbn [process_rows]. unfold record_of_row at 1.
  destruct (process_row _ row) as [|k] eqn:Hr; [done|].
  destruct (process_rows _ rows) as [|recs']; [done|].
  intros [= <-]. rewrite <- (IH recs' eq_refl). by destruct k.
Qed.


Lemma is_text_true s j : is_text s j = true ↔ j = JStr s.
Proof.
  destruct j; simpl; try (split; done).
  rewrite String.eqb_eq. split; congruence.
Qed.

Lemma existsb_is_text s elems :
  existsb (is_text s) elems = true ↔ JStr s ∈ elems.
Proof.
  rewrite existsb_exists. split.
  - intros (j & Hin & ->%is_text_true). by apply list_elem_of_In.
  - intros Hin. exists (JStr s). split; [by apply list_elem_of_In|].
    by apply is_text_true.
Qed.

(** [process_telemetry_data] raises on the raising bodies and on no
    other; on the others it returns, and what it returns holds what the
    loop appends, row by row. *)
Lemma process_telemetry_data_cases body :
  (raising_body body ∧ process_telemetry_data body = Raised)
  ∨ (¬ raising_body body
     ∧ ∃ res, process_telemetry_data body = Returned res
              ∧ match res with
                | Some p => processed_data p
                | None => []
                end
                = omap (record_of_row (body_columns body)) (body_rows body)).
Proof.
  unfold process_telemetry_data, raising_body.
  destruct (truthy body) eqn:Ht; simpl.
  2:{ right. split; [by intros [? _]|]. exists None. split; [done|].
      unfold body_rows, body_values, body_columns, body_data.
      destruct body as [| | | | |[|kv items]]; try done. }
  destruct body as [|b|n|s|elems|items]; simpl; try done.
  - left. split; [|done]. split; [done|]. right. left. by eexists.
  - left. split; [|done]. split; [done|]. left. by eexists.
  - destruct (String.index 0 "data" s) as [i|] eqn:Hi.
    + rewrite bool_decide_eq_true_2 by by eexists.
      left. split; [|done]. split; [done|]. do 3 right. left.
      exists s. split; [done|]. rewrite Hi. by eexists.
    + rewrite bool_decide_eq_false_2 by by intros [? ?].
      right. split.
      * intros [_ [[? ?]|[[? ?]|[(? & ? & _)|[(s' & [= <-] & His)|(? & ? & _)]]]]];
          try done.
        rewrite Hi in His. by destruct His.
      * by exists None.
  - destruct (existsb (is_text "data") elems) eqn:He.
    + left. split; [|done]. split; [done|]. do 2 right. left.
      exists elems. split; [done|]. by apply existsb_is_text.
    + right. split.
      * intros [_ [[? ?]|[[? ?]|[(e' & [= <-] & Hin)|[(? & ? & _)|(? & ? & _)]]]]];
          try done.
        apply existsb_is_text in Hin. congruence.
      * by exists None.
  - unfold body_rows, body_values, body_columns, body_data.
    destruct (item items "data") as [data|] eqn:Hd.
    2:{ rewrite bool_decide_eq_false_2 by by intros [? ?].
        right. split.
        - intros [_ [[? ?]|[[? ?]|[(? & ? & _)|[(? & ? & _)|(? & ? & _)]]]]];
            done.
        - by exists None. }
    rewrite bool_decide_eq_true_2 by by eexists.
    destruct data as [| | | | |ditems];
      try (left; split; [|done]; split; [done|]; do 4 right;
           eexists; split; [done|]; left; done).
    destruct (elements (default (JArr []) (item ditems "values")))
      as [rows|] eqn:Hrows; simpl.
    2:{ left. split; [|done]. split; [done|]. do 4 right.
        eexists. split; [done|]. right. by left. }
    destruct (process_rows _ rows) as [|recs] eqn:Hp.
    + left. split; [|done]. split; [done|]. do 4 right.
      eexists. split; [done|]. do 2 right.
      by apply process_rows_raises.
    + right. split.
      * intros [_ [[? ?]|[[? ?]|[(? & ? & _)|[(? & ? & _)|(d & [= <-] & [Hno|[?|Hrow]])]]]]];
          try done.
        -- by apply (Hno ditems).
        -- apply process_rows_raises in Hrow. congruence.
      * eexists. split; [done|]. simpl.
        by apply process_rows_returns.
Qed.


Lemma falsy_body_rows body : truthy body = false → body_rows body = [].
Proof.
  unfold body_rows, body_values, body_data.
  by destruct body as [| | | | |[|kv items]].
Qed.

(** A getter raises on the raising bodies and on no other; on the
    others it returns what it keeps of the rows, in their order. *)
Lemma stream_of_cases tag body :
  (raising_body body ∧ stream_of tag (Some body) = Raised)
  ∨ (¬ raising_body body
     ∧ stream_of tag (Some body)
       = Returned (omap (filed_record (body_columns body) tag)
                        (body_rows body))).
Proof.
  unfold stream_of. destruct (truthy body) eqn:Ht; simpl.
  2:{ right. split; [intros [? _]; congruence|].
      by rewrite (falsy_body_rows body Ht). }
  destruct (process_telemetry_data_cases body)
    as [[Hr ->]|(Hnr & res & -> & Hres)]; [by left|].
  right. split; [done|].
  assert (E : Returned (List.filter (has_device_type tag)
                          match res with
                          | Some p => processed_data p
                          | None => []
                          end)
              = Returned (omap (filed_record (body_columns body) tag)
                               (body_rows body))).
  { rewrite Hres, filter_omap. done. }
  rewrite <- E. by destruct res.
Qed.



End WireFacts.

Section WireClaims.
Import Wire.

Example decode_example_body :
  decode (Some example_body)
  = Returned
      {| userTerminalRows :=
           [ {[ KStr "DeviceType" := JStr "u"; KStr "X" := JNum 1;
                KStr "Y" := JNum 2 ]} ];
         routerRows := [];
         ipAllocationRows := [] |}.
Proof. vm_compute. reflexivity. Qed.







End WireClaims.

Section WireTyped.
Import Wire.

Lemma item_Some (items : list (string * json)) k v :
  NoDup (items.*1) → item items k = Some v ↔ (k, v) ∈ items.
Proof.
  unfold item. induction items as [|[k' v'] items IH]; simpl.
  { intros _. split; [done|by intros ?%elem_of_nil]. }
  intros [Hnotin Hnd]%NoDup_cons.
  destruct (String.eqb_spec k' k) as [->|Hne]; simpl.
  - split.
    + intros [= <-]. by left.
    + intros [[= <-]|Hin]%elem_of_cons; [done|].
      exfalso. apply Hnotin. apply list_elem_of_fmap. by exists (k, v).
  - rewrite (IH Hnd). split; [by right|].
    intros [[= ? ?]|Hin]%elem_of_cons; [congruence|done].
Qed.

Lemma item_map_to_list (m : gmap string json) k :
  item (map_to_list m) k = m !! k.
Proof.
  apply option_eq. intros v.
  rewrite item_Some by apply NoDup_fst_map_to_list.
  apply elem_of_map_to_list.
Qed.

Lemma record_of_insert r c v :
  record_of (<[c := v]> r) = <[KStr c := json_of_value v]> (record_of r).
Proof. unfold record_of. rewrite fmap_insert. apply (kmap_insert KStr). Qed.

Lemma fill_row_dict_typed column_names :
  ∀ row pre row_dict,
    length column_names = length row →
    fill_row_dict (record_of row_dict) (JStr <$> column_names)
                  (json_of_row (pre ++ row)) (length pre)
    = Returned (record_of (Starlink.fill_row_dict row_dict column_names row)).
Proof.
  induction column_names as [|c names IH]; intros [|cell row] pre rd Hlen;
    simpl in *; try done.
  rewrite list_lookup_fmap, lookup_app_r by lia.
  rewrite Nat.sub_diag. simpl. rewrite <- record_of_insert.
  specialize (IH row (pre ++ [cell]) (<[c := cell]> rd)).
  rewrite <- app_assoc, length_app, Nat.add_1_r in IH. simpl in IH.
  apply IH. lia.
Qed.

Lemma dict_get_typed names device_type :
  dict_get (json_of_columns names) (json_of_value device_type) (JArr [])
  = Returned (json_of_names (Starlink.lookup_column_names names device_type)).
Proof.
  unfold dict_get, json_of_columns.
  destruct device_type as [|b|n|s]; simpl; try done.
  rewrite item_map_to_list, lookup_fmap.
  by destruct (names !! s).
Qed.

Lemma process_row_typed names row :
  process_row (json_of_columns names) (json_of_row row)
  = Returned (record_of <$> Starlink.process_row names row).
Proof.
  unfold process_row, Starlink.process_row.
  destruct row as [|device_type rest]; [done|].
  set (row := device_type :: rest).
  assert (Hlen : len (json_of_row row) = Some (length row)).
  { unfold json_of_row. simpl. by rewrite length_fmap. }
  assert (H0 : subscript (json_of_row row) 0 = Some (json_of_value device_type))
    by done.
  replace (truthy (json_of_row row)) with true by done. simpl negb.
  cbv iota. rewrite Hlen, H0.
  destruct (length row <? 2)%nat; [done|].
  rewrite dict_get_typed.
  destruct (Starlink.lookup_column_names names device_type)
    as [|c column_names] eqn:Hc; [done|].
  rewrite <- Hc. set (cols := Starlink.lookup_column_names names device_type).
  assert (Ht : truthy (json_of_names cols) = true)
    by (unfold cols; by rewrite Hc).
  rewrite Ht. simpl negb. cbv iota.
  assert (Hl : len (json_of_names cols) = Some (length cols)).
  { unfold json_of_names. simpl. by rewrite length_fmap. }
  rewrite Hl.
  destruct (Nat.eqb_spec (length cols) (S (length rest))) as [He|]; simpl;
    [|done].
  pose proof (fill_row_dict_typed cols row [] ∅ He) as Hf.
  simpl in Hf. unfold record_of in Hf at 1.
  rewrite fmap_empty, kmap_empty in Hf. rewrite Hf. done.
Qed.

Lemma process_rows_typed names rows :
  process_rows (json_of_columns names) (json_of_row <$> rows)
  = Returned (record_of <$> omap (Starlink.process_row names) rows).
Proof.
  induction rows as [|row rows IH]; [done|].
  change (process_rows (json_of_columns names) (json_of_row <$> row :: rows))
    with (match process_row (json_of_columns names) (json_of_row row) with
          | Raised => Raised
          | Returned kept =>
              match process_rows (json_of_columns names)
                                 (json_of_row <$> rows) with
              | Raised => Raised
              | Returned processed_data =>
                  Returned (match kept with
                            | Some row_dict => row_dict :: processed_data
                            | None => processed_data
                            end)
              end
          end).
  rewrite process_row_typed, IH.
  change (omap (Starlink.process_row names) (row :: rows))
    with (match Starlink.process_row names row with
          | Some r => r :: omap (Starlink.process_row names) rows
          | None => omap (Starlink.process_row names) rows
          end).
  by destruct (Starlink.process_row names row).
Qed.

Lemma has_device_type_typed tag r :
  has_device_type tag (record_of r) = Starlink.has_device_type tag r.
Proof.
  unfold has_device_type, Starlink.has_device_type, record_of.
  rewrite (lookup_kmap KStr), lookup_fmap.
  destruct (r !! "DeviceType") as [[|b|n|s]|]; simpl;
    try done.
  destruct (String.eqb_spec s tag) as [->|Hne].
  - by rewrite bool_decide_eq_true_2.
  - rewrite bool_decide_eq_false_2; [done|congruence].
Qed.

Lemma filter_record_of tag (l : list Starlink.record) :
  List.filter (has_device_type tag) (record_of <$> l)
  = record_of <$> List.filter (Starlink.has_device_type tag) l.
Proof.
  induction l as [|r l IH]; [done|].
  rewrite fmap_cons. cbn [List.filter].
  rewrite has_device_type_typed, IH.
  by destruct (Starlink.has_device_type tag r).
Qed.

(** On a body of the wire format the decoder returns, and returns what
    [Starlink.process_telemetry_data] does. *)
Lemma process_telemetry_data_typed td :
  Starlink.payload_truthy (Some td) = truthy (json_of_payload td)
  ∧ process_telemetry_data (json_of_payload td)
    = Returned
        (match Starlink.process_telemetry_data (Some td) with
         | Some p =>
             Some {| processed_data := record_of <$> Starlink.processed_data p;
                     processed_metadata :=
                       JObj (map_to_list
                               (json_of_value
                                  <$> Starlink.processed_metadata p)) |}
         | None => None
         end).
Proof.
  unfold process_telemetry_data, Starlink.process_telemetry_data,
    Starlink.payload_truthy, json_of_payload.
  destruct td as [[d|] m]; simpl.
  2:{ by destruct m. }
  split; [done|].
  assert (Hm : default (JObj [])
                 (item (("data", json_of_batch d)
                        :: match m with
                           | Some m0 =>
                               [("metadata",
                                 JObj (map_to_list (json_of_value <$> m0)))]
                           | None => []
                           end) "metadata")
               = JObj (map_to_list (json_of_value <$> default ∅ m))).
  { destruct m; simpl; [done|]. by rewrite fmap_empty, map_to_list_empty. }
  rewrite Hm. clear Hm.
  destruct d as [names rows]. unfold json_of_batch. simpl.
  assert (Hc : default (JObj [])
                 (item (match names with
                        | Some names0 =>
                            [("columnNamesByDeviceType",
                              json_of_columns names0)]
                        | None => []
                        end
                        ++ match rows with
                           | Some rows0 =>
                               [("values", JArr (json_of_row <$> rows0))]
                           | None => []
                           end) "columnNamesByDeviceType")
               = json_of_columns (default ∅ names)).
  { destruct names, rows; simpl; try done;
      unfold json_of_columns; by rewrite fmap_empty, map_to_list_empty. }
  assert (Hv : default (JArr [])
                 (item (match names with
                        | Some names0 =>
                            [("columnNamesByDeviceType",
                              json_of_columns names0)]
                        | None => []
                        end
                        ++ match rows with
                           | Some rows0 =>
                               [("values", JArr (json_of_row <$> rows0))]
                           | None => []
                           end) "values")
               = JArr (json_of_row <$> default [] rows)).
  { by destruct names, rows. }
  rewrite Hc, Hv. simpl. by rewrite process_rows_typed.
Qed.

Lemma stream_of_typed tag td :
  stream_of tag (Some (json_of_payload td))
  = Returned (record_of <$> Starlink.stream_of tag (Some td)).
Proof.
  unfold stream_of, Starlink.stream_of.
  destruct (process_telemetry_data_typed td) as [-> ->].
  destruct (truthy (json_of_payload td)); [|done]. simpl.
  destruct (Starlink.process_telemetry_data (Some td)) as [p|]; [|done].
  simpl. by rewrite filter_record_of.
Qed.

(** X25. The bodies of the wire format, an object whose ['data'] holds
    a table of lists of column names and a list of rows of scalars, are
    decoded without an exception, and the three streams are those of
    [Starlink.decode], record for record. *)
Theorem decode_typed td :
  decode (Some (json_of_payload td))
  = Returned (streams_of (Starlink.decode (Some td)))
  ∧ ¬ raising_body (json_of_payload td).
Proof.
  assert (H : decode (Some (json_of_payload td))
              = Returned (streams_of (Starlink.decode (Some td)))).
  { unfold decode. by rewrite !stream_of_typed. }
  split; [exact H|]. intros Hr.
  unfold decode in H.
  destruct (stream_of_cases "u" (json_of_payload td))
    as [[_ Hu]|[Hnr _]]; [|done].
  by rewrite Hu in H.
Qed.

End WireTyped.

(** ** Statistics and sync *)

Section TelemetryFacts.
Import Starlink TelemetryRoutes.

Lemma filter_filter_andb {A} (f g : A → bool) (l : list A) :
  List.filter g (List.filter f l) = List.filter (λ x, f x && g x) l.
Proof.
  induction l as [|x l IH]; simpl; [done|].
  destruct (f x); simpl; [|exact IH].
  destruct (g x); [f_equal|]; exact IH.
Qed.

Lemma existsb_filter {A} (f : A → bool) (l : list A) :
  existsb f l = match List.filter f l with [] => false | _ :: _ => true end.
Proof.
  induction l as [|x l IH]; simpl; [done|]. destruct (f x); [done|exact IH].
Qed.

(** A primary key picks one device at most. *)
Lemma filter_device_unique (p : Device → bool) k (ds : list Device) :
  NoDup (dev_id <$> ds) →
  (length (List.filter (λ d, bool_decide (dev_id d = k) && p d) ds) ≤ 1)%nat.
Proof.
  induction ds as [|d ds IH]; intros Hnd; simpl; [lia|].
  apply NoDup_cons in Hnd as [Hd Hnd]. specialize (IH Hnd).
  destruct (bool_decide (dev_id d = k)) eqn:E; simpl; [|exact IH].
  apply bool_decide_eq_true in E. subst k.
  assert (Hnil : List.filter (λ d0, bool_decide (dev_id d0 = dev_id d) && p d0) ds
                 = []).
  { clear -Hd. induction ds as [|d' ds IH]; simpl; [done|].
    simpl in Hd. apply not_elem_of_cons in Hd as [Hne Hd].
    rewrite bool_decide_eq_false_2 by done. simpl. by apply IH. }
  rewrite Hnil. destruct (p d); simpl; lia.
Qed.

(** Over unique device keys the join keeps a row once when its device
    belongs to the organization and drops it otherwise. *)
Lemma join_device_filter {R} (device_id_of : R → string) ds organization_id
      (rows : list R) :
  NoDup (dev_id <$> ds) →
  join_device device_id_of ds organization_id rows
  = List.filter
      (λ r, existsb (λ d, bool_decide (dev_id d = device_id_of r)
                          && bool_decide (dev_organization_id d = organization_id))
                    ds)
      rows.
Proof.
  intros Hnd. unfold join_device.
  induction rows as [|r rows IH]; [done|].
  rewrite bind_cons, IH. simpl. rewrite existsb_filter.
  pose proof (filter_device_unique
                (λ d, bool_decide (dev_organization_id d = organization_id))
                (device_id_of r) ds Hnd) as Hlen.
  destruct (List.filter _ ds) as [|d [|d' l]]; simpl in *; [done|done|lia].
Qed.

(** The query of an organization-scoped request. *)
Lemma scoped_rows_organization {R} (device_id_of : R → string)
      (time_of : R → Z) ds args o start_time end_time (rows : list R) :
  arg_organization_id args = Some o → o ≠ "" →
  NoDup (dev_id <$> ds) →
  scoped_rows device_id_of time_of ds args start_time end_time rows
  = organization_rows device_id_of time_of ds o start_time end_time
                      (device_rows device_id_of (arg_device_id args) rows).
Proof.
  intros Ho Hne Hnd. unfold scoped_rows, organization_rows.
  rewrite Ho. simpl. rewrite (proj2 (String.eqb_neq o "") Hne). simpl.
  rewrite join_device_filter by done. rewrite filter_filter_andb. done.
Qed.

Lemma count_row_step u r i (row : record) :
  count_row (u, r, i) row
  = ((u + if has_device_type "u" row then 1 else 0)%nat,
     (r + if has_device_type "r" row then 1 else 0)%nat,
     (i + if has_device_type "i" row then 1 else 0)%nat).
Proof.
  unfold count_row, has_device_type.
  repeat case_bool_decide; try congruence;
    rewrite ?Nat.add_0_r, ?Nat.add_1_r; reflexivity.
Qed.

Lemma length_filter_cons {A} (f : A → bool) x l :
  length (List.filter f (x :: l))
  = ((if f x then 1 else 0) + length (List.filter f l))%nat.
Proof. simpl. by destruct (f x). Qed.

(** The counting loop counts the records of each stream. *)
Lemma count_rows (rows : list record) :
  ∀ u r i,
    foldl count_row (u, r, i) rows
    = ((u + length (List.filter (has_device_type "u") rows))%nat,
       (r + length (List.filter (has_device_type "r") rows))%nat,
       (i + length (List.filter (has_device_type "i") rows))%nat).
Proof.
  induction rows as [|row rows IH]; intros u r i.
  { simpl. by rewrite !Nat.add_0_r. }
  cbn [foldl]. rewrite count_row_step, IH, !length_filter_cons.
  f_equal; [f_equal|]; lia.
Qed.

End TelemetryFacts.

Section StatsClaims.
Import TelemetryRoutes.

(** C8, as stated, fails: a request that names both a device and an
    organization is answered with 200 by both handlers. *)
Lemma rejects_both_scopes_fails : ¬ rejects_both_scopes.
Proof.
  intros H.
  destruct (H both_scopes_args 5000 demo_stores eq_refl eq_refl) as [Hu _].
  apply Hu. reflexivity.
Qed.

(** C8, amended.  [get_usage_stats] and [get_performance_stats] require
    at least one of [device_id] and [organization_id]: a request with
    neither is answered 400.  A request that names an organization (and
    a valid period) is answered 200 with the aggregate over the
    telemetry rows in the window whose device belongs to that
    organization, each row once, the join being on the device's primary
    key; when the request names a device as well it is accepted too, and
    only the rows of that device are kept. *)
Theorem stats_scope_at_least_one args now st :
  (str_truthy (arg_device_id args) = false →
   str_truthy (arg_organization_id args) = false →
   get_usage_stats args now st
   = StatsError "Either device_id or organization_id is required" 400
   ∧ get_performance_stats args now st
     = StatsError "Either device_id or organization_id is required" 400)
  ∧ (∀ o start_time,
       arg_organization_id args = Some o → o ≠ "" →
       start_of_period (default "day" (arg_period args)) now = Some start_time →
       NoDup (dev_id <$> devices st) →
       get_usage_stats args now st
       = StatsOk (default "day" (arg_period args)) start_time now
           (usage_over
              (organization_rows rt_device_id rt_time (devices st) o
                 start_time now
                 (device_rows rt_device_id (arg_device_id args)
                              (router_telemetry st))))
       ∧ get_performance_stats args now st
         = StatsOk (default "day" (arg_period args)) start_time now
             (performance_over
                (organization_rows ut_device_id ut_time (devices st) o
                   start_time now
                   (device_rows ut_device_id (arg_device_id args)
                                (user_terminal_telemetry st))))).
Proof.
  split.
  - intros Hd Ho. unfold get_usage_stats, get_performance_stats.
    rewrite Hd, Ho. done.
  - intros o start_time Ho Hne Hp Hnd.
    assert (Ht : str_truthy (arg_organization_id args) = true).
    { rewrite Ho. simpl. by rewrite (proj2 (String.eqb_neq o "") Hne). }
    unfold get_usage_stats, get_performance_stats.
    rewrite Ht, andb_false_r, Hp.
    rewrite !(scoped_rows_organization _ _ _ _ o) by done. done.
Qed.

Lemma stats_scope_at_least_one_witness :
  get_usage_stats (mkStatsArgs None (Some "") None) 5000 demo_stores
  = StatsError "Either device_id or organization_id is required" 400
  ∧ get_usage_stats both_scopes_args 5000 demo_stores
    = StatsOk "day" (5000 - timedelta_days 1) 5000 (mkUsage 10 100 110)
  ∧ get_usage_stats organization_args 5000 demo_stores
    = StatsOk "week" (5000 - timedelta_days 7) 5000 (mkUsage 30 100 130).
Proof.
  split; [|split].
  - apply (stats_scope_at_least_one (mkStatsArgs None (Some "") None)
                                    5000 demo_stores); reflexivity.
  - destruct (stats_scope_at_least_one both_scopes_args 5000 demo_stores)
      as [_ H].
    destruct (H "o1" (5000 - timedelta_days 1)) as [Hu _];
      [reflexivity | discriminate | reflexivity
       | by apply (bool_decide_unpack _) |].
    rewrite Hu. reflexivity.
  - destruct (stats_scope_at_least_one organization_args 5000 demo_stores)
      as [_ H].
    destruct (H "o1" (5000 - timedelta_days 7)) as [Hu _];
      [reflexivity | discriminate | reflexivity
       | by apply (bool_decide_unpack _) |].
    rewrite Hu. reflexivity.
Defined.

End StatsClaims.

Section SyncClaims.
Import Starlink TelemetryRoutes.

(** C10. [sync_telemetry] writes to no store: whatever the request and
    whatever the upstream sends, the devices, the user-terminal and
    router telemetry and the IP allocations are after the call what
    they were before it.  When the call succeeds, the three counts of
    the answer are the sizes of the three streams of the batch that was
    fetched. *)
Theorem sync_telemetry_inserts_nothing depth request_json st w :
  snd (fst (sync_telemetry depth request_json st w)) = st
  ∧ ∀ u r i,
      fst (fst (sync_telemetry depth request_json st w)) = SyncOk u r i →
      ∃ account_number,
        let telemetry_data :=
          fst (fst (get_telemetry depth StarlinkAPI_init w
                                  account_number 1000 15000)) in
        u = length (stream_of "u" telemetry_data)
        ∧ r = length (stream_of "r" telemetry_data)
        ∧ i = length (stream_of "i" telemetry_data).
Proof.
  unfold sync_telemetry.
  destruct request_json as [data|]; [|by split].
  destruct (data !! "account_number") as [account_number|]; [|by split].
  destruct (value_truthy account_number); simpl; [|by split].
  destruct (get_telemetry depth StarlinkAPI_init w account_number 1000 15000)
    as [[telemetry_data self1] w1] eqn:Ef.
  destruct (payload_truthy telemetry_data) eqn:Et; simpl; [|by split].
  destruct (process_telemetry_data telemetry_data) as [p|] eqn:Ep; [|by split].
  rewrite count_rows. simpl. split; [done|].
  intros u r i [= <- <- <-]. exists account_number. rewrite Ef. simpl.
  unfold stream_of. rewrite Et, Ep. done.
Qed.

Lemma sync_telemetry_inserts_nothing_witness :
  sync_telemetry 1000 (Some sync_request) demo_stores example_world
  = (SyncOk 1 0 0, demo_stores,
     snd (get_telemetry 1000 StarlinkAPI_init example_world
                        (VStr "ACC-1") 1000 15000))
  ∧ snd (fst (sync_telemetry 1000 (Some sync_request) demo_stores example_world))
    = demo_stores.
Proof.
  split; [vm_compute; reflexivity|].
  apply (sync_telemetry_inserts_nothing 1000 (Some sync_request)
                                        demo_stores example_world).
Defined.

End SyncClaims.

(** ** Registration *)

Section RegisterClaims.
Import AuthRoutes.

Lemma fresh_email_find (db : Database) e :
  (∀ u, u ∈ users db → email u ≠ e) →
  List.find (λ u, String.eqb (email u) e) (users db) = None
  ∧ existsb (λ v, String.eqb (email v) e) (users db) = false.
Proof.
  intros Hfresh. split.
  - destruct (List.find _ _) as [u|] eqn:E; [|done].
    apply find_some in E as [Hin Hb]. apply String.eqb_eq in Hb.
    exfalso. by apply (Hfresh u); [apply list_elem_of_In|].
  - destruct (existsb _ _) eqn:E; [|done].
    apply existsb_exists in E as (u & Hin & Hb). apply String.eqb_eq in Hb.
    exfalso. by apply (Hfresh u); [apply list_elem_of_In|].
Qed.




(** The order of the two commits.  [register] commits the User row
    before it adds the UserRole row, and that row is built without
    [organization_id], a primary-key column.  With a constructor that
    accepts the call, a valid registration with a fresh e-mail, on a
    database that holds the "Client" role, would have the second commit
    raise, the handler roll back and answer 500, and the User row of the
    first commit stay: the write would not be all-or-nothing. *)
Lemma register_commits_user_first env db data client_role :
  schema_load env = Some data →
  pending db = [] →
  (∀ u, u ∈ users db → email u ≠ reg_email data) →
  ctor_accepts env = true →
  fault_1 env = false →
  List.find (λ r, String.eqb (Auth.role_name r) "Client") (roles db)
  = Some client_role →
  register env db
  = (RegisterError "An error occurred during registration" 500,
     {| users := users db ++ [new_user_of env data];
        roles := roles db;
        user_roles := user_roles db;
        pending := [] |})
  ∧ ¬ all_or_nothing env db.
Proof.
  intros Hload Hpend Hfresh Hctor Hfault Hrole.
  destruct (fresh_email_find db (reg_email data) Hfresh) as [Hfind Hex].
  assert (E : register env db
              = (RegisterError "An error occurred during registration" 500,
                 {| users := users db ++ [new_user_of env data];
                    roles := roles db;
                    user_roles := user_roles db;
                    pending := [] |})).
  { destruct db as [us rs urs pend]. simpl in *. subst pend.
    unfold register, new_user_of. simpl. rewrite Hload, Hfind, Hctor. simpl.
    unfold session_commit. simpl. rewrite Hfault, Hex. simpl.
    rewrite Hrole. simpl. rewrite orb_true_r. simpl. reflexivity. }
  split; [exact E|].
  unfold all_or_nothing. rewrite E. cbn [fst snd users].
  intros H. destruct H as [Hu _]; [done|].
  apply (f_equal length) in Hu. rewrite length_app in Hu. simpl in Hu. lia.
Qed.

End RegisterClaims.

(** * Further properties of the code *)

(** ** The decorators *)

Section AuthMore.
Import Auth.

Lemma authorize_None res act db :
  authorize res act None db = Reject "Token is invalid or expired" 401.
Proof. reflexivity. Qed.

(** When the handler is invoked. *)
Lemma authorize_Invoke res act identity db :
  authorize res act identity db = Invoke
  ↔ ∃ user_id, identity = Some user_id
      ∧ (holds_super_admin db user_id
         ∨ ∃ p, Permission_first db res act = Some p
                ∧ role_grants db user_id (permission_id p)).
Proof.
  destruct identity as [user_id|].
  2:{ split; [done|]. by intros (? & ? & _). }
  rewrite authorize_unfold. cbn zeta.
  destruct (fst (super_admin_loop db _)) eqn:E.
  { apply super_admin_loop_true in E.
    split; [|done]. intros _. exists user_id. split; [done|]. by left. }
  assert (Hsa : ¬ holds_super_admin db user_id).
  { intros H%super_admin_loop_true. congruence. }
  destruct (Permission_first db res act) as [p|] eqn:Ep.
  2:{ split; [done|]. intros (u & [= <-] & [?|(p & ? & _)]); done. }
  destruct (fst (grant_loop db (permission_id p) _)) eqn:G.
  - apply grant_loop_true in G.
    split; [|done]. intros _. exists user_id. split; [done|]. right. eauto.
  - split; [done|]. intros (u & [= <-] & [?|(p' & [= <-] & Hg)]); [done|].
    apply grant_loop_true in Hg. congruence.
Qed.

(** X1. [permission_required] invokes the handler exactly when the
    identity resolves and the user either holds a Super Admin role or
    has a role linked to the permission the lookup returns; it answers
    401 exactly when the identity does not resolve, and 403 in every
    other case: a rejection with status 401 carries the token message
    and comes from an unresolved identity only, and every other
    rejection has status 403, comes from a resolved identity that holds
    no Super Admin role, and says 'Permission not found' when the lookup
    finds no row and 'Permission denied' when it finds one that no role
    of the user is linked to. *)
Theorem authorize_invoke_iff res act identity db :
  (authorize res act identity db = Invoke
   ↔ ∃ user_id, identity = Some user_id
       ∧ (holds_super_admin db user_id
          ∨ ∃ p, Permission_first db res act = Some p
                 ∧ role_grants db user_id (permission_id p)))
  ∧ (identity = None
     ↔ authorize res act identity db = Reject "Token is invalid or expired" 401)
  ∧ (∀ message,
       authorize res act identity db = Reject message 401
       ↔ identity = None ∧ message = "Token is invalid or expired")
  ∧ (∀ message status,
       authorize res act identity db = Reject message status →
       status ≠ 401 →
       status = 403
       ∧ ∃ user_id, identity = Some user_id
           ∧ ¬ holds_super_admin db user_id
           ∧ ((message = "Permission not found"
               ∧ Permission_first db res act = None)
              ∨ (message = "Permission denied"
                 ∧ ∃ p, Permission_first db res act = Some p
                        ∧ ¬ role_grants db user_id (permission_id p)))).
Proof.
  split; [apply authorize_Invoke|].
  destruct identity as [user_id|].
  2:{ split; [done|]. split.
      - intros m. split; [by intros [= <-]|by intros [_ ->]].
      - by intros m st [= <- <-] Hst. }
  rewrite authorize_unfold. cbn zeta.
  destruct (fst (super_admin_loop db _)) eqn:Hs.
  { split; [done|]. split; [|done]. intros m. split; [done|by intros [? _]]. }
  assert (Hns : ¬ holds_super_admin db user_id).
  { intros H. apply super_admin_loop_true in H. congruence. }
  destruct (Permission_first db res act) as [p|] eqn:Hp.
  2:{ split; [done|]. split.
      - intros m. split; [done|by intros [? _]].
      - intros m st [= <- <-] _. split; [done|].
        exists user_id. split; [done|]. split; [done|]. by left. }
  destruct (fst (grant_loop db (permission_id p) _)) eqn:Hg.
  { split; [done|]. split; [|done]. intros m. split; [done|by intros [? _]]. }
  split; [done|]. split.
  - intros m. split; [done|by intros [? _]].
  - intros m st [= <- <-] _. split; [done|].
    exists user_id. split; [done|]. split; [done|]. right.
    split; [done|]. exists p. split; [done|].
    intros H. apply grant_loop_true in H. congruence.
Qed.

(** X2. Granting never revokes: when roles and permissions stay as they
    are and every RolePermission and UserRole row is kept, a request
    that was let through is still let through. *)
Theorem authorize_monotone res act identity db1 db2 :
  grants_included db1 db2 →
  authorize res act identity db1 = Invoke →
  authorize res act identity db2 = Invoke.
Proof.
  intros (Hr & Hp & Hrp & Hur) H.
  apply authorize_Invoke in H as (u & -> & H).
  apply authorize_Invoke. exists u. split; [done|].
  destruct H as [(ur & Hin & Hu & Hs)|(p & Hfirst & ur & rp & Hin & Hu & Hin' & Hrid & Hpid)].
  - left. exists ur. unfold Role_get in *. rewrite <- Hr. auto.
  - right. exists p. unfold Permission_first in *. rewrite <- Hp.
    split; [done|]. exists ur, rp. auto 10.
Qed.

Lemma authorize_monotone_witness :
  authorize "device" "read" (Some "bob")
            {| roles := roles demo_db;
               permissions := permissions demo_db;
               role_permissions := mkRolePermission "r3" "p2"
                                   :: role_permissions demo_db;
               user_roles := mkUserRole "bob" "r3" "orgB"
                             :: user_roles demo_db |} = Invoke.
Proof.
  apply (authorize_monotone "device" "read" (Some "bob") demo_db).
  - repeat split; simpl; intros x Hx; by right.
  - reflexivity.
Defined.

Lemma super_admin_loop_roles db1 db2 urs :
  roles db1 = roles db2 → super_admin_loop db1 urs = super_admin_loop db2 urs.
Proof.
  intros Hr. induction urs as [|ur rest IH]; simpl; [done|].
  unfold Role_get. rewrite Hr, IH. done.
Qed.

Lemma grant_loop_edges db1 db2 pid urs :
  role_permissions db1 = role_permissions db2 →
  grant_loop db1 pid urs = grant_loop db2 pid urs.
Proof.
  intros Hrp. induction urs as [|ur rest IH]; simpl; [done|].
  unfold RolePermission_first. rewrite Hrp, IH. done.
Qed.

Lemma super_admin_bypass_holds res act user_id db :
  holds_super_admin db user_id → authorize res act (Some user_id) db = Invoke.
Proof.
  intros H%super_admin_loop_true. rewrite authorize_unfold. cbn zeta.
  by rewrite H.
Qed.

(** X3. The answer to a user, and the queries made for it, depend on
    the UserRole rows of that user only: rows of other users can be
    added, removed or changed without any effect on it. *)
Theorem permission_required_other_users res act user_id db1 db2 :
  roles db1 = roles db2 →
  permissions db1 = permissions db2 →
  role_permissions db1 = role_permissions db2 →
  UserRole_filter_by db1 user_id = UserRole_filter_by db2 user_id →
  permission_required res act (Some user_id) db1
  = permission_required res act (Some user_id) db2.
Proof.
  intros Hr Hp Hrp Hur. unfold permission_required. rewrite Hur.
  rewrite (super_admin_loop_roles db1 db2 _ Hr).
  destruct (super_admin_loop db2 _) as [[] t1]; [done|].
  unfold Permission_first. rewrite Hp.
  destruct (List.find _ (permissions db2)) as [p|]; [|done].
  by rewrite (grant_loop_edges db1 db2 _ _ Hrp).
Qed.

Lemma permission_required_other_users_witness :
  permission_required "device" "read" (Some "bob") demo_db
  = permission_required "device" "read" (Some "bob")
      {| roles := roles demo_db;
         permissions := permissions demo_db;
         role_permissions := role_permissions demo_db;
         user_roles := [mkUserRole "dave" "r1" "orgA";
                        mkUserRole "bob" "r2" "orgA"] |}.
Proof. apply permission_required_other_users; reflexivity. Defined.

Lemma admin_required_Invoke identity db :
  fst (admin_required identity db) = Invoke
  ↔ ∃ user_id, identity = Some user_id ∧ holds_super_admin db user_id.
Proof.
  destruct identity as [user_id|]; simpl.
  2:{ split; [done|]. by intros (? & ? & _). }
  pose proof (super_admin_loop_true db user_id) as Hiff.
  destruct (super_admin_loop db (UserRole_filter_by db user_id)) as [b t].
  simpl in *. destruct b.
  - split; [|done]. intros _. exists user_id. split; [done|]. by apply Hiff.
  - split; [done|]. intros (u & [= <-] & H%Hiff). done.
Qed.

(** X4. [admin_required] invokes the handler exactly for a resolved
    identity that holds a Super Admin role, and answers 403 "Admin
    privileges required" to every other resolved identity.  Whoever
    passes it passes [permission_required] for every resource and
    action. *)
Theorem admin_required_iff identity db :
  (fst (admin_required identity db) = Invoke
   ↔ ∃ user_id, identity = Some user_id ∧ holds_super_admin db user_id)
  ∧ (∀ user_id, identity = Some user_id → ¬ holds_super_admin db user_id →
       fst (admin_required identity db)
       = Reject "Admin privileges required" 403)
  ∧ (fst (admin_required identity db) = Invoke →
     ∀ res act, authorize res act identity db = Invoke).
Proof.
  split; [apply admin_required_Invoke|]. split.
  - intros user_id -> Hn. simpl.
    pose proof (super_admin_loop_true db user_id) as Hiff.
    destruct (super_admin_loop db (UserRole_filter_by db user_id)) as [b t].
    simpl in *. destruct b; [|done]. exfalso. by apply Hn, Hiff.
  - intros (user_id & -> & Hsa)%admin_required_Invoke res act.
    by apply super_admin_bypass_holds.
Qed.

Lemma NoDup_fmap_eq {A B} (f : A → B) (l : list A) x y :
  NoDup (f <$> l) → x ∈ l → y ∈ l → f x = f y → x = y.
Proof.
  induction l as [|a l IH]; intros Hnd Hx Hy Hf; [by apply elem_of_nil in Hx|].
  rewrite fmap_cons in Hnd. apply NoDup_cons in Hnd as [Ha Hnd].
  apply elem_of_cons in Hx as [->|Hx]; apply elem_of_cons in Hy as [->|Hy].
  - done.
  - exfalso. apply Ha. rewrite Hf. by apply list_elem_of_fmap_2.
  - exfalso. apply Ha. rewrite <- Hf. by apply list_elem_of_fmap_2.
  - by apply IH.
Qed.

(** Over unique role keys the lookup by key returns the role row. *)
Lemma Role_get_Some db rid r :
  NoDup (role_id <$> roles db) →
  Role_get db rid = Some r ↔ r ∈ roles db ∧ role_id r = rid.
Proof.
  intros Hnd. unfold Role_get. split.
  - intros [Hin Hb]%find_some. apply bool_decide_eq_true in Hb.
    by rewrite list_elem_of_In.
  - intros [Hin Hid]. destruct (List.find _ _) as [r'|] eqn:E.
    + apply find_some in E as [Hin' Hb]. apply bool_decide_eq_true in Hb.
      f_equal. apply (NoDup_fmap_eq role_id (roles db)); try done.
      * by apply list_elem_of_In.
      * congruence.
    + apply list_elem_of_In in Hin.
      pose proof (find_none _ _ E _ Hin) as Hb. simpl in Hb.
      by rewrite bool_decide_eq_true_2 in Hb.
Qed.

Lemma roles_of_user_elem db user_id r :
  r ∈ roles_of_user db user_id
  ↔ r ∈ roles db
    ∧ ∃ ur, ur ∈ user_roles db ∧ ur_role_id ur = role_id r
            ∧ ur_user_id ur = user_id.
Proof.
  unfold roles_of_user. rewrite list_elem_of_bind. split.
  - intros (r' & Hin & Hr'). apply list_elem_of_bind in Hin as (ur & Hin & Hur).
    apply list_elem_of_singleton in Hin as ->.
    apply list_elem_of_In, filter_In in Hur as [Hur Hb].
    apply andb_prop in Hb as [?%bool_decide_eq_true ?%bool_decide_eq_true].
    split; [done|]. exists ur. by rewrite list_elem_of_In.
  - intros (Hr & ur & Hur & Hid & Hu). exists r. split; [|done].
    apply list_elem_of_bind. exists ur. split; [by left|].
    apply list_elem_of_In, filter_In. split; [by apply list_elem_of_In|].
    by rewrite !bool_decide_eq_true_2.
Qed.

(** X5. Over unique role keys, [role_required('Super Admin')] of the
    middleware and [admin_required] let the same requests through. *)
Theorem role_required_super_admin identity db :
  NoDup (role_id <$> roles db) →
  role_required "Super Admin" identity db = Invoke
  ↔ fst (admin_required identity db) = Invoke.
Proof.
  intros Hnd. rewrite admin_required_Invoke.
  unfold role_required. destruct identity as [user_id|].
  2:{ split; [done|]. by intros (? & ? & _). }
  destruct (existsb _ (roles_of_user db user_id)) eqn:E; simpl.
  - apply existsb_exists in E as (r & Hin & Hname).
    apply list_elem_of_In, roles_of_user_elem in Hin
      as (Hr & ur & Hur & Hid & Hu).
    split; [|done]. intros _. exists user_id. split; [done|].
    exists ur. split; [done|]. split; [done|].
    rewrite (proj2 (Role_get_Some db (ur_role_id ur) r Hnd)) by done. done.
  - split; [done|]. intros (u & [= <-] & ur & Hur & Hu & Hsa). exfalso.
    destruct (Role_get db (ur_role_id ur)) as [r|] eqn:Eg; [|done].
    apply (Role_get_Some db _ r Hnd) in Eg as [Hr Hid].
    assert (Hex : existsb (λ role, String.eqb (role_name role) "Super Admin")
                          (roles_of_user db user_id) = true); [|congruence].
    apply existsb_exists. exists r. split; [|done].
    apply list_elem_of_In, roles_of_user_elem. eauto.
Qed.

Lemma role_required_super_admin_witness :
  role_required "Super Admin" (Some "alice") demo_db = Invoke
  ↔ fst (admin_required (Some "alice") demo_db) = Invoke.
Proof.
  apply role_required_super_admin. by apply (bool_decide_unpack _).
Defined.

End AuthMore.

(** ** The sync route and the seeded catalog *)

Section SyncMore.
Import Auth Starlink TelemetryRoutes.

Lemma telemetry_create_not_seeded : ("telemetry", "create") ∉ seed_permissions.
Proof. by apply (bool_decide_unpack _). Qed.

(** X6. The sync route asks for the permission (telemetry, create),
    which the catalog of [init_roles_and_permissions] does not hold: on
    a Permission table made of seeded pairs, a user without a Super
    Admin role is answered 403 "Permission not found", whatever roles
    the user has, and neither the stores nor the upstream are
    touched. *)
Theorem sync_view_seeded_catalog depth user_id db request_json st w :
  seeded_catalog db →
  ¬ holds_super_admin db user_id →
  sync_telemetry_view depth (Some user_id) db request_json st w
  = (Denied "Permission not found" 403, st, w).
Proof.
  intros Hseed Hsa. unfold sync_telemetry_view.
  rewrite authorize_unfold. cbn zeta.
  destruct (fst (super_admin_loop db _)) eqn:E.
  { by apply super_admin_loop_true in E. }
  replace (Permission_first db "telemetry" "create") with (@None Permission);
    [done|].
  symmetry. apply Permission_first_None. intros p Hp [Hr Ha].
  apply telemetry_create_not_seeded. rewrite <- Hr, <- Ha. by apply Hseed.
Qed.

Lemma demo_db_seeded : seeded_catalog demo_db.
Proof.
  intros p Hp. apply list_elem_of_In in Hp. simpl in Hp.
  repeat (destruct Hp as [<-|Hp]); try done;
    by apply (bool_decide_unpack _).
Qed.

Lemma sync_view_seeded_catalog_witness :
  sync_telemetry_view 1000 (Some "bob") demo_db (Some sync_request)
                      demo_stores example_world
  = (Denied "Permission not found" 403, demo_stores, example_world).
Proof.
  apply sync_view_seeded_catalog.
  - apply demo_db_seeded.
  - intros H%super_admin_loop_true. vm_compute in H. done.
Defined.

End SyncMore.

(** ** The client *)

Section ClientMore.
Import Starlink.

Lemma ensure_token_true self w self1 w1 :
  _ensure_token self w = (true, self1, w1) →
  token_truthy (access_token self1) = true
  ∧ telemetry_answers w1 = telemetry_answers w
  ∧ ∃ new, log w1 = log w ++ new ∧ Forall (λ e, e = TokenExchange) new
           ∧ (length new ≤ 1)%nat.
Proof.
  unfold _ensure_token. simpl.
  destruct (negb (token_truthy (access_token self))) eqn:Ht; simpl.
  - destruct (token_truthy (mjoin (head (token_answers w)))) eqn:Hn;
      intros [= <- <-]; simpl.
    split; [done|]. split; [done|]. exists [TokenExchange].
    split; [done|]. split; [by constructor|simpl; lia].
  - apply negb_false_iff in Ht.
    destruct (token_expiry self <=? clock w (time_reads w)).
    + destruct (token_truthy (mjoin (head (token_answers w)))) eqn:Hn;
        intros [= <- <-]; simpl.
      split; [done|]. split; [done|]. exists [TokenExchange].
      split; [done|]. split; [by constructor|simpl; lia].
    + intros [= <- <-]. simpl. split; [done|]. split; [done|].
      exists []. split; [by rewrite app_nil_r|]. split; [constructor|simpl; lia].
Qed.

Lemma ensure_token_false self w self1 w1 :
  _ensure_token self w = (false, self1, w1) →
  log w1 = log w ++ [TokenExchange].
Proof.
  unfold _ensure_token. simpl.
  destruct (negb (token_truthy (access_token self))
            || (token_expiry self <=? clock w (time_reads w))).
  - destruct (token_truthy (mjoin (head (token_answers w))));
      intros [= <- <-]; done.
  - intros [=].
Qed.

(** X7. [get_telemetry] sends no telemetry request without a
    non-empty bearer token: whatever the cache, the clock and the
    upstream, every call it adds to the log is a token exchange or a
    request that carries a token. *)
Theorem get_telemetry_bearer depth self w account bs ml :
  ∃ new,
    log (snd (get_telemetry depth self w account bs ml)) = log w ++ new
    ∧ Forall (λ e, bearer_ok e = true) new.
Proof.
  revert self w. induction depth as [|depth IH]; intros self w.
  { exists []. simpl. by rewrite app_nil_r. }
  destruct (_ensure_token self w) as [[ok self1] w1] eqn:E. destruct ok.
  - rewrite (get_telemetry_step depth self w account bs ml _ _ E).
    apply ensure_token_true in E as (Ht & _ & new & Hlog & Hnew & _).
    assert (Hnew' : Forall (λ e, bearer_ok e = true) new).
    { eapply Forall_impl; [exact Hnew|]. by intros e ->. }
    unfold post_telemetry.
    destruct (default TransportError (head (telemetry_answers w1)))
      as [|status body].
    + eexists (new ++ [_]). simpl. rewrite Hlog, <- (assoc_L (++)).
      split; [done|]. apply Forall_app. split; [done|]. by constructor.
    + destruct (status =? 401).
      * edestruct IH as (more & Hm & Hf). rewrite Hm. simpl.
        eexists (new ++ [_] ++ more). rewrite Hlog, <- !(assoc_L (++)).
        split; [done|]. apply Forall_app. split; [done|].
        apply Forall_app. split; [by constructor|done].
      * eexists (new ++ [_]).
        destruct (raises_for_status status); simpl;
          rewrite Hlog, <- (assoc_L (++));
          (split; [done|]); apply Forall_app; (split; [done|]);
          by constructor.
  - rewrite (get_telemetry_no_token depth self w account bs ml _ _ E).
    apply ensure_token_false in E. exists [TokenExchange]. simpl.
    split; [done|]. by constructor.
Qed.

(** X8. Only a 401 is retried: when the next answer of the telemetry
    endpoint is anything else (another status, a failed transport), a
    fetch makes at most one telemetry request and one token exchange,
    and it returns a body only if that answer has a status below 400 or
    above 599 and a body. *)
Theorem get_telemetry_no_retry depth self w account bs ml :
  (∀ body, head (telemetry_answers w) ≠ Some (Http 401 body)) →
  let fetch := get_telemetry (S depth) self w account bs ml in
  (telemetry_posts (log (snd fetch)) ≤ telemetry_posts (log w) + 1)%nat
  ∧ (token_exchanges (log (snd fetch)) ≤ token_exchanges (log w) + 1)%nat
  ∧ ∀ p, fst (fst fetch) = Some p →
         ∃ status, head (telemetry_answers w) = Some (Http status (Some p))
                   ∧ raises_for_status status = false.
Proof.
  intros Hno fetch.
  assert (Hf : fetch = get_telemetry (S depth) self w account bs ml) by done.
  clearbody fetch.
  destruct (_ensure_token self w) as [[ok self1] w1] eqn:E. destruct ok.
  - rewrite (get_telemetry_step depth self w account bs ml _ _ E) in Hf.
    apply ensure_token_true in E as (_ & Hans & new & Hlog & Hnew & Hlen).
    assert (Hte : (token_exchanges new ≤ 1)%nat).
    { unfold token_exchanges. etrans; [|exact Hlen].
      clear. induction new as [|e new IH]; simpl; [lia|].
      destruct (is_token_exchange e); simpl; lia. }
    assert (Htp : telemetry_posts new = 0%nat).
    { unfold telemetry_posts. clear -Hnew.
      induction Hnew as [|e new -> _ IH]; simpl; done. }
    unfold post_telemetry in Hf. rewrite Hans in Hf.
    destruct (head (telemetry_answers w)) as [[|status body]|] eqn:Eh;
      simpl in Hf.
    + rewrite Hf. simpl. rewrite Hlog.
      rewrite !telemetry_posts_app, !token_exchanges_app, Htp.
      unfold telemetry_posts, token_exchanges in *. simpl.
      split; [lia|]. split; [lia|]. done.
    + destruct (status =? 401) eqn:E401.
      { apply Z.eqb_eq in E401. subst status. exfalso. by eapply Hno. }
      destruct (raises_for_status status) eqn:Er; rewrite Hf; simpl;
        rewrite Hlog, !telemetry_posts_app, !token_exchanges_app, Htp;
        unfold telemetry_posts, token_exchanges in *; simpl;
        (split; [lia|]); (split; [lia|]); [done|].
      intros p ->. eauto.
    + rewrite Hf. simpl. rewrite Hlog.
      rewrite !telemetry_posts_app, !token_exchanges_app, Htp.
      unfold telemetry_posts, token_exchanges in *. simpl.
      split; [lia|]. split; [lia|]. done.
  - rewrite (get_telemetry_no_token depth self w account bs ml _ _ E) in Hf.
    apply ensure_token_false in E. rewrite Hf. simpl. rewrite E.
    rewrite telemetry_posts_app, token_exchanges_app.
    unfold telemetry_posts, token_exchanges in *. simpl.
    split; [lia|]. split; [lia|]. done.
Qed.

Lemma get_telemetry_no_retry_witness :
  let fetch := get_telemetry 1000 StarlinkAPI_init
                 (world_of [Some "tok"; Some "tok"]
                           [Http 503 None; Http 200 None] (λ _, 0))
                 (VStr "A") 1000 15000 in
  (telemetry_posts (log (snd fetch)) ≤ 0 + 1)%nat
  ∧ (token_exchanges (log (snd fetch)) ≤ 0 + 1)%nat
  ∧ ∀ p, fst (fst fetch) = Some p →
         ∃ status, Some (Http 503 None) = Some (Http status (Some p))
                   ∧ raises_for_status status = false.
Proof.
  apply (get_telemetry_no_retry 999 StarlinkAPI_init
           (world_of [Some "tok"; Some "tok"]
                     [Http 503 None; Http 200 None] (λ _, 0))).
  intros body. discriminate.
Defined.

Lemma subseteq_tail {A} (l : list A) : tail l ⊆ l.
Proof. destruct l; [done|]. intros x Hx. by right. Qed.

(** X9. A fetch returns a body only when the telemetry endpoint gave
    it with a status that is neither a 401 nor an error (400 to 599):
    the body of an error answer is never handed to the caller. *)
Theorem get_telemetry_body_origin depth self w account bs ml p :
  fst (fst (get_telemetry depth self w account bs ml)) = Some p →
  ∃ status, Http status (Some p) ∈ telemetry_answers w
            ∧ raises_for_status status = false ∧ status ≠ 401.
Proof.
  revert self w. induction depth as [|depth IH]; intros self w; [done|].
  destruct (_ensure_token self w) as [[ok self1] w1] eqn:E. destruct ok.
  2:{ by rewrite (get_telemetry_no_token depth self w account bs ml _ _ E). }
  rewrite (get_telemetry_step depth self w account bs ml _ _ E).
  apply ensure_token_true in E as (_ & Hans & _).
  unfold post_telemetry. rewrite Hans.
  destruct (head (telemetry_answers w)) as [[|status body]|] eqn:Eh;
    simpl; [done| |done].
  destruct (status =? 401) eqn:E401.
  - intros H. apply IH in H as (st & Hin & Hok & Hne). simpl in Hin.
    exists st. split; [|done]. by apply (subseteq_tail (telemetry_answers w)).
  - destruct (raises_for_status status) eqn:Er; simpl; [done|].
    intros ->. exists status. split; [|split; [done|]].
    + destruct (telemetry_answers w) as [|a l]; [done|].
      simpl in Eh. injection Eh as ->. by left.
    + intros ->. done.
Qed.

Lemma get_telemetry_body_origin_witness :
  ∃ status,
    Http status (Some (mkPayload (Some example_batch) None))
    ∈ [Http 401 None; Http 200 (Some (mkPayload (Some example_batch) None))]
    ∧ raises_for_status status = false ∧ status ≠ 401.
Proof.
  apply (get_telemetry_body_origin 1000 StarlinkAPI_init
           (world_of [Some "tok"; Some "tok"]
              [Http 401 None;
               Http 200 (Some (mkPayload (Some example_batch) None))]
              (λ _, 0))
           (VStr "A") 1000 15000).
  vm_compute. reflexivity.
Defined.

End ClientMore.

(** ** Decoded records *)

Section DecodeMore.
Import Starlink.

Lemma fill_row_dict_dom (column_names : list string) :
  ∀ (row : list value) (row_dict : record),
    length column_names = length row →
    dom (fill_row_dict row_dict column_names row)
    = dom row_dict ∪ list_to_set column_names.
Proof.
  induction column_names as [|c cs IH]; intros row row_dict Hlen; simpl.
  - by rewrite (right_id_L ∅ (∪)).
  - destruct row as [|v row]; [done|]. simpl in Hlen.
    rewrite IH by lia. rewrite dom_insert_L.
    rewrite (comm_L (∪) {[c]} (dom row_dict)). by rewrite !(assoc_L (∪)).
Qed.

Lemma fill_row_dict_cells (column_names : list string) :
  ∀ (row : list value) (row_dict : record) c v,
    fill_row_dict row_dict column_names row !! c = Some v →
    row_dict !! c = Some v ∨ v ∈ row.
Proof.
  induction column_names as [|c' cs IH]; intros row row_dict c v H; simpl in H.
  - by left.
  - destruct row as [|v' row]; [by left|].
    apply IH in H as [H|H]; [|right; by right].
    destruct (decide (c' = c)) as [->|Hne].
    + rewrite lookup_insert_eq in H. injection H as ->. right. by left.
    + rewrite lookup_insert_ne in H by done. by left.
Qed.

(** X10. No record is a partial pairing: every record that
    [process_telemetry_data] emits has exactly the columns of its
    device type as keys, comes from a row as long as that column list,
    and holds only cells of that row. *)
Theorem processed_records_complete td p rec :
  process_telemetry_data (Some td) = Some p →
  rec ∈ processed_data p →
  ∃ d row device_type,
    data td = Some d
    ∧ row ∈ default [] (values d)
    ∧ head row = Some device_type
    ∧ let column_names :=
        lookup_column_names (default ∅ (columnNamesByDeviceType d))
                            device_type in
      length column_names = length row
      ∧ dom rec = list_to_set column_names
      ∧ ∀ c v, rec !! c = Some v → v ∈ row.
Proof.
  unfold process_telemetry_data.
  destruct (payload_truthy (Some td)); [|done]. simpl.
  destruct (data td) as [d|] eqn:Ed; [|done].
  intros [= <-] Hin. simpl in Hin.
  apply list_elem_of_omap in Hin as (row & Hrow & Hp).
  apply process_row_Some in Hp as (dt & cols & Hh & _ & Hc & Hlen & ->).
  exists d, row, dt. rewrite Hc. split; [done|]. split; [done|].
  split; [done|]. split; [done|]. split.
  - rewrite fill_row_dict_dom by done. rewrite dom_empty_L.
    apply (left_id_L ∅ (∪)).
  - intros c v H. apply fill_row_dict_cells in H as [H|H]; [|done].
    by rewrite lookup_empty in H.
Qed.

Lemma processed_records_complete_witness :
  ∃ d row device_type,
    Some example_batch = Some d
    ∧ row ∈ default [] (values d)
    ∧ head row = Some device_type
    ∧ let column_names :=
        lookup_column_names (default ∅ (columnNamesByDeviceType d))
                            device_type in
      length column_names = length row
      ∧ dom ({[ "DeviceType" := VStr "u"; "X" := VNum 1; "Y" := VNum 2 ]}
             : record)
        = list_to_set column_names
      ∧ ∀ c v, ({[ "DeviceType" := VStr "u"; "X" := VNum 1; "Y" := VNum 2 ]}
                : record) !! c = Some v → v ∈ row.
Proof.
  apply (processed_records_complete
           (mkPayload (Some example_batch) None)
           {| processed_data :=
                [ {[ "DeviceType" := VStr "u"; "X" := VNum 1; "Y" := VNum 2 ]} ];
              processed_metadata := ∅ |}).
  - vm_compute. reflexivity.
  - by left.
Defined.

Lemma list_to_map_zip_lookup (column_names : list string) :
  ∀ (row : list value),
    NoDup column_names →
    length column_names = length row →
    (λ c, (list_to_map (zip column_names row) : record) !! c) <$> column_names
    = Some <$> row.
Proof.
  induction column_names as [|c cs IH]; intros row Hnd Hlen;
    destruct row as [|v row]; try done.
  apply NoDup_cons in Hnd as [Hc Hnd]. simpl in Hlen.
  cbn [zip zip_with list_to_map foldr curry fst snd fmap list_fmap].
  rewrite lookup_insert_eq. f_equal.
  rewrite <- (IH row Hnd) by lia. apply list_fmap_ext.
  intros i c' Hi. apply lookup_insert_ne. intros ->.
  apply Hc. by eapply list_elem_of_lookup_2.
Qed.

(** X11. Decoding loses nothing of a kept row: when the column list of
    its device type names no column twice, reading the record at the
    columns in order gives back the cells of the row in order. *)
Theorem row_recovered_from_record names row rec :
  process_row names row = Some rec →
  NoDup (lookup_column_names names (default VNull (head row))) →
  (λ c, rec !! c) <$> lookup_column_names names (default VNull (head row))
  = Some <$> row.
Proof.
  intros (dt & cols & Hh & _ & Hc & Hlen & ->)%process_row_Some Hnd.
  rewrite Hh in *. simpl in *. rewrite Hc in *.
  rewrite <- (list_to_map_zip_lookup cols row Hnd Hlen).
  apply list_fmap_ext. intros i c _.
  rewrite fill_row_dict_zip by done. by rewrite (right_id_L ∅ (∪)).
Qed.

Lemma row_recovered_from_record_witness :
  (λ c, ({[ "DeviceType" := VStr "u"; "X" := VNum 1; "Y" := VNum 2 ]} : record)
        !! c) <$> ["DeviceType"; "X"; "Y"]
  = Some <$> [VStr "u"; VNum 1; VNum 2].
Proof.
  assert (Hp : process_row {[ "u" := ["DeviceType"; "X"; "Y"] ]}
                           [VStr "u"; VNum 1; VNum 2]
               = Some {[ "DeviceType" := VStr "u"; "X" := VNum 1;
                         "Y" := VNum 2 ]})
    by (vm_compute; reflexivity).
  assert (Hnd : NoDup (lookup_column_names
                         {[ "u" := ["DeviceType"; "X"; "Y"] ]}
                         (default VNull (head [VStr "u"; VNum 1; VNum 2]))))
    by by apply (bool_decide_unpack _).
  exact (row_recovered_from_record _ _ _ Hp Hnd).
Defined.

Lemma has_device_type_inj tag1 tag2 (rec : record) :
  has_device_type tag1 rec = true → has_device_type tag2 rec = true →
  tag1 = tag2.
Proof.
  unfold has_device_type. intros H1%bool_decide_eq_true H2%bool_decide_eq_true.
  congruence.
Qed.

Lemma stream_of_elem tag td rec :
  rec ∈ stream_of tag td → has_device_type tag rec = true.
Proof.
  unfold stream_of. destruct (negb (payload_truthy td)).
  { intros H. by apply elem_of_nil in H. }
  destruct (process_telemetry_data td) as [p|].
  - intros H. apply list_elem_of_In, filter_In in H as [_ H]. done.
  - intros H. by apply elem_of_nil in H.
Qed.

Lemma length_omap_le {A B} (f : A → option B) (l : list A) :
  (length (omap f l) ≤ length l)%nat.
Proof.
  induction l as [|x l IH]; [simpl; lia|].
  change (omap f (x :: l))
    with (match f x with Some y => y :: omap f l | None => omap f l end).
  destruct (f x); simpl; lia.
Qed.

Lemma three_filters_le (l : list record) :
  (length (List.filter (has_device_type "u") l)
   + length (List.filter (has_device_type "r") l)
   + length (List.filter (has_device_type "i") l) ≤ length l)%nat.
Proof.
  induction l as [|rec l IH]; [simpl; lia|].
  rewrite !length_filter_cons. cbn [length].
  destruct (has_device_type "u" rec) eqn:Hu;
    destruct (has_device_type "r" rec) eqn:Hr;
    destruct (has_device_type "i" rec) eqn:Hi;
    try lia;
    first [ by pose proof (has_device_type_inj _ _ _ Hu Hr)
          | by pose proof (has_device_type_inj _ _ _ Hu Hi)
          | by pose proof (has_device_type_inj _ _ _ Hr Hi) ].
Qed.

(** X12. The three streams of a batch do not overlap: no record is
    filed under two tags; and together they hold at most as many
    records as the batch has rows. *)
Theorem streams_disjoint (td : option payload) :
  (∀ tag1 tag2 rec,
     rec ∈ stream_of tag1 td → rec ∈ stream_of tag2 td → tag1 = tag2)
  ∧ (∀ body d, td = Some body → data body = Some d →
       (length (userTerminalRows (decode td))
        + length (routerRows (decode td))
        + length (ipAllocationRows (decode td))
        ≤ length (default [] (values d)))%nat).
Proof.
  split.
  - intros tag1 tag2 rec H1%stream_of_elem H2%stream_of_elem.
    by eapply has_device_type_inj.
  - intros body d -> Hd. unfold decode. simpl.
    rewrite !(stream_of_unfold _ body d Hd).
    etrans; [apply three_filters_le|]. apply length_omap_le.
Qed.

End DecodeMore.

(** ** Statistics *)

Section StatsMore.
Import TelemetryRoutes.

Lemma foldl_add_shift (v : Z) (vs : list Z) :
  foldl Z.add v vs = v + foldr Z.add 0 vs.
Proof.
  revert v. induction vs as [|x vs IH]; intros v; simpl; [lia|].
  rewrite IH. lia.
Qed.

(** SQL [SUM] followed by [or 0] is the sum with NULL read as zero. *)
Lemma sql_sum_or_zero {R} (col : R → option Z) (rows : list R) :
  default 0 (sql_sum col rows) = sum_or_zero col rows.
Proof.
  unfold sql_sum.
  assert (H : ∀ l, match l with
                   | [] => 0
                   | v :: vs => foldl Z.add v vs
                   end = foldr Z.add 0 l).
  { intros [|v vs]; [done|]. apply foldl_add_shift. }
  transitivity (foldr Z.add 0 (omap col rows)).
  { rewrite <- H. by destruct (omap col rows). }
  clear H. unfold sum_or_zero. induction rows as [|r rows IH]; [done|].
  change (omap col (r :: rows))
    with (match col r with Some y => y :: omap col rows | None => omap col rows end).
  simpl. destruct (col r); simpl; rewrite IH; lia.
Qed.

(** X13. In the usage answer a NULL counter counts for zero and never
    turns a total into NULL: upload and download are the sums of
    [wan_tx_bytes] and [wan_rx_bytes] over the rows of the query with
    NULL read as 0, and the total is their sum. *)
Theorem usage_null_counts_zero args now st period start_time end_time u :
  get_usage_stats args now st = StatsOk period start_time end_time u →
  let rows := scoped_rows rt_device_id rt_time (devices st) args
                          start_time end_time (router_telemetry st) in
  upload_bytes u = sum_or_zero wan_tx_bytes rows
  ∧ download_bytes u = sum_or_zero wan_rx_bytes rows
  ∧ total_bytes u = upload_bytes u + download_bytes u.
Proof.
  unfold get_usage_stats. destruct (_ && _); [done|].
  destruct (start_of_period _ now) as [s|]; [|done].
  intros [= <- <- <- <-]. unfold usage_over. simpl.
  by rewrite !sql_sum_or_zero.
Qed.

Lemma usage_null_counts_zero_witness :
  let rows := scoped_rows rt_device_id rt_time (devices demo_stores)
                          organization_args (5000 - timedelta_days 7) 5000
                          (router_telemetry demo_stores) in
  upload_bytes (mkUsage 30 100 130) = sum_or_zero wan_tx_bytes rows
  ∧ download_bytes (mkUsage 30 100 130) = sum_or_zero wan_rx_bytes rows
  ∧ total_bytes (mkUsage 30 100 130)
    = upload_bytes (mkUsage 30 100 130) + download_bytes (mkUsage 30 100 130).
Proof.
  apply (usage_null_counts_zero organization_args 5000 demo_stores "week").
  reflexivity.
Defined.

Lemma start_of_period_cases period now :
  (period = "day" ∧ start_of_period period now = Some (now - timedelta_days 1))
  ∨ (period = "week"
     ∧ start_of_period period now = Some (now - timedelta_days 7))
  ∨ (period = "month"
     ∧ start_of_period period now = Some (now - timedelta_days 30))
  ∨ (period ≠ "day" ∧ period ≠ "week" ∧ period ≠ "month"
     ∧ start_of_period period now = None).
Proof.
  unfold start_of_period.
  destruct (String.eqb_spec period "day") as [->|H1]; [by left|].
  destruct (String.eqb_spec period "week") as [->|H2]; [right; by left|].
  destruct (String.eqb_spec period "month") as [->|H3];
    [right; right; by left|].
  by repeat right.
Qed.

(** X14. Both statistics handlers answer 200 exactly when a device or
    an organization is named and the period (by default "day") is one
    of "day", "week", "month", and 400 otherwise; the window of a 200,
    of [get_usage_stats] and of [get_performance_stats] alike, names the
    period asked for, ends at the time of the call and starts exactly 1,
    7 or 30 days before it. *)
Theorem stats_status_iff args now st :
  let period := default "day" (arg_period args) in
  let scoped := str_truthy (arg_device_id args)
                || str_truthy (arg_organization_id args) in
  let valid := bool_decide (period = "day") || bool_decide (period = "week")
               || bool_decide (period = "month") in
  stats_status (get_usage_stats args now st)
  = (if scoped && valid then 200 else 400)
  ∧ stats_status (get_performance_stats args now st)
    = (if scoped && valid then 200 else 400)
  ∧ (∀ p s e u,
       get_usage_stats args now st = StatsOk p s e u →
       p = period ∧ e = now
       ∧ ((p = "day" ∧ e - s = 86400000000)
          ∨ (p = "week" ∧ e - s = 7 * 86400000000)
          ∨ (p = "month" ∧ e - s = 30 * 86400000000)))
  ∧ (∀ p s e u,
       get_performance_stats args now st = StatsOk p s e u →
       p = period ∧ e = now
       ∧ ((p = "day" ∧ e - s = 86400000000)
          ∨ (p = "week" ∧ e - s = 7 * 86400000000)
          ∨ (p = "month" ∧ e - s = 30 * 86400000000))).
Proof.
  cbv zeta. unfold get_usage_stats, get_performance_stats.
  generalize (default "day" (arg_period args)). intros period.
  rewrite <- negb_orb.
  destruct (str_truthy (arg_device_id args)
            || str_truthy (arg_organization_id args)); simpl.
  2:{ split; [done|]. split; [done|]. split; intros p s e u [=]. }
  destruct (start_of_period_cases period now)
    as [[-> Hp]|[[-> Hp]|[[-> Hp]|(H1 & H2 & H3 & Hp)]]]; rewrite Hp; simpl.
  - split; [done|]. split; [done|].
    split; intros p s e u [= <- <- <- _];
      (split; [done|]; split; [done|]; left; unfold timedelta_days;
       split; [done|lia]).
  - split; [done|]. split; [done|].
    split; intros p s e u [= <- <- <- _];
      (split; [done|]; split; [done|]; right; left; unfold timedelta_days;
       split; [done|lia]).
  - split; [done|]. split; [done|].
    split; intros p s e u [= <- <- <- _];
      (split; [done|]; split; [done|]; right; right; unfold timedelta_days;
       split; [done|lia]).
  - rewrite !bool_decide_eq_false_2 by done. simpl.
    split; [done|]. split; [done|]. split; intros p s e u [=].
Qed.

Lemma join_device_elem {R} (device_id_of : R → string) ds o (rows : list R) r :
  r ∈ join_device device_id_of ds o rows → r ∈ rows.
Proof.
  unfold join_device. intros (r' & Hin & Hr')%list_elem_of_bind.
  apply list_elem_of_bind in Hin as (d & Hin & _).
  by apply list_elem_of_singleton in Hin as ->.
Qed.

(** A row of the query is a row of the table, inside the window. *)
Lemma scoped_rows_elem {R} (device_id_of : R → string) (time_of : R → Z)
      ds args s e (rows : list R) r :
  r ∈ scoped_rows device_id_of time_of ds args s e rows →
  r ∈ rows ∧ s ≤ time_of r ≤ e.
Proof.
  unfold scoped_rows. intros H.
  apply list_elem_of_In, filter_In in H as [H Hw].
  apply andb_prop in Hw as [?%Z.leb_le ?%Z.leb_le]. split; [|lia].
  apply list_elem_of_In in H.
  assert (Hq1 : ∀ x, x ∈ (if str_truthy (arg_device_id args)
                          then List.filter
                                 (λ r, bool_decide (Some (device_id_of r)
                                                    = arg_device_id args)) rows
                          else rows) → x ∈ rows).
  { intros x Hx. destruct (str_truthy (arg_device_id args)); [|done].
    by apply list_elem_of_In, filter_In in Hx as [?%list_elem_of_In _]. }
  destruct (str_truthy (arg_organization_id args)); [|by apply Hq1].
  apply join_device_elem in H. by apply Hq1.
Qed.

(** A later start keeps the rows of the wider query that are not
    older than it. *)
Lemma scoped_rows_narrow {R} (device_id_of : R → string) (time_of : R → Z)
      ds args s1 s2 e (rows : list R) :
  s2 ≤ s1 →
  scoped_rows device_id_of time_of ds args s1 e rows
  = List.filter (λ r, s1 <=? time_of r)
                (scoped_rows device_id_of time_of ds args s2 e rows).
Proof.
  intros Hle. unfold scoped_rows. rewrite filter_filter_andb.
  apply List.filter_ext. intros r.
  destruct (Z.leb_spec s1 (time_of r)), (Z.leb_spec s2 (time_of r));
    simpl; try lia; by rewrite ?andb_true_r, ?andb_false_r.
Qed.

Lemma sum_or_zero_filter_le {R} (col : R → option Z) (f : R → bool)
      (rows : list R) :
  (∀ r, r ∈ rows → 0 ≤ default 0 (col r)) →
  0 ≤ sum_or_zero col (List.filter f rows)
  ∧ sum_or_zero col (List.filter f rows) ≤ sum_or_zero col rows.
Proof.
  induction rows as [|r rows IH]; intros Hpos; simpl; [lia|].
  assert (0 ≤ default 0 (col r)) by (apply Hpos; by left).
  destruct IH as [IH1 IH2]; [intros x Hx; apply Hpos; by right|].
  destruct (f r); simpl; lia.
Qed.

Lemma get_usage_stats_Ok args now st p s e u :
  get_usage_stats args now st = StatsOk p s e u →
  start_of_period (default "day" (arg_period args)) now = Some s
  ∧ u = usage_over (scoped_rows rt_device_id rt_time (devices st) args
                                s now (router_telemetry st)).
Proof.
  unfold get_usage_stats. destruct (_ && _); [done|].
  destruct (start_of_period _ now) as [s'|]; [|done].
  by intros [= <- <- <- <-].
Qed.

(** The period of a request plays no part in the choice of rows. *)
Lemma scoped_rows_with_period {R} (device_id_of : R → string)
      (time_of : R → Z) ds args p s e (rows : list R) :
  scoped_rows device_id_of time_of ds (with_period args p) s e rows
  = scoped_rows device_id_of time_of ds args s e rows.
Proof. reflexivity. Qed.

(** X15. With byte counters that are not negative, a longer period
    never reports less: for one scope and one time of call, the upload,
    download and total of "day" are at most those of "week", which are
    at most those of "month". *)
Theorem usage_grows_with_period args now st pd sd ed ud pw sw ew uw pm sm em um :
  counters_nonnegative st →
  get_usage_stats (with_period args "day") now st = StatsOk pd sd ed ud →
  get_usage_stats (with_period args "week") now st = StatsOk pw sw ew uw →
  get_usage_stats (with_period args "month") now st = StatsOk pm sm em um →
  upload_bytes ud ≤ upload_bytes uw ≤ upload_bytes um
  ∧ download_bytes ud ≤ download_bytes uw ≤ download_bytes um
  ∧ total_bytes ud ≤ total_bytes uw ≤ total_bytes um.
Proof.
  intros Hpos [Hd ->]%get_usage_stats_Ok [Hw ->]%get_usage_stats_Ok
         [Hm ->]%get_usage_stats_Ok.
  simpl in Hd, Hw, Hm. injection Hd as <-. injection Hw as <-.
  injection Hm as <-.
  unfold usage_over. simpl. rewrite !sql_sum_or_zero.
  rewrite !scoped_rows_with_period.
  set (rows_m := scoped_rows rt_device_id rt_time (devices st) args
                             (now - timedelta_days 30) now (router_telemetry st)).
  assert (Hw' : scoped_rows rt_device_id rt_time (devices st) args
                            (now - timedelta_days 7) now (router_telemetry st)
                = List.filter (λ r, now - timedelta_days 7 <=? rt_time r) rows_m).
  { apply (scoped_rows_narrow rt_device_id rt_time). unfold timedelta_days. lia. }
  assert (Hd' : scoped_rows rt_device_id rt_time (devices st) args
                            (now - timedelta_days 1) now (router_telemetry st)
                = List.filter (λ r, now - timedelta_days 1 <=? rt_time r)
                    (List.filter (λ r, now - timedelta_days 7 <=? rt_time r)
                                 rows_m)).
  { rewrite <- Hw'.
    apply (scoped_rows_narrow rt_device_id rt_time). unfold timedelta_days. lia. }
  rewrite Hd', Hw'.
  assert (Hin : ∀ r, r ∈ rows_m → r ∈ router_telemetry st).
  { intros r Hr. by apply scoped_rows_elem in Hr as [? _]. }
  assert (Hin' : ∀ f r, r ∈ List.filter f rows_m → r ∈ router_telemetry st).
  { intros f r Hr. apply Hin.
    by apply list_elem_of_In, filter_In in Hr as [?%list_elem_of_In _]. }
  pose proof (sum_or_zero_filter_le wan_tx_bytes
                (λ r, now - timedelta_days 7 <=? rt_time r) rows_m
                (λ r Hr, proj1 (Hpos r (Hin r Hr)))) as [? ?].
  pose proof (sum_or_zero_filter_le wan_rx_bytes
                (λ r, now - timedelta_days 7 <=? rt_time r) rows_m
                (λ r Hr, proj2 (Hpos r (Hin r Hr)))) as [? ?].
  set (week := λ r, now - timedelta_days 7 <=? rt_time r) in *.
  pose proof (sum_or_zero_filter_le wan_tx_bytes
                (λ r, now - timedelta_days 1 <=? rt_time r)
                (List.filter week rows_m)
                (λ r Hr, proj1 (Hpos r (Hin' week r Hr)))) as [? ?].
  pose proof (sum_or_zero_filter_le wan_rx_bytes
                (λ r, now - timedelta_days 1 <=? rt_time r)
                (List.filter week rows_m)
                (λ r Hr, proj2 (Hpos r (Hin' week r Hr)))) as [? ?].
  lia.
Qed.

Lemma ten_days_nonnegative : counters_nonnegative ten_days_stores.
Proof.
  intros r Hr. apply list_elem_of_In in Hr. simpl in Hr.
  repeat (destruct Hr as [<-|Hr]); try done; simpl; lia.
Qed.

Lemma usage_grows_with_period_witness :
  upload_bytes (mkUsage 1 10 11) ≤ upload_bytes (mkUsage 8 10 18)
  ≤ upload_bytes (mkUsage 13 60 73)
  ∧ download_bytes (mkUsage 1 10 11) ≤ download_bytes (mkUsage 8 10 18)
    ≤ download_bytes (mkUsage 13 60 73)
  ∧ total_bytes (mkUsage 1 10 11) ≤ total_bytes (mkUsage 8 10 18)
    ≤ total_bytes (mkUsage 13 60 73).
Proof.
  apply (usage_grows_with_period
           (mkStatsArgs (Some "d1") None None) (timedelta_days 10)
           ten_days_stores
           "day" (timedelta_days 10 - timedelta_days 1) (timedelta_days 10)
           (mkUsage 1 10 11)
           "week" (timedelta_days 10 - timedelta_days 7) (timedelta_days 10)
           (mkUsage 8 10 18)
           "month" (timedelta_days 10 - timedelta_days 30) (timedelta_days 10)
           (mkUsage 13 60 73));
    [apply ten_days_nonnegative | reflexivity | reflexivity | reflexivity].
Defined.

Lemma scoped_rows_outside {R} (device_id_of : R → string) (time_of : R → Z)
      ds args s e (rows : list R) :
  (∀ r, r ∈ rows → ¬ (s ≤ time_of r ≤ e)) →
  scoped_rows device_id_of time_of ds args s e rows = [].
Proof.
  intros Hout.
  destruct (scoped_rows device_id_of time_of ds args s e rows) as [|r l] eqn:E;
    [done|].
  assert (Hr : r ∈ scoped_rows device_id_of time_of ds args s e rows)
    by (rewrite E; by left).
  apply scoped_rows_elem in Hr as [Hin Hw]. by destruct (Hout r Hin).
Qed.

(** X16. An empty window is no error and gives no NULL: when a scope
    is named, the period is valid and no telemetry row has its time
    inside the window, the usage answer is 200 with three zeros and the
    performance answer is 200 with six zeros. *)
Theorem stats_empty_window args now st start_time :
  str_truthy (arg_device_id args) || str_truthy (arg_organization_id args)
  = true →
  start_of_period (default "day" (arg_period args)) now = Some start_time →
  (∀ r, r ∈ router_telemetry st → ¬ (start_time ≤ rt_time r ≤ now)) →
  (∀ r, r ∈ user_terminal_telemetry st → ¬ (start_time ≤ ut_time r ≤ now)) →
  get_usage_stats args now st
  = StatsOk (default "day" (arg_period args)) start_time now (mkUsage 0 0 0)
  ∧ get_performance_stats args now st
    = StatsOk (default "day" (arg_period args)) start_time now
              (mkPerformance 0 0 0 0 0 0).
Proof.
  intros Hscope Hp Hrt Hut. unfold get_usage_stats, get_performance_stats.
  rewrite <- negb_orb, Hscope, Hp. simpl.
  rewrite !scoped_rows_outside by done. done.
Qed.

Lemma stats_empty_window_witness :
  get_usage_stats organization_args (timedelta_days 40) ten_days_stores
  = StatsOk "week" (timedelta_days 40 - timedelta_days 7) (timedelta_days 40)
            (mkUsage 0 0 0)
  ∧ get_performance_stats organization_args (timedelta_days 40) ten_days_stores
    = StatsOk "week" (timedelta_days 40 - timedelta_days 7) (timedelta_days 40)
              (mkPerformance 0 0 0 0 0 0).
Proof.
  apply (stats_empty_window organization_args (timedelta_days 40)
                            ten_days_stores);
    [reflexivity | reflexivity | |].
  - intros r Hr. apply list_elem_of_In in Hr. simpl in Hr.
    repeat (destruct Hr as [<-|Hr]); try done;
      unfold timedelta_days; simpl; lia.
  - intros r Hr. by apply elem_of_nil in Hr.
Defined.

End StatsMore.

(** ** Listings and pagination *)

Section ListingMore.
Import TelemetryRoutes.

(** X17. For a positive page size and a non-negative total,
    [pagination_response] reports the least number of pages that holds
    all rows: the pages hold at least [total] rows, and one page fewer
    would not. *)
Theorem pagination_pages_ceiling page per_page total :
  0 < per_page → 0 ≤ total →
  ∃ pg, pagination_response page per_page total = Some pg
        ∧ pg_page pg = page ∧ pg_per_page pg = per_page ∧ pg_total pg = total
        ∧ 0 ≤ pg_pages pg
        ∧ (pg_pages pg - 1) * per_page < total ≤ pg_pages pg * per_page.
Proof.
  intros Hpp Ht. unfold pagination_response.
  destruct (Z.eqb_spec per_page 0) as [->|_]; [lia|].
  eexists. split; [done|]. simpl. repeat (split; [done|]).
  pose proof (Z.div_mod (total + per_page - 1) per_page ltac:(lia)) as Hdm.
  pose proof (Z.mod_pos_bound (total + per_page - 1) per_page Hpp) as Hm.
  assert (0 ≤ (total + per_page - 1) `div` per_page)
    by (apply Z.div_pos; lia).
  nia.
Qed.

Lemma pagination_pages_ceiling_witness :
  ∃ pg, pagination_response 3 10 95 = Some pg
        ∧ pg_page pg = 3 ∧ pg_per_page pg = 10 ∧ pg_total pg = 95
        ∧ 0 ≤ pg_pages pg
        ∧ (pg_pages pg - 1) * 10 < 95 ≤ pg_pages pg * 10.
Proof. apply pagination_pages_ceiling; lia. Defined.

#[local] Instance newer_first_total {R} (time_of : R → Z) :
  Total (newer_first time_of).
Proof. intros r1 r2. unfold newer_first. lia. Qed.

#[local] Instance newer_first_trans {R} (time_of : R → Z) :
  Transitive (newer_first time_of).
Proof. intros r1 r2 r3. unfold newer_first. lia. Qed.






End ListingMore.

(** ** Login, password change and registration *)

Section AccountsMore.
Import AuthRoutes.



(** X20. [login] hands out tokens only for a verified password and an
    enabled account: a 200 names the first account with the given
    e-mail, whose password hash accepts the given password and whose
    [is_active] is set, and the two tokens are made for the id of that
    account. *)
Theorem login_tokens_sound env accounts user role_names access refresh :
  login env accounts = LoginOk user role_names access refresh →
  ∃ a address password,
    login_load env = Some (address, password)
    ∧ a ∈ accounts ∧ account_user a = user ∧ email user = address
    ∧ check_password_hash env (password_hash user) password = Some true
    ∧ account_is_active a = true
    ∧ access = create_access_token env (user_id user)
    ∧ refresh = create_refresh_token env (user_id user).
Proof.
  unfold login. destruct (login_load env) as [[address password]|]; [|done].
  destruct (List.find _ accounts) as [a|] eqn:E; [|done].
  apply find_some in E as [Hin Hm]. apply String.eqb_eq in Hm.
  destruct (check_password_hash env _ password) as [[]|] eqn:Hc;
    [|done|done].
  destruct (account_is_active a) eqn:Ha; [|done]. simpl.
  destruct (login_fault env); [done|].
  destruct (account_roles a); [|done].
  intros [= <- <- <- <-]. exists a, address, password.
  rewrite list_elem_of_In. auto 10.
Qed.

Lemma login_tokens_sound_witness :
  ∃ a address password,
    login_load (demo_login_env "ada@example.org" "correct horse")
    = Some (address, password)
    ∧ a ∈ demo_accounts
    ∧ account_user a
      = mkUser "u-1" "ada@example.org" "hash:correct horse" "Ada" "" ""
    ∧ "ada@example.org" = address
    ∧ check_password_hash (demo_login_env "ada@example.org" "correct horse")
                          "hash:correct horse" password = Some true
    ∧ account_is_active a = true
    ∧ "access:u-1" = "access:u-1"
    ∧ "refresh:u-1" = "refresh:u-1".
Proof.
  apply (login_tokens_sound
           (demo_login_env "ada@example.org" "correct horse") demo_accounts
           (mkUser "u-1" "ada@example.org" "hash:correct horse" "Ada" "" "")
           [] "access:u-1" "refresh:u-1").
  reflexivity.
Defined.

Lemma set_password_hash_users id hash db :
  user_id <$> users (set_password_hash id hash db) = user_id <$> users db
  ∧ email <$> users (set_password_hash id hash db) = email <$> users db
  ∧ ∀ u, u ∈ users (set_password_hash id hash db) → user_id u ≠ id →
         u ∈ users db.
Proof.
  unfold set_password_hash. simpl. split; [|split].
  - rewrite <- list_fmap_compose. apply list_fmap_ext. intros i u _. simpl.
    by destruct (String.eqb (user_id u) id).
  - rewrite <- list_fmap_compose. apply list_fmap_ext. intros i u _. simpl.
    by destruct (String.eqb (user_id u) id).
  - intros u (v & -> & Hv)%list_elem_of_fmap Hne.
    destruct (String.eqb_spec (user_id v) id) as [He|_]; [|done].
    simpl in Hne. done.
Qed.

Lemma session_commit_nothing_pending fault db :
  pending db = [] →
  session_commit fault db = if fault then (false, db) else (true, db).
Proof.
  intros Hp. unfold session_commit. rewrite Hp. simpl.
  destruct fault; [done|]. simpl. f_equal.
  destruct db; simpl in *. by subst.
Qed.

(** X21. [change_password] touches nothing but the password hash of
    the caller: roles and role assignments stay, every row keeps its id
    and e-mail, the rows of other ids stay as they are; and the table
    changes only with a 200, that is when the current password was
    accepted and the new one has 8 characters or more. *)
Theorem change_password_frame check hash fault id request db :
  pending db = [] →
  let '(response, db1) := change_password check hash fault id request db in
  roles db1 = roles db ∧ user_roles db1 = user_roles db ∧ pending db1 = []
  ∧ user_id <$> users db1 = user_id <$> users db
  ∧ email <$> users db1 = email <$> users db
  ∧ (∀ u, u ∈ users db1 → user_id u ≠ id → u ∈ users db)
  ∧ (users db1 = users db
     ∨ response = Answer "Password changed successfully" 200
       ∧ ∃ user current new,
           List.find (λ u, String.eqb (user_id u) id) (users db) = Some user
           ∧ request = Some (current, Some new)
           ∧ check (password_hash user) current = Some true
           ∧ (8 ≤ String.length new)%nat
           ∧ users db1 = users (set_password_hash id (hash new) db)).
Proof.
  intros Hp. unfold change_password.
  destruct (List.find _ (users db)) as [user|] eqn:Ef;
    [|by repeat split; auto].
  destruct request as [[current new]|]; [|by repeat split; auto].
  destruct (check (password_hash user) current) as [[]|] eqn:Ec;
    [| by repeat split; auto | by repeat split; auto].
  destruct new as [new|]; [|by repeat split; auto].
  destruct (String.eqb new "") eqn:En; simpl; [by repeat split; auto|].
  destruct (Nat.ltb_spec (String.length new) 8) as [|Hlen];
    [by repeat split; auto|].
  rewrite session_commit_nothing_pending by done.
  destruct fault; [by repeat split; auto|].
  destruct (set_password_hash_users id (hash new) db) as (H1 & H2 & H3).
  repeat (split; [done|]). right. split; [done|].
  exists user, current, new. auto.
Qed.

Lemma change_password_frame_witness :
  let '(response, db1) :=
    change_password
      (λ h p, (λ p, String.eqb h (String.append "hash:" p)) <$> p)
      (String.append "hash:") false "u-1"
      (Some (Some "correct horse", Some "battery staple"))
      demo_users_database in
  roles db1 = roles demo_users_database
  ∧ user_roles db1 = user_roles demo_users_database ∧ pending db1 = []
  ∧ user_id <$> users db1 = user_id <$> users demo_users_database
  ∧ email <$> users db1 = email <$> users demo_users_database
  ∧ (∀ u, u ∈ users db1 → user_id u ≠ "u-1" → u ∈ users demo_users_database)
  ∧ (users db1 = users demo_users_database
     ∨ response = Answer "Password changed successfully" 200
       ∧ ∃ user current new,
           List.find (λ u, String.eqb (user_id u) "u-1")
                     (users demo_users_database) = Some user
           ∧ Some (Some "correct horse", Some "battery staple")
             = Some (current, Some new)
           ∧ (λ p, String.eqb (password_hash user) (String.append "hash:" p))
               <$> current = Some true
           ∧ (8 ≤ String.length new)%nat
           ∧ users db1
             = users (set_password_hash "u-1" (String.append "hash:" new)
                                        demo_users_database)).
Proof.
  apply (change_password_frame
           (λ h p, (λ p, String.eqb h (String.append "hash:" p)) <$> p)
           (String.append "hash:") false "u-1"
           (Some (Some "correct horse", Some "battery staple"))
           demo_users_database).
  reflexivity.
Defined.

(** What [register] can do to the tables when the session is clean. *)
Lemma register_effect env db :
  pending db = [] →
  roles (snd (register env db)) = roles db
  ∧ pending (snd (register env db)) = []
  ∧ (users (snd (register env db)) = users db
     ∨ ∃ data,
         schema_load env = Some data
         ∧ List.find (λ u, String.eqb (email u) (reg_email data)) (users db)
           = None
         ∧ users (snd (register env db))
           = users db ++ [new_user_of env data]).
Proof.
  intros Hp. destruct db as [us rs urs pend]. simpl in Hp. subst pend.
  unfold register. simpl.
  destruct (schema_load env) as [data|]; [|by auto].
  destruct (List.find _ us) eqn:Ef; [by auto|].
  destruct (ctor_accepts env); simpl; [|by auto].
  unfold session_commit. simpl.
  destruct (fault_1 env); simpl; [by auto|].
  destruct (existsb _ us); simpl; [by auto|].
  destruct (List.find _ rs) as [client_role|]; simpl.
  - rewrite orb_true_r. simpl. split; [done|]. split; [done|]. right. eauto.
  - split; [done|]. split; [done|]. right. eauto.
Qed.

(** X22. [register] keeps the e-mails of the users table distinct:
    started on a clean session and a table without a repeated e-mail,
    it leaves such a table, a clean session and the roles as they
    were. *)
Theorem register_keeps_emails_unique env db :
  pending db = [] →
  NoDup (email <$> users db) →
  NoDup (email <$> users (snd (register env db)))
  ∧ pending (snd (register env db)) = []
  ∧ roles (snd (register env db)) = roles db.
Proof.
  intros Hp Hnd.
  destruct (register_effect env db Hp) as (Hr & Hpend & [->|(data & _ & Ef & ->)]);
    [done|].
  split; [|done]. rewrite fmap_app. apply NoDup_app.
  split; [done|]. split; [|apply NoDup_singleton].
  intros e (u & -> & Hu)%list_elem_of_fmap He. simpl in He.
  apply list_elem_of_singleton in He.
  apply list_elem_of_In in Hu.
  pose proof (find_none _ _ Ef u Hu) as Hb. simpl in Hb.
  by apply String.eqb_neq in Hb.
Qed.

Lemma register_keeps_emails_unique_witness :
  NoDup (email <$> users (snd (register
                                 quiet_env
                                 {| users := [mkUser "u-2" "bob@example.org"
                                                     "hash:tr0ub4dor" "Bob" "" ""];
                                    roles := [];
                                    user_roles := [];
                                    pending := [] |})))
  ∧ pending (snd (register
                    quiet_env
                    {| users := [mkUser "u-2" "bob@example.org"
                                        "hash:tr0ub4dor" "Bob" "" ""];
                       roles := [];
                       user_roles := [];
                       pending := [] |})) = []
  ∧ roles (snd (register
                  quiet_env
                  {| users := [mkUser "u-2" "bob@example.org"
                                      "hash:tr0ub4dor" "Bob" "" ""];
                     roles := [];
                     user_roles := [];
                     pending := [] |})) = [].
Proof.
  apply register_keeps_emails_unique; [reflexivity|].
  by apply (bool_decide_unpack _).
Defined.

(** X23. [register] answers 409 "Email already registered" exactly
    when the body passes the schema and its e-mail is the e-mail of a
    user; the database is then left as it was. *)
Theorem register_email_taken env db :
  (fst (register env db) = RegisterError "Email already registered" 409
   ↔ ∃ data u, schema_load env = Some data ∧ u ∈ users db
               ∧ email u = reg_email data)
  ∧ (fst (register env db) = RegisterError "Email already registered" 409 →
     snd (register env db) = db).
Proof.
  unfold register. destruct (schema_load env) as [data|].
  2:{ split; [|done]. split; [done|]. by intros (? & ? & ? & _). }
  destruct (List.find _ (users db)) as [u|] eqn:Ef; simpl.
  { split; [|done]. split; [|done]. intros _.
    apply find_some in Ef as [Hin Hb]. apply String.eqb_eq in Hb.
    exists data, u. by rewrite list_elem_of_In. }
  assert (Hno : ¬ ∃ data' u, Some data = Some data' ∧ u ∈ users db
                             ∧ email u = reg_email data').
  { intros (data' & u & [= <-] & Hu & He). apply list_elem_of_In in Hu.
    pose proof (find_none _ _ Ef u Hu) as Hb. simpl in Hb.
    by apply String.eqb_neq in Hb. }
  assert (Hne : ∀ r : register_response * Database,
            fst r ≠ RegisterError "Email already registered" 409 →
            (fst r = RegisterError "Email already registered" 409
             ↔ ∃ data' u, Some data = Some data' ∧ u ∈ users db
                          ∧ email u = reg_email data')
            ∧ (fst r = RegisterError "Email already registered" 409 →
               snd r = db)).
  { intros r Hr. split; [split|]; done. }
  apply Hne.
  destruct (ctor_accepts env); simpl; [|done].
  destruct (session_commit (fault_1 env) _) as [[] db2]; simpl; [|done].
  destruct (List.find _ (roles db2)); [|done].
  destruct (session_commit (fault_2 env) _) as [[] db4]; done.
Qed.

End AccountsMore.

(** ** The sync view and its client *)

Section SyncFresh.
Import Starlink TelemetryRoutes.

Lemma get_telemetry_after_token depth self w account bs ml :
  log (snd (_ensure_token self w))
  `prefix_of` log (snd (get_telemetry (S depth) self w account bs ml)).
Proof.
  destruct (_ensure_token self w) as [[ok self1] w1] eqn:E. destruct ok.
  - rewrite (get_telemetry_step depth self w account bs ml _ _ E). simpl.
    destruct (default TransportError (head (telemetry_answers w1)))
      as [|status body]; simpl; [by apply prefix_app_r|].
    destruct (status =? 401).
    + etrans; [|apply get_telemetry_log]. simpl. by apply prefix_app_r.
    + destruct (raises_for_status status); simpl; by apply prefix_app_r.
  - by rewrite (get_telemetry_no_token depth self w account bs ml _ _ E).
Qed.

(** X24. [sync_telemetry] builds a new client for every request, so
    the token cache never serves two requests: a request that names an
    account starts with a token exchange, whatever was fetched before;
    a request without a (truthy) account number is answered 400 before
    anything is sent. *)
Theorem sync_telemetry_fresh_client depth request_json st w :
  (∀ data,
     request_json = Some data →
     (∀ account, data !! "account_number" = Some account →
                 value_truthy account = false) →
     sync_telemetry depth request_json st w
     = (SyncError "Account number is required" 400, st, w))
  ∧ (∀ data account,
       request_json = Some data →
       data !! "account_number" = Some account →
       value_truthy account = true →
       ∃ rest,
         log (snd (sync_telemetry (S depth) request_json st w))
         = log w ++ TokenExchange :: rest).
Proof.
  split.
  - intros data -> Hacc. unfold sync_telemetry.
    destruct (data !! "account_number") as [account|]; [|done].
    by rewrite (Hacc account).
  - intros data account -> Hacc Ht. unfold sync_telemetry. rewrite Hacc, Ht.
    cbn [negb].
    pose proof (get_telemetry_after_token depth StarlinkAPI_init w
                                          account 1000 15000) as Hpre.
    rewrite (ensure_token_refresh StarlinkAPI_init w) in Hpre
      by (left; reflexivity).
    destruct (get_telemetry (S depth) StarlinkAPI_init w account 1000 15000)
      as [[telemetry_data self1] w1].
    assert (Hlog : ∃ rest, log w1 = log w ++ TokenExchange :: rest).
    { unfold get_starlink_access_token in Hpre. cbn zeta in Hpre.
      destruct (token_truthy _) in Hpre; simpl in Hpre;
        destruct Hpre as [rest ->]; exists rest;
        by rewrite <- (assoc_L (++)). }
    destruct (payload_truthy telemetry_data); simpl; [|exact Hlog].
    destruct (process_telemetry_data telemetry_data); [|exact Hlog].
    by destruct (foldl count_row _ _) as [[u r] i].
Qed.

End SyncFresh.
